(** * gdzone: room booking server and its browser scripts

    A shallow embedding of [src/server.js] (the Express backend that books,
    extends, releases and expires rooms kept in [rooms.json]) and of the pure
    helpers of the two browser scripts ([src/frontend/manage.js] and the room
    list script), followed by the properties proved about them.

    Modelling conventions.
    - Every Number the program computes is an integer, an infinity or [NaN]:
      the type [Number].  A finite Number is the [Z] of its value, which is a
      double: an integer with at most 53 significant bits.  The arithmetic
      of the source ([parseInt], [*], [+], [String(n)]) is the arithmetic of
      doubles: the exact result rounded to the nearest double ([double_of]),
      an infinity beyond the largest one.  A number of a request body is an
      integer literal, the [Z] of [JNum], and denotes the double nearest to
      it; a value with a fraction is sent as a string.
    - A JavaScript string is a [string]; each [ascii] is read as one code
      unit in the range 0..255.
    - A room of [rooms.json] is a record whose optional properties are
      [option]s: [delete r.p] is [None], [r.p = v] is [Some v].  The
      properties have the types the handlers write: the ids and end times of
      the file are Numbers.  An [endTime] that is not finite is written by
      [JSON.stringify] as [null], to the file and to the response alike;
      [None] stands for that [null] as it does for an absent property (the
      program tests [endTime] for truth only).
    - [rooms.json] is [None] when [fs.readFileSync] or [JSON.parse] throws and
      [Some rooms] otherwise; [fs.writeFileSync] succeeds and is counted.
    - Every [Date.now()] of the source is an explicit argument of the function
      that calls it, the [Z] of a Number; the four bytes of [crypto.randomBytes(4)] are an argument
      of the booking handler; [QRCode.toDataURL] and [process.env.PUBLIC_URL]
      are fields of an environment record.
    - The timers of the Node runtime are an explicit list of pending timers,
      each with the time it was set for; the runtime may run the callback of
      any pending timer at any reading of the clock.  [autoReleaseTimers] is
      a [gmap] from room id to timer handle.  A request handler or a timer
      callback runs to its end before the next one starts, as on Node's
      single thread. *)

From Stdlib Require Import ZArith String Ascii Bool Lia List.
From Stdlib.Strings Require Import Byte.
From stdpp Require Import base decidable option list strings gmap.
Import ListNotations.

Local Open Scope string_scope.
Local Open Scope Z_scope.

(* ===================================================================== *)
(** * JavaScript values and the built-ins the program calls *)
(* ===================================================================== *)

(** The scalar JSON values a request body or an object property can hold. *)
Inductive JsVal : Type :=
  | JUndefined
  | JNull
  | JBool (b : bool)
  | JNum (n : Z)
  | JStr (s : string).

(** An object as the list of its own enumerable properties. *)
Definition Obj : Type := list (string * JsVal).

Definition keys (o : Obj) : list string := map fst o.

Fixpoint get (k : string) (o : Obj) : JsVal :=
  match o with
  | [] => JUndefined
  | (k', v) :: rest => if String.eqb k k' then v else get k rest
  end.

(** ToBoolean: what [!v] and [v && ...] test. *)
Definition truthy (v : JsVal) : bool :=
  match v with
  | JUndefined | JNull => false
  | JBool b => b
  | JNum n => negb (n =? 0)
  | JStr s => negb (String.eqb s EmptyString)
  end.

(** [a || b] on two optional strings (an absent header is [None]). *)
Definition or_else (a : option string) (b : option string) : option string :=
  match a with
  | Some s => if String.eqb s EmptyString then b else a
  | None => b
  end.

(** White space (WhiteSpace and LineTerminator) among the code units 0..255:
    TAB, LF, VT, FF, CR, SP and NBSP. *)
Definition is_space (c : ascii) : bool :=
  let n := N_of_ascii c in
  ((9 <=? n) && (n <=? 13) || (n =? 32) || (n =? 160))%N.

Fixpoint trimStart (s : string) : string :=
  match s with
  | EmptyString => EmptyString
  | String c rest => if is_space c then trimStart rest else s
  end.

Fixpoint trimEnd (s : string) : string :=
  match s with
  | EmptyString => EmptyString
  | String c rest =>
      match trimEnd rest with
      | EmptyString => if is_space c then EmptyString else String c EmptyString
      | rest' => String c rest'
      end
  end.

(** [String.prototype.trim]. *)
Definition trim (s : string) : string := trimEnd (trimStart s).

(** ** Numbers *)

(** A Number of the program: an integer (a double), an infinity or NaN. *)
Inductive Number : Type :=
  | Finite (n : Z)
  | Infinity
  | NegInfinity
  | NaN.

(** [Number.MAX_SAFE_INTEGER]: up to it every integer is a double. *)
Definition MAX_SAFE_INTEGER : Z := 2 ^ 53 - 1.

(** The Number nearest to an integer: the integer itself below [2^53];
    beyond, the nearest integer with 53 significant bits, the one with an
    even last bit when two are as near; an infinity from
    [2^1024 - 2^970] on. *)
Definition double_of (z : Z) : Number :=
  let a := Z.abs z in
  if a <? 2 ^ 53 then Finite z
  else
    let unit := 2 ^ (Z.log2 a - 52) in
    let q := a / unit in
    let r := a mod unit in
    let m := if 2 * r <? unit then q
             else if unit <? 2 * r then q + 1
             else if Z.even q then q else q + 1 in
    if 2 ^ 1024 <=? m * unit
    then (if z <? 0 then NegInfinity else Infinity)
    else Finite (Z.sgn z * (m * unit)).

(** [Number.isFinite] and [Number.isInteger]; the finite Numbers of the
    program are integers. *)
Definition isFinite (n : Number) : bool :=
  match n with
  | Finite _ => true
  | _ => false
  end.

Definition isInteger (n : Number) : bool := isFinite n.

(** [-n] *)
Definition negate (n : Number) : Number :=
  match n with
  | Finite z => Finite (- z)
  | Infinity => NegInfinity
  | NegInfinity => Infinity
  | NaN => NaN
  end.

(** The sign of a Number: -1, 0 or 1. *)
Definition sign (n : Number) : Z :=
  match n with
  | Finite z => Z.sgn z
  | Infinity => 1
  | NegInfinity => -1
  | NaN => 0
  end.

(** [a * b] *)
Definition js_mul (a b : Number) : Number :=
  match a, b with
  | NaN, _ | _, NaN => NaN
  | Finite x, Finite y => double_of (x * y)
  | _, _ =>
      if sign a * sign b =? 0 then NaN
      else if 0 <? sign a * sign b then Infinity else NegInfinity
  end.

(** [a + b] *)
Definition js_add (a b : Number) : Number :=
  match a, b with
  | NaN, _ | _, NaN => NaN
  | Finite x, Finite y => double_of (x + y)
  | Infinity, NegInfinity | NegInfinity, Infinity => NaN
  | Infinity, _ | _, Infinity => Infinity
  | NegInfinity, _ | _, NegInfinity => NegInfinity
  end.

(** [n <= 0] *)
Definition le_zero (n : Number) : bool :=
  match n with
  | Finite z => z <=? 0
  | NegInfinity => true
  | Infinity | NaN => false
  end.

(** [minutes * 60 * 1000] *)
Definition milliseconds (minutes : Number) : Number :=
  js_mul (js_mul minutes (Finite 60)) (Finite 1000).

(** What [JSON.stringify] writes for a Number: its value, or [null] ([None])
    when it is not finite. *)
Definition json_number (n : Number) : option Z :=
  match n with
  | Finite z => Some z
  | _ => None
  end.

Definition digit_of (c : ascii) : option Z :=
  let n := Z.of_N (N_of_ascii c) in
  if (48 <=? n) && (n <=? 57) then Some (n - 48) else None.

(** The longest prefix of decimal digits, read as an integer; [acc] is
    [None] until the first digit has been seen. *)
Fixpoint parse_digits (s : string) (acc : option Z) : option Z :=
  match s with
  | EmptyString => acc
  | String c rest =>
      match digit_of c with
      | Some d => parse_digits rest (Some (10 * default 0 acc + d))
      | None => acc
      end
  end.

(** The Number of an optional integer: [NaN] when there is none. *)
Definition number_of (m : option Z) : Number :=
  match m with
  | Some z => double_of z
  | None => NaN
  end.

(** [parseInt(s, 10)] on a string: leading white space is skipped, one sign is
    read, then the longest run of digits; the result is the Number nearest
    to the integer read, [NaN] when there is no digit. *)
Definition parseInt_string (s : string) : Number :=
  match trimStart s with
  | String "-" rest => number_of (Z.opp <$> parse_digits rest None)
  | String "+" rest => number_of (parse_digits rest None)
  | s' => number_of (parse_digits s' None)
  end.

Definition digit_char (d : Z) : ascii := ascii_of_N (Z.to_N (48 + d)).

(** The decimal digits of a natural number, most significant first; [fuel]
    bounds the number of digits. *)
Fixpoint digits_of (fuel : nat) (n : Z) (acc : string) : string :=
  match fuel with
  | O => acc
  | S fuel' =>
      let acc' := String (digit_char (n mod 10)) acc in
      if n / 10 =? 0 then acc' else digits_of fuel' (n / 10) acc'
  end.

Definition decimal (a : Z) : string :=
  digits_of (S (Z.to_nat (Z.log2 a))) a EmptyString.

(** The decimal [x] denotes the Number [a]: [a] is the double nearest to it. *)
Definition denotes (a x : Z) : bool :=
  match double_of x with
  | Finite v => v =? a
  | _ => false
  end.

(** Among the multiples of [10^p], the one that denotes [a] and is nearest to
    it (the even one of two as near), if there is one.  Only the two
    multiples around [a] can qualify. *)
Definition nearest_multiple (a : Z) (p : nat) : option Z :=
  let unit := 10 ^ Z.of_nat p in
  let lo := a / unit * unit in
  let hi := lo + unit in
  match denotes a lo, denotes a hi with
  | true, true =>
      Some (if a - lo <? hi - a then lo
            else if hi - a <? a - lo then hi
            else if Z.even (lo / unit) then lo else hi)
  | true, false => Some lo
  | false, true => Some hi
  | false, false => None
  end.

(** The decimal with the fewest significant digits that denotes [a]: the
    search goes from [p] trailing zeros down to none. *)
Fixpoint shortest (a : Z) (p : nat) : Z :=
  match nearest_multiple a p with
  | Some x => x
  | None =>
      match p with
      | O => a
      | S p' => shortest a p'
      end
  end.

(** A text without its trailing zeros. *)
Fixpoint strip_zeros (s : string) : string :=
  match s with
  | EmptyString => EmptyString
  | String c rest =>
      match strip_zeros rest with
      | EmptyString => if Ascii.eqb c "0" then EmptyString else String c EmptyString
      | rest' => String c rest'
      end
  end.

(** The exponent form of Number::toString: the first significant digit, the
    others after a point, and the decimal exponent. *)
Definition exponent_form (digits : string) (e : Z) : string :=
  match digits with
  | EmptyString => EmptyString
  | String d EmptyString => String d ("e+" ++ decimal e)
  | String d rest => String d ("." ++ rest ++ "e+" ++ decimal e)
  end.

(** Number::toString on a finite Number.  Below [2^53] the digits of the
    integer; beyond, the fewest significant digits that denote the Number,
    followed by zeros when the text has at most 21 digits and in exponent
    form otherwise. *)
Definition number_toString (n : Z) : string :=
  let a := Z.abs n in
  let text :=
    if a <? 2 ^ 53 then decimal a
    else
      let digits := decimal (shortest a (String.length (decimal a) - 1)) in
      if (String.length digits <=? 21)%nat then digits
      else exponent_form (strip_zeros digits) (Z.of_nat (String.length digits) - 1) in
  if n <? 0 then String "-" text else text.

(** [String(n)] *)
Definition Number_toString (n : Number) : string :=
  match n with
  | Finite z => number_toString z
  | Infinity => "Infinity"
  | NegInfinity => "-Infinity"
  | NaN => "NaN"
  end.

(** ToString, which [parseInt] and template literals apply to their
    argument. *)
Definition toString (v : JsVal) : string :=
  match v with
  | JUndefined => "undefined"
  | JNull => "null"
  | JBool true => "true"
  | JBool false => "false"
  | JNum n => Number_toString (double_of n)
  | JStr s => s
  end.

(** [parseInt(v, 10)]. *)
Definition parseInt (v : JsVal) : Number := parseInt_string (toString v).

(** [Number.isInteger(n) && n > 0] on a [parseInt] result. *)
Definition positive_integer (n : Number) : bool :=
  match n with
  | Finite z => 0 <? z
  | _ => false
  end.

(** [typeof v === "string" && v.trim()]: the trimmed text when it is not
    empty. *)
Definition nonblank (v : JsVal) : option string :=
  match v with
  | JStr s => if String.eqb (trim s) EmptyString then None else Some (trim s)
  | _ => None
  end.

(** A hexadecimal digit in lower case, as [Buffer.toString("hex")] prints. *)
Definition hex_digit (n : N) : ascii :=
  if (n <? 10)%N then ascii_of_N (48 + n) else ascii_of_N (87 + n).

(** [buf.toString("hex")]: two lower-case digits per byte. *)
Fixpoint toString_hex (buf : list byte) : string :=
  match buf with
  | [] => EmptyString
  | b :: rest =>
      let n := Byte.to_N b in
      String (hex_digit (n / 16)) (String (hex_digit (n mod 16)) (toString_hex rest))
  end.

(** The four bytes [crypto.randomBytes(4)] returns. *)
Definition Bytes4 : Type := (byte * byte * byte * byte)%type.

Definition buffer_of (r : Bytes4) : list byte :=
  let '(b0, b1, b2, b3) := r in [b0; b1; b2; b3].

(* ===================================================================== *)
(** * src/server.js: rooms and the room store *)
(* ===================================================================== *)

Module Room.

Record t : Type := mk {
  id : Z;
  name : string;
  status : string;
  bookedBy : option string;
  purpose : option string;
  endTime : option Z;
  bookingCode : option string
}.

End Room.

Definition prop {A} (k : string) (inj : A -> JsVal) (o : option A) : Obj :=
  match o with
  | Some v => [(k, inj v)]
  | None => []
  end.

(** The own properties of a room object (the order of keys is fixed here; no
    property of the program depends on it). *)
Definition props (r : Room.t) : Obj :=
  ([("id", JNum (Room.id r)); ("name", JStr (Room.name r));
    ("status", JStr (Room.status r))]
   ++ prop "bookedBy" JStr (Room.bookedBy r)
   ++ prop "purpose" JStr (Room.purpose r)
   ++ prop "endTime" JNum (Room.endTime r)
   ++ prop "bookingCode" JStr (Room.bookingCode r))%list.

(** [const { bookingCode, ...rest } = room]. *)
Definition rest_without (k : string) (o : Obj) : Obj :=
  List.filter (fun kv => negb (String.eqb (fst kv) k)) o.

(** [sanitizeRoom]; a falsy argument ([None]) is returned as it is. *)
Definition sanitizeRoom (room : option Room.t) : option Obj :=
  match room with
  | None => None
  | Some r => Some (rest_without "bookingCode" (props r))
  end.

(** The process state: the content of [rooms.json], the number of
    [writeRooms] calls made so far, the [autoReleaseTimers] map, the timers
    of the runtime that have not fired or been cleared, and the next fresh
    timer handle. *)
Record Timer : Type := mkTimer {
  handle : nat;
  roomOf : Z;
  fireAt : Z
}.

Record World : Type := mkWorld {
  file : option (list Room.t);
  writes : nat;
  autoReleaseTimers : gmap Z nat;
  pending : list Timer;
  nextHandle : nat
}.

Definition readRooms (w : World) : list Room.t := default [] (file w).

Definition writeRooms (rooms : list Room.t) (w : World) : World :=
  mkWorld (Some rooms) (S (writes w)) (autoReleaseTimers w) (pending w)
          (nextHandle w).

(** [r.endTime] is truthy. *)
Definition has_endTime (r : Room.t) : bool :=
  match Room.endTime r with
  | Some e => negb (e =? 0)
  | None => false
  end.

(** [r.endTime && now >= r.endTime]. *)
Definition due (now : Z) (r : Room.t) : bool :=
  match Room.endTime r with
  | Some e => negb (e =? 0) && (e <=? now)
  | None => false
  end.

(** The five statements that free a room: status back to Available and the
    four booking properties deleted. *)
Definition make_available (r : Room.t) : Room.t :=
  Room.mk (Room.id r) (Room.name r) "Available" None None None None.

(** The loop of [expireRoomsIfNeeded]: the rooms after it and the [changed]
    flag. *)
Fixpoint expire_loop (now : Z) (rooms : list Room.t) : list Room.t * bool :=
  match rooms with
  | [] => ([], false)
  | r :: rest =>
      let '(rest', changed) := expire_loop now rest in
      if due now r then (make_available r :: rest', true)
      else (r :: rest', changed)
  end.

Definition expireRoomsIfNeeded (now : Z) (rooms : list Room.t) (w : World)
  : list Room.t * World :=
  let '(rooms', changed) := expire_loop now rooms in
  (rooms', if changed then writeRooms rooms' w else w).

(** [rooms.find((x) => x.id === roomId)] with the index of the room found, so
    that the caller's assignments to it can be written back. *)
Fixpoint find_room (roomId : Z) (rooms : list Room.t) : option (nat * Room.t) :=
  match rooms with
  | [] => None
  | r :: rest =>
      if Room.id r =? roomId then Some (O, r)
      else (fun ir => (S (fst ir), snd ir)) <$> find_room roomId rest
  end.

(** The same with an id that may be [NaN] or an infinity, which equal no
    room id. *)
Definition find_param (id : Number) (rooms : list Room.t)
  : option (nat * Room.t) :=
  match id with
  | Finite z => find_room z rooms
  | _ => None
  end.

Definition occupied (r : Room.t) : bool := String.eqb (Room.status r) "Occupied".

(* ===================================================================== *)
(** * src/server.js: the proactive expiry timers *)
(* ===================================================================== *)

Definition TIMEOUT_MAX : Z := 2147483647.

(** Node's [setTimeout(cb, delay)]: a delay below 1 or above [TIMEOUT_MAX] is
    replaced by 1.  The timer is set for [now + delay]. *)
Definition setTimeout (roomId : Z) (delay now : Z) (w : World) : nat * World :=
  let after := if (1 <=? delay) && (delay <=? TIMEOUT_MAX) then delay else 1 in
  let h := nextHandle w in
  (h, mkWorld (file w) (writes w) (autoReleaseTimers w)
        (pending w ++ [mkTimer h roomId (now + after)])%list (S h)).

Definition clearTimeout (h : nat) (w : World) : World :=
  mkWorld (file w) (writes w) (autoReleaseTimers w)
          (List.filter (fun t => negb (Nat.eqb (handle t) h)) (pending w))
          (nextHandle w).

Definition with_timers (m : gmap Z nat) (w : World) : World :=
  mkWorld (file w) (writes w) m (pending w) (nextHandle w).

(** [if (autoReleaseTimers.has(id)) { clearTimeout(...get(id));
    autoReleaseTimers.delete(id); }] *)
Definition cancel_timer (roomId : Z) (w : World) : World :=
  match autoReleaseTimers w !! roomId with
  | Some h => with_timers (delete roomId (autoReleaseTimers w)) (clearTimeout h w)
  | None => w
  end.

(** [scheduleAutoRelease].  The delay [r.endTime - Date.now()] is kept
    exact: rounding it to a Number changes neither its sign nor whether it
    is above [TIMEOUT_MAX], and no delay that [setTimeout] honours. *)
Definition scheduleAutoRelease (now : Z) (roomId : Z) (w : World) : World :=
  let w1 := cancel_timer roomId w in
  let rooms := readRooms w1 in
  match find_room roomId rooms with
  | None => w1
  | Some (i, r) =>
      if negb (occupied r) || negb (has_endTime r) then w1
      else
        let delay := default 0 (Room.endTime r) - now in
        if delay <=? 0 then writeRooms (<[i := make_available r]> rooms) w1
        else
          let '(h, w2) := setTimeout roomId delay now w1 in
          with_timers (<[roomId := h]> (autoReleaseTimers w2)) w2
  end.

(** The callback [scheduleAutoRelease] hands to [setTimeout]; [now] is the
    [Date.now()] of the callback and [now'] the one of the nested
    [scheduleAutoRelease]. *)
Definition timer_callback (now now' : Z) (roomId : Z) (w : World) : World :=
  let currentRooms := readRooms w in
  let w1 :=
    match find_room roomId currentRooms with
    | Some (i, current) =>
        if occupied current && has_endTime current then
          if default 0 (Room.endTime current) <=? now
          then writeRooms (<[i := make_available current]> currentRooms) w
          else scheduleAutoRelease now' roomId w
        else w
    | None => w
    end in
  with_timers (delete roomId (autoReleaseTimers w1)) w1.

Definition find_timer (h : nat) (w : World) : option Timer :=
  List.find (fun t => Nat.eqb (handle t) h) (pending w).

(** The runtime fires the pending timer [h]: it leaves the pending list and
    its callback runs.  The runtime keeps its own clock: nothing relates the
    [Date.now()] of the callback to the time the timer was set for. *)
Definition fire (h : nat) (now now' : Z) (w : World) : option World :=
  match find_timer h w with
  | Some t => Some (timer_callback now now' (roomOf t) (clearTimeout h w))
  | None => None
  end.

(** The block run once at server start: a timer for every room that is
    occupied in the file as first read; [clock i] is the [Date.now()] of the
    [i]-th call of [scheduleAutoRelease]. *)
Fixpoint startup_loop (clock : nat -> Z) (i : nat) (rooms : list Room.t)
    (w : World) : World :=
  match rooms with
  | [] => w
  | r :: rest =>
      if occupied r && has_endTime r
      then startup_loop clock (S i) rest (scheduleAutoRelease (clock i) (Room.id r) w)
      else startup_loop clock i rest w
  end.

Definition startup (clock : nat -> Z) (w : World) : World :=
  startup_loop clock O (readRooms w) w.

(** The state of a process that has just loaded [server.js]. *)
Definition boot (f : option (list Room.t)) : World := mkWorld f O ∅ [] O.

(* ===================================================================== *)
(** * src/server.js: the request handlers *)
(* ===================================================================== *)

(** The JSON bodies the handlers send. *)
Inductive Body : Type :=
  | Message (message : string)
  | OneRoom (room : option Obj)
  | RoomList (rooms : list Obj)
  | Booked (message : string) (room : option Obj) (bookingCode : string)
  | MessageRoom (message : string) (room : option Obj).

Record Response : Type := mkResponse {
  statusCode : nat;
  body : Body
}.

Definition error (code : nat) (message : string) : Response :=
  mkResponse code (Message message).

Definition ok (b : Body) : Response := mkResponse 200 b.

(** The room objects a body shows. *)
Definition shown_rooms (b : Body) : list Obj :=
  match b with
  | Message _ => []
  | OneRoom r | Booked _ r _ | MessageRoom _ r => option_list r
  | RoomList rs => rs
  end.

(** What [getBaseUrl] reads of a request, and the environment of the
    process. *)
Record Request : Type := mkRequest {
  x_forwarded_proto : option string;
  protocol : string;
  x_forwarded_host : option string;
  host : option string
}.

Record Env : Type := mkEnv {
  PUBLIC_URL : option string;
  toDataURL : string -> option string
}.

Definition getBaseUrl (env : Env) (req : Request) : string :=
  let proto := default (protocol req) (or_else (x_forwarded_proto req) None) in
  let hst := default "undefined" (or_else (x_forwarded_host req) (host req)) in
  default (proto ++ "://" ++ hst)%string (or_else (PUBLIC_URL env) None).

(** One entry of the public list: [{ ...sanitizeRoom(r), qr }], or [None]
    when [QRCode.toDataURL] rejects. *)
Definition public_room (env : Env) (base : string) (r : Room.t) : option Obj :=
  let qrUrl := (base ++ "/room/" ++ number_toString (Room.id r))%string in
  match toDataURL env qrUrl with
  | Some qr => Some (default [] (sanitizeRoom (Some r)) ++ [("qr", JStr qr)])%list
  | None => None
  end.

(** GET /api/rooms *)
Definition get_rooms (env : Env) (req : Request) (now : Z) (w : World)
  : World * Response :=
  let '(rooms, w1) := expireRoomsIfNeeded now (readRooms w) w in
  let base := getBaseUrl env req in
  match mapM (public_room env base) rooms with
  | Some publicRooms => (w1, ok (RoomList publicRooms))
  | None => (w1, error 500 "Failed to load rooms")
  end.

(** POST /api/book.  [t_expire], [t_book] and [t_timer] are the three
    [Date.now()] readings, in the order the handler makes them. *)
Definition post_book (roomId studentName purpose duration : JsVal)
    (random : Bytes4) (t_expire t_book t_timer : Z) (w : World)
  : World * Response :=
  match parseInt roomId, parseInt duration with
  | Finite roomId, Finite duration =>
      if duration <=? 0 then (w, error 400 "Invalid roomId or duration")
      else
        match nonblank studentName, nonblank purpose with
        | Some studentName, Some purpose =>
            let '(rooms, w1) := expireRoomsIfNeeded t_expire (readRooms w) w in
            match find_room roomId rooms with
            | None => (w1, error 404 "Room not found")
            | Some (i, room) =>
                if occupied room then (w1, error 400 "Room already booked")
                else
                  let endTime :=
                    js_add (Finite t_book) (milliseconds (Finite duration)) in
                  let bookingCode := toString_hex (buffer_of random) in
                  let room' :=
                    Room.mk (Room.id room) (Room.name room) "Occupied"
                      (Some studentName) (Some purpose) (json_number endTime)
                      (Some bookingCode) in
                  let w2 := writeRooms (<[i := room']> rooms) w1 in
                  let w3 := scheduleAutoRelease t_timer roomId w2 in
                  (w3, ok (Booked "Room booked successfully! Save your booking code."
                             (sanitizeRoom (Some room')) bookingCode))
            end
        | _, _ => (w, error 400 "Invalid studentName or purpose")
        end
  | _, _ => (w, error 400 "Invalid roomId or duration")
  end.

(** GET /api/room/:id *)
Definition get_room (id : string) (now : Z) (w : World) : World * Response :=
  let id := parseInt_string id in
  let '(rooms, w1) := expireRoomsIfNeeded now (readRooms w) w in
  match find_param id rooms with
  | None => (w1, error 404 "Room not found")
  | Some (_, room) => (w1, ok (OneRoom (sanitizeRoom (Some room))))
  end.

(** [room.bookingCode !== bookingCode] is false: the stored property and the
    value of the request are the same string. *)
Definition same_code (stored : option string) (supplied : JsVal) : bool :=
  match stored, supplied with
  | Some a, JStr b => String.eqb a b
  | None, JUndefined => true
  | _, _ => false
  end.

(** POST /api/room/:id/release *)
Definition post_release (id : string) (bookingCode : JsVal) (w : World)
  : World * Response :=
  let id := parseInt_string id in
  if negb (truthy bookingCode) then (w, error 400 "bookingCode required")
  else
    let rooms := readRooms w in
    match find_param id rooms with
    | None => (w, error 404 "Room not found")
    | Some (i, room) =>
        if negb (occupied room) then (w, error 400 "Room is not occupied")
        else if negb (same_code (Room.bookingCode room) bookingCode)
        then (w, error 403 "Invalid booking code")
        else
          let room' := make_available room in
          let w1 := writeRooms (<[i := room']> rooms) w in
          (* the room found has the id of the request *)
          let w2 := cancel_timer (Room.id room) w1 in
          (w2, ok (MessageRoom "Room released successfully"
                     (sanitizeRoom (Some room'))))
    end.

(** POST /api/room/:id/extend.  [t_expire] and [t_timer] are its two
    [Date.now()] readings. *)
Definition post_extend (id : string) (bookingCode extraMinutes : JsVal)
    (t_expire t_timer : Z) (w : World) : World * Response :=
  let id := parseInt_string id in
  let extraMinutes := parseInt extraMinutes in
  if negb (truthy bookingCode) then (w, error 400 "bookingCode required")
  else
    match extraMinutes with
    | Finite extraMinutes =>
        if extraMinutes <=? 0
        then (w, error 400 "extraMinutes must be a positive integer")
        else
          let '(rooms, w1) := expireRoomsIfNeeded t_expire (readRooms w) w in
          match find_param id rooms with
          | None => (w1, error 404 "Room not found")
          | Some (i, room) =>
              if negb (occupied room) || negb (has_endTime room)
              then (w1, error 400 "Room is not currently occupied")
              else if negb (same_code (Room.bookingCode room) bookingCode)
              then (w1, error 403 "Invalid booking code")
              else
                let endTime :=
                  js_add (Finite (default 0 (Room.endTime room)))
                         (milliseconds (Finite extraMinutes)) in
                let room' :=
                  Room.mk (Room.id room) (Room.name room) (Room.status room)
                    (Room.bookedBy room) (Room.purpose room)
                    (json_number endTime) (Room.bookingCode room) in
                let w2 := writeRooms (<[i := room']> rooms) w1 in
                (* the room found has the id of the request *)
                let w3 := scheduleAutoRelease t_timer (Room.id room) w2 in
                (w3, ok (MessageRoom
                           ("Extended by " ++ number_toString extraMinutes ++ " minutes")%string
                           (sanitizeRoom (Some room'))))
          end
    | _ => (w, error 400 "extraMinutes must be a positive integer")
    end.

(** What can happen to a running server: a request arrives or a timer
    fires. *)
Inductive Event : Type :=
  | GetRooms (req : Request) (now : Z)
  | GetRoom (id : string) (now : Z)
  | Book (roomId studentName purpose duration : JsVal) (random : Bytes4)
         (t_expire t_book t_timer : Z)
  | Release (id : string) (bookingCode : JsVal)
  | Extend (id : string) (bookingCode extraMinutes : JsVal) (t_expire t_timer : Z)
  | Fire (h : nat) (now now' : Z).

(** The server handles one event: the new state and the response sent, if
    the event is a request.  [None] when the event cannot happen (the timer
    is not pending). *)
Definition serve (env : Env) (w : World) (e : Event)
  : option (World * option Response) :=
  let reply (r : World * Response) := Some (fst r, Some (snd r)) in
  match e with
  | GetRooms req now => reply (get_rooms env req now w)
  | GetRoom id now => reply (get_room id now w)
  | Book r s p d rnd t1 t2 t3 => reply (post_book r s p d rnd t1 t2 t3 w)
  | Release id c => reply (post_release id c w)
  | Extend id c m t1 t2 => reply (post_extend id c m t1 t2 w)
  | Fire h now now' => (fun w' => (w', None)) <$> fire h now now' w
  end.

Definition step (env : Env) (w : World) (e : Event) : option World :=
  fst <$> serve env w e.

Fixpoint run (env : Env) (w : World) (es : list Event) : option World :=
  match es with
  | [] => Some w
  | e :: rest =>
      match step env w e with
      | Some w' => run env w' rest
      | None => None
      end
  end.

(** The pending timers of a room. *)
Definition timers_of (roomId : Z) (w : World) : list Timer :=
  List.filter (fun t => roomOf t =? roomId) (pending w).

(** The pattern [^[a-f0-9]{8}$] that the booking code is said to match. *)
Definition lower_hex (c : ascii) : bool :=
  let n := N_of_ascii c in
  ((48 <=? n) && (n <=? 57) || (97 <=? n) && (n <=? 102))%N.


(* ===================================================================== *)
(** * src/frontend/manage.js *)
(* ===================================================================== *)

(** [int]: [parseInt(val, 10)], with anything not finite turned into [NaN]. *)
Definition int (val : string) : Number :=
  let n := parseInt_string val in
  if isFinite n then n else NaN.

(** [isValidCode]: the test of [/^[a-f0-9]{8}$/i]. *)
Definition hex_any_case (c : ascii) : bool :=
  let n := N_of_ascii c in
  ((48 <=? n) && (n <=? 57) || (97 <=? n) && (n <=? 102)
   || (65 <=? n) && (n <=? 70))%N.

Definition isValidCode (code : string) : bool :=
  Nat.eqb (String.length code) 8 && forallb hex_any_case (list_ascii_of_string code).

(** [!n] on a Number: zero and [NaN] are falsy. *)
Definition falsy_number (n : Number) : bool :=
  match n with
  | Finite z => z =? 0
  | NaN => true
  | Infinity | NegInfinity => false
  end.

(** The value [JSON.stringify] puts in a body for a Number. *)
Definition json_of (n : Number) : JsVal :=
  match json_number n with
  | Some z => JNum z
  | None => JNull
  end.

(** What a click on a button of the manage page leads to: a message shown
    at once, or a POST to the API with a path and a body. *)
Inductive Click : Type :=
  | Shown (msg : string)
  | Post (path : string) (bookingCode : JsVal) (extraMinutes : JsVal).

(** [extendBooking] up to its [apiPost] call, on the texts of the three
    inputs. *)
Definition extendBooking (roomIdInput bookingCodeInput extraMinutesInput : string)
  : Click :=
  let roomId := int roomIdInput in
  let bookingCode := trim bookingCodeInput in
  let extraMinutes := int extraMinutesInput in
  if falsy_number roomId then Shown "Please enter a valid Room ID."
  else if String.eqb bookingCode EmptyString || negb (isValidCode bookingCode)
  then Shown "Please enter a valid 8-character booking code."
  else if falsy_number extraMinutes || le_zero extraMinutes
  then Shown "Please enter minutes to extend (positive number)."
  else Post ("/room/" ++ Number_toString roomId ++ "/extend")%string
            (JStr bookingCode) (json_of extraMinutes).

(** [releaseBooking] up to its [apiPost] call; [confirmed] is the answer to
    the [confirm] dialog ([None] of the result: nothing happens). *)
Definition releaseBooking (roomIdInput bookingCodeInput : string) (confirmed : bool)
  : option Click :=
  let roomId := int roomIdInput in
  let bookingCode := trim bookingCodeInput in
  if falsy_number roomId then Some (Shown "Please enter a valid Room ID.")
  else if String.eqb bookingCode EmptyString || negb (isValidCode bookingCode)
  then Some (Shown "Please enter a valid 8-character booking code.")
  else if negb confirmed then None
  else Some (Post ("/room/" ++ Number_toString roomId ++ "/release")%string
                  (JStr bookingCode) JUndefined).

(** The express route [/api/room/:id/extend] applied to the path that
    [apiPost] appends to the API base: the [:id] segment. *)
Fixpoint until_slash (s : string) : string :=
  match s with
  | EmptyString => EmptyString
  | String c rest => if Ascii.eqb c "/" then EmptyString else String c (until_slash rest)
  end.

Definition route_id (path : string) : string :=
  until_slash (String.substring 6 (String.length path - 6) path).

(** A text without a slash, such as a printed number. *)
Definition no_slash (s : string) : bool :=
  forallb (fun c => negb (Ascii.eqb c "/")) (list_ascii_of_string s).

(* ===================================================================== *)
(** * The room list script (frontend/script.js) *)
(* ===================================================================== *)

(** [s.replace(/c/g, by)] for a one-character pattern. *)
Fixpoint replace_all (c : ascii) (by_ : string) (s : string) : string :=
  match s with
  | EmptyString => EmptyString
  | String x rest =>
      if Ascii.eqb x c then (by_ ++ replace_all c by_ rest)%string
      else String x (replace_all c by_ rest)
  end.

Definition double_quote : ascii := ascii_of_N 34.

(** [escapeHTML]; an absent argument is the empty string. *)
Definition escapeHTML (s : JsVal) : string :=
  let s := match s with JUndefined => EmptyString | _ => toString s end in
  replace_all "'" "&#39;"
    (replace_all double_quote "&quot;"
      (replace_all ">" "&gt;"
        (replace_all "<" "&lt;"
          (replace_all "&" "&amp;" s)))).

(** The entity that stands for a character in escaped text; other characters
    stand for themselves. *)
Definition escape_char (c : ascii) : string :=
  if Ascii.eqb c "&" then "&amp;"
  else if Ascii.eqb c "<" then "&lt;"
  else if Ascii.eqb c ">" then "&gt;"
  else if Ascii.eqb c double_quote then "&quot;"
  else if Ascii.eqb c "'" then "&#39;"
  else String c EmptyString.

(** Every character replaced by its entity, in one pass. *)
Fixpoint escape_each (s : string) : string :=
  match s with
  | EmptyString => EmptyString
  | String c rest => (escape_char c ++ escape_each rest)%string
  end.

(** The characters that open or close a tag or an attribute value. *)
Definition markup_char (c : ascii) : bool :=
  Ascii.eqb c "<" || Ascii.eqb c ">" || Ascii.eqb c double_quote || Ascii.eqb c "'".

Fixpoint repeat_char (c : ascii) (n : nat) : string :=
  match n with
  | O => EmptyString
  | S n' => String c (repeat_char c n')
  end.

(** [s.padStart(n, c)] with a one-character filler. *)
Definition padStart (n : nat) (c : ascii) (s : string) : string :=
  (repeat_char c (n - String.length s) ++ s)%string.

(** The text [update] of [startCountdown] puts in the timer element when
    [diff = endTimeMs - Date.now()], for a difference within the safe
    integers, where [Math.floor(diff / 1000)] is the integer quotient. *)
Definition countdown_text (diff : Z) : string :=
  if diff <=? 0 then "Available"
  else
    let totalSec := diff / 1000 in
    let hrs := totalSec / 3600 in
    let mins := (totalSec mod 3600) / 60 in
    let secs := totalSec mod 60 in
    if 0 <? hrs
    then (number_toString hrs ++ "h " ++ padStart 2 "0" (number_toString mins)
          ++ "m " ++ padStart 2 "0" (number_toString secs) ++ "s")%string
    else (number_toString mins ++ "m " ++ padStart 2 "0" (number_toString secs)
          ++ "s")%string.

(* ===================================================================== *)
(** * Predicates used to state the properties *)
(* ===================================================================== *)

(** Strict co-presence: Occupied exactly when the four booking properties are
    all there, Available exactly when none is.  A property is there when it
    has a value: an end time written as [null] is not, for this predicate as
    for the program. *)
Definition copresent (r : Room.t) : Prop :=
  (Room.status r = "Occupied" <->
     is_Some (Room.bookedBy r) /\ is_Some (Room.purpose r) /\
     is_Some (Room.endTime r) /\ is_Some (Room.bookingCode r))
  /\
  (Room.status r = "Available" <->
     Room.bookedBy r = None /\ Room.purpose r = None /\
     Room.endTime r = None /\ Room.bookingCode r = None).

Definition store_copresent (w : World) : Prop := Forall copresent (readRooms w).

(** An object that has no [bookingCode] property. *)
Definition hides_code (o : Obj) : Prop := ~ In "bookingCode" (keys o).

(** The room with another (or no) booking code. *)
Definition with_code (c : option string) (r : Room.t) : Room.t :=
  Room.mk (Room.id r) (Room.name r) (Room.status r) (Room.bookedBy r)
          (Room.purpose r) (Room.endTime r) c.

(** The room with another end time. *)
Definition with_endTime (e : option Z) (r : Room.t) : Room.t :=
  Room.mk (Room.id r) (Room.name r) (Room.status r) (Room.bookedBy r)
          (Room.purpose r) e (Room.bookingCode r).

(** The room as [POST /api/book] leaves it; [e] is what is written for its
    end time. *)
Definition booked (r : Room.t) (who why : string) (e : option Z) (code : string)
  : Room.t :=
  Room.mk (Room.id r) (Room.name r) "Occupied" (Some who) (Some why) e (Some code).

(** A text that is an integer numeral: an optional sign and then digits
    only. *)
Definition all_digits (s : string) : bool :=
  negb (String.eqb s EmptyString)
  && forallb (fun c => bool_decide (is_Some (digit_of c))) (list_ascii_of_string s).

Definition integer_text (s : string) : bool :=
  match s with
  | String "-" rest | String "+" rest => all_digits rest
  | _ => all_digits s
  end.

(** A request value that is an integer. *)
Definition is_integer (v : JsVal) : bool :=
  match v with
  | JNum _ => true
  | JStr s => integer_text s
  | _ => false
  end.

(** Every pending timer is the one [autoReleaseTimers] records for its room;
    no two pending timers share a handle; the handles in use are below the
    next fresh one; and no handle is recorded for two rooms. *)
Definition tracked (w : World) : Prop :=
  (forall t, In t (pending w) -> autoReleaseTimers w !! roomOf t = Some (handle t))
  /\ NoDup (map handle (pending w))
  /\ (forall t, In t (pending w) -> (handle t < nextHandle w)%nat)
  /\ (forall roomId h, autoReleaseTimers w !! roomId = Some h -> (h < nextHandle w)%nat)
  /\ (forall roomId roomId' h,
        autoReleaseTimers w !! roomId = Some h ->
        autoReleaseTimers w !! roomId' = Some h -> roomId = roomId').

(** The callback of a timer of room [roomId] that runs at [now] takes its
    "extended while waiting" branch: the room is occupied and its end time
    is still ahead. *)
Definition reschedules (now : Z) (roomId : Z) (w : World) : bool :=
  match find_room roomId (readRooms w) with
  | Some (_, r) =>
      occupied r && has_endTime r && negb (default 0 (Room.endTime r) <=? now)
  | None => false
  end.

(** No pending timer is due before the end of the booking it watches. *)
Definition synced (w : World) : Prop :=
  forall t i r e,
    In t (pending w) ->
    find_room (roomOf t) (readRooms w) = Some (i, r) ->
    occupied r = true -> has_endTime r = true -> Room.endTime r = Some e ->
    e <= fireAt t.

(** The same for the timers of the rooms other than [roomId]. *)
Definition synced_but (roomId : Z) (w : World) : Prop :=
  forall t i r e,
    In t (pending w) -> roomOf t <> roomId ->
    find_room (roomOf t) (readRooms w) = Some (i, r) ->
    occupied r = true -> has_endTime r = true -> Room.endTime r = Some e ->
    e <= fireAt t.

(** The event sets no timer further ahead than [TIMEOUT_MAX]. *)
Definition timely (w : World) (ev : Event) : Prop :=
  match ev with
  | Book _ _ _ duration _ _ t_book t_timer =>
      forall d e, parseInt duration = Finite d ->
        js_add (Finite t_book) (milliseconds (Finite d)) = Finite e ->
        e - t_timer <= TIMEOUT_MAX
  | Extend id _ extraMinutes _ t_timer =>
      forall k i r e e',
        parseInt extraMinutes = Finite k ->
        find_param (parseInt_string id) (readRooms w) = Some (i, r) ->
        Room.endTime r = Some e ->
        js_add (Finite e) (milliseconds (Finite k)) = Finite e' ->
        e' - t_timer <= TIMEOUT_MAX
  | _ => True
  end.

(** The callback of a timer runs when the clock has reached the time the
    timer was set for. *)
Definition punctual (w : World) (ev : Event) : Prop :=
  match ev with
  | Fire h now _ => forall t, find_timer h w = Some t -> fireAt t <= now
  | _ => True
  end.

(** The end time the event computes is a finite Number. *)
Definition ends_finite (w : World) (ev : Event) : Prop :=
  match ev with
  | Book _ _ _ duration _ _ t_book _ =>
      forall d, parseInt duration = Finite d ->
        isFinite (js_add (Finite t_book) (milliseconds (Finite d))) = true
  | Extend id _ extraMinutes _ _ =>
      forall k i r e,
        parseInt extraMinutes = Finite k ->
        find_param (parseInt_string id) (readRooms w) = Some (i, r) ->
        Room.endTime r = Some e ->
        isFinite (js_add (Finite e) (milliseconds (Finite k))) = true
  | _ => True
  end.

(** [P] holds of every event of a run, in the state the event happens in. *)
Fixpoint along (P : World -> Event -> Prop) (env : Env) (w : World)
    (es : list Event) : Prop :=
  match es with
  | [] => True
  | e :: rest =>
      P w e
      /\ match step env w e with
         | Some w' => along P env w' rest
         | None => True
         end
  end.

Definition timely_run : Env -> World -> list Event -> Prop := along timely.

Definition punctual_run : Env -> World -> list Event -> Prop := along punctual.

Definition finite_run : Env -> World -> list Event -> Prop := along ends_finite.

(** The end times of the file are Numbers. *)
Definition stores_numbers (w : World) : Prop :=
  forall r e, In r (readRooms w) -> Room.endTime r = Some e -> double_of e = Finite e.

(** No booking found at server start ends further ahead than
    [TIMEOUT_MAX]. *)
Definition timely_startup (clock : nat -> Z) (w : World) : Prop :=
  forall r e n,
    In r (readRooms w) -> Room.endTime r = Some e -> e - clock n <= TIMEOUT_MAX.

(** [rooms'] is [rooms] with some rooms made Available. *)
Definition only_freed (rooms rooms' : list Room.t) : Prop :=
  forall i,
    rooms' !! i = rooms !! i
    \/ exists r, rooms !! i = Some r /\ rooms' !! i = Some (make_available r).

(** Only occupied rooms have an end time. *)
Definition ends_only_if_occupied (w : World) : Prop :=
  forall r, In r (readRooms w) -> is_Some (Room.endTime r) -> occupied r = true.

(** The clock did not go back between the readings of the event. *)
Definition clock_forward (ev : Event) : Prop :=
  match ev with
  | Book _ _ _ _ _ t_expire t_book _ => t_expire <= t_book
  | _ => True
  end.

(* ===================================================================== *)
(** * Sample data *)
(* ===================================================================== *)

Definition room_A : Room.t :=
  Room.mk 1 "Room A" "Available" None None None None.

Definition room_B : Room.t :=
  Room.mk 2 "Room B" "Occupied" (Some "Ada") (Some "Study") (Some 1000)
          (Some "0aff009c").

(** A server started at time 500 on a file with an Available and an Occupied
    room: the booking of room 2 ends at 1000 and its timer is pending. *)
Definition sample_world : World :=
  startup (fun _ => 500) (boot (Some [room_A; room_B])).

Definition sample_env : Env :=
  mkEnv None (fun url => Some ("data:image/png;base64," ++ url)%string).

Definition sample_request : Request :=
  mkRequest None "http" None (Some "localhost:5000").

Definition sample_random : Bytes4 := (x0a, xff, x00, x9c).

(** A number of minutes of 305 digits, 10^304: a finite Number whose
    milliseconds are not. *)
Definition overlong_minutes : string := String "1" (repeat_char "0" 304).

(** The sample server after room 1 has been booked for that long: the room
    is Occupied and its end time was written as [null]. *)
Definition endless_world : World :=
  fst (post_book (JNum 1) (JStr "Ada") (JStr "Study") (JStr overlong_minutes)
         sample_random 600 600 600 sample_world).

(** A day in the life of the sample server: room 1 is booked for 30 minutes
    and extended by 10, the rooms are listed when the booking of room 2 has
    lapsed, the timer of room 2 fires, and room 1 is released. *)
Definition sample_events : list Event :=
  [Book (JNum 1) (JStr "Ada") (JStr "Study") (JNum 30) sample_random 600 600 600;
   Extend "1" (JStr "0aff009c") (JNum 10) 700 700;
   GetRooms sample_request 1000;
   Fire 0 1000 1000;
   Release "1" (JStr "0aff009c")].
(* ===================================================================== *)
(** * Numbers and their decimal text *)
(* ===================================================================== *)

#[global] Arguments double_of : simpl never.
#[global] Arguments js_add : simpl never.
#[global] Arguments js_mul : simpl never.
#[global] Arguments milliseconds : simpl never.
#[global] Arguments number_toString : simpl never.

Section Doubles.

Lemma double_of_small z : Z.abs z < 2 ^ 53 -> double_of z = Finite z.
Proof.
  intros H. unfold double_of. destruct (Z.ltb_spec (Z.abs z) (2 ^ 53)); [reflexivity|lia].
Qed.

(** The parts of a magnitude of at least [2^53]: it lies between two
    consecutive multiples of its unit, and the quotient has 53 bits. *)
Lemma double_parts a :
  2 ^ 53 <= a ->
  let unit := 2 ^ (Z.log2 a - 52) in
  0 < unit /\ 2 ^ 52 <= a / unit < 2 ^ 53
  /\ a = a / unit * unit + a mod unit /\ 0 <= a mod unit < unit
  /\ 2 ^ 52 * unit = 2 ^ Z.log2 a.
Proof.
  intros Ha unit.
  assert (Hlog : 53 <= Z.log2 a) by (apply Z.log2_le_pow2; lia).
  assert (Hu : 0 < unit) by (apply Z.pow_pos_nonneg; lia).
  assert (Hspec := Z.log2_spec a ltac:(lia)).
  assert (Hsplit : 2 ^ 52 * unit = 2 ^ Z.log2 a).
  { unfold unit. rewrite <- Z.pow_add_r by lia. f_equal. lia. }
  assert (Hsucc : 2 ^ 53 * unit = 2 ^ Z.succ (Z.log2 a)).
  { unfold unit. rewrite <- Z.pow_add_r by lia. f_equal. lia. }
  pose proof (Z.div_mod a unit ltac:(lia)) as Hdm.
  pose proof (Z.mod_pos_bound a unit Hu) as Hm.
  split; [exact Hu|]. split.
  - split.
    + apply Z.div_le_lower_bound; lia.
    + apply Z.div_lt_upper_bound; lia.
  - split; [lia|]. split; [exact Hm|exact Hsplit].
Qed.

(** What [double_of] returns beyond [2^53]: one of the two multiples of the
    unit around the magnitude, the magnitude itself when it is a multiple. *)
Lemma double_of_big z :
  2 ^ 53 <= Z.abs z ->
  let unit := 2 ^ (Z.log2 (Z.abs z) - 52) in
  let q := Z.abs z / unit in
  exists m,
    (m = q \/ m = q + 1) /\ (Z.abs z mod unit = 0 -> m = q)
    /\ double_of z
       = if 2 ^ 1024 <=? m * unit
         then (if z <? 0 then NegInfinity else Infinity)
         else Finite (Z.sgn z * (m * unit)).
Proof.
  intros Hz unit q. unfold double_of.
  destruct (Z.ltb_spec (Z.abs z) (2 ^ 53)); [lia|].
  fold unit. fold q.
  set (r := Z.abs z mod unit).
  destruct (Z.ltb_spec (2 * r) unit).
  - exists q. auto.
  - destruct (Z.ltb_spec unit (2 * r)).
    + exists (q + 1). split; [auto|]. split; [|reflexivity].
      intros Hr. pose proof (double_parts _ Hz) as (Hu & _). fold unit in Hu. lia.
    + destruct (Z.even q).
      * exists q. auto.
      * exists (q + 1). split; [auto|]. split; [|reflexivity].
        intros Hr. pose proof (double_parts _ Hz) as (Hu & _). fold unit in Hu. lia.
Qed.

Lemma double_of_opp z : double_of (- z) = negate (double_of z).
Proof.
  unfold double_of. rewrite Z.abs_opp.
  destruct (Z.abs z <? 2 ^ 53) eqn:E; [reflexivity|].
  apply Z.ltb_ge in E.
  assert (z <> 0) by lia.
  rewrite Z.sgn_opp.
  destruct (2 ^ 1024 <=? _).
  - destruct (Z.ltb_spec (- z) 0), (Z.ltb_spec z 0); try reflexivity; lia.
  - simpl. f_equal. lia.
Qed.

(** A Number at most [y] is at most the Number nearest to [y], for
    magnitudes that are not negative. *)
Lemma double_of_above a y b :
  0 <= a <= y -> double_of a = Finite a -> double_of y = Finite b -> a <= b.
Proof.
  intros [Ha Hay] Hda Hy.
  destruct (Z.lt_ge_cases (Z.abs y) (2 ^ 53)) as [Hsmall|Hbig].
  { rewrite double_of_small in Hy by exact Hsmall. injection Hy as <-. exact Hay. }
  assert (Hy0 : Z.abs y = y) by lia. assert (Hsy : Z.sgn y = 1) by lia.
  destruct (double_of_big y Hbig) as (m & Hm & _ & E). rewrite Hy0, Hsy in *.
  rewrite Hy in E. destruct (2 ^ 1024 <=? _); [destruct (y <? 0); discriminate E|].
  injection E as ->.
  destruct (double_parts y Hbig) as (Hu & Hq & Hdm & Hr & Hpow).
  set (unit := 2 ^ (Z.log2 y - 52)) in *.
  assert (Hfloor : 2 ^ Z.log2 y <= y / unit * unit) by nia.
  assert (Hb : y / unit * unit <= 1 * (m * unit)) by nia.
  destruct (Z.lt_ge_cases a (2 ^ 53)) as [Hasmall|Habig].
  { assert (2 ^ 53 <= 2 ^ Z.log2 y); [|lia].
    apply Z.pow_le_mono_r; [lia|]. apply Z.log2_le_pow2; lia. }
  assert (Ha0 : Z.abs a = a) by lia. assert (Hsa : Z.sgn a = 1) by lia.
  destruct (double_of_big a ltac:(lia)) as (ma & Hma & _ & Ea).
  rewrite Ha0, Hsa, Hda in Ea.
  destruct (2 ^ 1024 <=? _); [destruct (a <? 0); discriminate Ea|].
  injection Ea as Ea.
  destruct (Z.lt_ge_cases (Z.log2 a) (Z.log2 y)) as [Hlt|Hge].
  - (* fewer bits than [y] *)
    pose proof (Z.log2_spec a ltac:(lia)) as [_ Hup].
    assert (2 ^ Z.succ (Z.log2 a) <= 2 ^ Z.log2 y)
      by (apply Z.pow_le_mono_r; lia).
    lia.
  - (* as many bits as [y]: the same unit *)
    assert (Hlog : Z.log2 a = Z.log2 y)
      by (pose proof (Z.log2_le_mono a y ltac:(lia)); lia).
    rewrite Hlog in Ea. fold unit in Ea.
    assert (ma <= y / unit).
    { apply Z.div_le_lower_bound; [lia|]. lia. }
    nia.
Qed.

(** A Number at least [y] is at least the Number nearest to [y], for
    magnitudes that are not negative. *)
Lemma double_of_below a y b :
  0 <= y <= a -> double_of a = Finite a -> double_of y = Finite b -> b <= a.
Proof.
  intros [Hy0' Hya] Hda Hy.
  destruct (Z.lt_ge_cases (Z.abs y) (2 ^ 53)) as [Hsmall|Hbig].
  { rewrite double_of_small in Hy by exact Hsmall. injection Hy as <-. exact Hya. }
  assert (Hy0 : Z.abs y = y) by lia. assert (Hsy : Z.sgn y = 1) by lia.
  destruct (double_of_big y Hbig) as (m & Hm & Hexact & E). rewrite Hy0, Hsy in *.
  rewrite Hy in E. destruct (2 ^ 1024 <=? _); [destruct (y <? 0); discriminate E|].
  injection E as ->.
  destruct (double_parts y Hbig) as (Hu & Hq & Hdm & Hr & Hpow).
  set (unit := 2 ^ (Z.log2 y - 52)) in *.
  assert (Ha0 : Z.abs a = a) by lia. assert (Hsa : Z.sgn a = 1) by lia.
  destruct (double_of_big a ltac:(lia)) as (ma & Hma & _ & Ea).
  rewrite Ha0, Hsa, Hda in Ea.
  destruct (2 ^ 1024 <=? _); [destruct (a <? 0); discriminate Ea|].
  injection Ea as Ea.
  destruct (Z.lt_ge_cases (Z.log2 y) (Z.log2 a)) as [Hlt|Hge].
  - (* fewer bits than [a] *)
    pose proof (Z.log2_spec a ltac:(lia)) as [Hlow _].
    assert (2 ^ Z.succ (Z.log2 y) <= 2 ^ Z.log2 a)
      by (apply Z.pow_le_mono_r; lia).
    assert (Hsucc : 2 ^ Z.succ (Z.log2 y) = 2 * 2 ^ Z.log2 y)
      by (apply Z.pow_succ_r, Z.log2_nonneg).
    assert (Hle : m <= 2 ^ 53) by lia.
    apply (Z.mul_le_mono_nonneg_r _ _ unit) in Hle; [|lia].
    change (2 ^ 53) with (2 * 2 ^ 52) in Hle. lia.
  - (* as many bits as [a]: the same unit *)
    assert (Hlog : Z.log2 a = Z.log2 y)
      by (pose proof (Z.log2_le_mono y a ltac:(lia)); lia).
    rewrite Hlog in Ea. fold unit in Ea.
    destruct (Z.eq_dec (y mod unit) 0) as [Hz|Hnz].
    + rewrite (Hexact Hz). nia.
    + assert (Hne : y <> a).
      { intros ->. apply Hnz. rewrite Ea, Z.mul_1_l. apply Z.mod_mul. lia. }
      assert (y / unit < ma).
      { apply Z.div_lt_upper_bound; [lia|]. lia. }
      nia.
Qed.

Lemma double_of_nonneg y b : 0 <= y -> double_of y = Finite b -> 0 <= b.
Proof.
  intros Hy H. apply (double_of_above 0 y b); [lia|reflexivity|exact H].
Qed.

(** [double_of] is monotone at the Numbers: a Number below [y] stays below
    what [y] is rounded to. *)
Lemma double_of_lower_bound a y b :
  a <= y -> double_of a = Finite a -> double_of y = Finite b -> a <= b.
Proof.
  intros Hay Ha Hy.
  destruct (Z.le_gt_cases 0 a) as [Hpos|Hneg].
  { apply (double_of_above a y b); auto. }
  destruct (Z.le_gt_cases 0 y) as [Hypos|Hyneg].
  { pose proof (double_of_nonneg y b Hypos Hy). lia. }
  assert (- b <= - a); [|lia].
  apply (double_of_below (- a) (- y) (- b)); [lia| |].
  - rewrite double_of_opp, Ha. reflexivity.
  - rewrite double_of_opp, Hy. reflexivity.
Qed.

(** Sums and products within the safe integers are exact. *)
Lemma js_add_exact a b :
  Z.abs (a + b) <= MAX_SAFE_INTEGER -> js_add (Finite a) (Finite b) = Finite (a + b).
Proof.
  unfold MAX_SAFE_INTEGER. intros H. unfold js_add. apply double_of_small. lia.
Qed.

Lemma milliseconds_exact k :
  0 <= k -> k * 60000 <= MAX_SAFE_INTEGER ->
  milliseconds (Finite k) = Finite (k * 60000).
Proof.
  unfold MAX_SAFE_INTEGER. intros Hk H. unfold milliseconds, js_mul.
  rewrite double_of_small by lia.
  rewrite double_of_small by lia. f_equal. lia.
Qed.

(** A positive number of minutes is a positive number of milliseconds, at
    least a minute's worth, or an infinity. *)
Lemma milliseconds_positive k x :
  0 < k -> milliseconds (Finite k) = Finite x -> 60000 <= x.
Proof.
  intros Hk. unfold milliseconds. unfold js_mul at 2.
  destruct (double_of (k * 60)) as [v| | |] eqn:E; try discriminate.
  - intros H.
    assert (60 <= v) by (apply (double_of_above 60 (k * 60) v); [lia|reflexivity|exact E]).
    apply (double_of_above 60000 (v * 1000) x); [lia|reflexivity|exact H].
Qed.

End Doubles.

Section Numerals.

Lemma digit_cases (d : Z) :
  0 <= d < 10 ->
  d = 0 \/ d = 1 \/ d = 2 \/ d = 3 \/ d = 4 \/ d = 5 \/ d = 6 \/ d = 7 \/ d = 8 \/ d = 9.
Proof. lia. Qed.

Lemma digit_of_digit_char d : 0 <= d < 10 -> digit_of (digit_char d) = Some d.
Proof.
  intros H. destruct (digit_cases d H) as [E|[E|[E|[E|[E|[E|[E|[E|[E|E]]]]]]]]];
    subst d; reflexivity.
Qed.

Lemma digit_char_plain d :
  0 <= d < 10 ->
  is_space (digit_char d) = false
  /\ Ascii.eqb (digit_char d) "-" = false /\ Ascii.eqb (digit_char d) "+" = false.
Proof.
  intros H. destruct (digit_cases d H) as [E|[E|[E|[E|[E|[E|[E|[E|[E|E]]]]]]]]];
    subst d; repeat split; reflexivity.
Qed.

(** With enough fuel, reading back the digits written in front of [acc]
    continues from the number written. *)
Lemma parse_digits_digits_of fuel :
  forall n acc, 0 <= n < 2 ^ Z.of_nat (S fuel) ->
    parse_digits (digits_of (S fuel) n acc) None = parse_digits acc (Some n).
Proof.
  induction fuel as [|f IH]; intros n acc Hn;
    (assert (Hd : 0 <= n mod 10 < 10) by (apply Z.mod_pos_bound; lia));
    (assert (Hq : n = 10 * (n / 10) + n mod 10) by (apply Z.div_mod; lia));
    (assert (Hq0 : 0 <= n / 10) by (apply Z.div_pos; lia)).
  - assert (E : n / 10 = 0) by (apply Z.div_small; simpl in Hn; lia).
    cbn [digits_of]. rewrite E. cbn [Z.eqb parse_digits].
    rewrite digit_of_digit_char by exact Hd. simpl default. do 2 f_equal. lia.
  - change (digits_of (S (S f)) n acc)
      with (let acc' := String (digit_char (n mod 10)) acc in
            if n / 10 =? 0 then acc' else digits_of (S f) (n / 10) acc').
    cbv zeta. destruct (Z.eqb_spec (n / 10) 0) as [E|E].
    + cbn [parse_digits]. rewrite digit_of_digit_char by exact Hd.
      simpl default. do 2 f_equal. lia.
    + rewrite IH.
      * cbn [parse_digits]. rewrite digit_of_digit_char by exact Hd.
        simpl default. do 2 f_equal. lia.
      * split; [exact Hq0|].
        rewrite (Nat2Z.inj_succ (S f)), Z.pow_succ_r in Hn by lia.
        apply Z.div_lt_upper_bound; lia.
Qed.

Lemma digits_of_head f n acc :
  0 <= n -> exists d rest, 0 <= d < 10 /\ digits_of (S f) n acc = String (digit_char d) rest.
Proof.
  revert n acc. induction f as [|f IH]; intros n acc Hn.
  - cbn [digits_of]. exists (n mod 10). eexists. split.
    + apply Z.mod_pos_bound; lia.
    + destruct (n / 10 =? 0); reflexivity.
  - change (digits_of (S (S f)) n acc)
      with (let acc' := String (digit_char (n mod 10)) acc in
            if n / 10 =? 0 then acc' else digits_of (S f) (n / 10) acc').
    cbv zeta. destruct (n / 10 =? 0).
    + exists (n mod 10). eexists. split; [apply Z.mod_pos_bound; lia|reflexivity].
    + apply IH. apply Z.div_pos; lia.
Qed.

Lemma enough_fuel a : 0 <= a -> 0 <= a < 2 ^ Z.of_nat (S (Z.to_nat (Z.log2 a))).
Proof.
  intros Ha. split; [exact Ha|].
  rewrite Nat2Z.inj_succ, Z2Nat.id by apply Z.log2_nonneg.
  destruct (Z.eq_dec a 0) as [->|Hnz]; [reflexivity|].
  apply Z.log2_spec. lia.
Qed.

(** [parseInt(String(n), 10)] is [n] for a safe integer [n]. *)
Lemma parseInt_number_toString n :
  Z.abs n <= MAX_SAFE_INTEGER -> parseInt_string (number_toString n) = Finite n.
Proof.
  unfold MAX_SAFE_INTEGER. intros Hsafe.
  unfold number_toString, parseInt_string, decimal.
  destruct (Z.ltb_spec (Z.abs n) (2 ^ 53)) as [_|]; [|lia].
  assert (Hfuel := enough_fuel (Z.abs n) (Z.abs_nonneg n)).
  destruct (Z.ltb_spec n 0) as [Hneg|Hpos].
  - cbn [trimStart]. change (is_space "-") with false. cbv iota.
    rewrite parse_digits_digits_of by exact Hfuel. simpl.
    replace (- Z.abs n) with n by lia. apply double_of_small. lia.
  - destruct (digits_of_head (Z.to_nat (Z.log2 (Z.abs n))) (Z.abs n) EmptyString
                (Z.abs_nonneg n)) as (d & rest & Hd & E).
    pose proof (parse_digits_digits_of _ (Z.abs n) EmptyString Hfuel) as P.
    rewrite E in *. destruct (digit_char_plain d Hd) as (Hs & Hm & Hp).
    cbn [trimStart]. rewrite Hs.
    destruct (digit_char d) as [b0 b1 b2 b3 b4 b5 b6 b7] eqn:Ec.
    assert (Hgoal : number_of (parse_digits (String (Ascii b0 b1 b2 b3 b4 b5 b6 b7) rest)
                                 None) = Finite n).
    { rewrite P. simpl. replace (Z.abs n) with n by lia. apply double_of_small. lia. }
    destruct b0, b1, b2, b3, b4, b5, b6, b7; try exact Hgoal;
      simpl in Hm, Hp; discriminate.
Qed.

Lemma parseInt_JNum n :
  Z.abs n <= MAX_SAFE_INTEGER -> parseInt (JNum n) = Finite n.
Proof.
  intros H. unfold parseInt, toString.
  rewrite double_of_small by (unfold MAX_SAFE_INTEGER in H; lia).
  now apply parseInt_number_toString.
Qed.

End Numerals.
(* ===================================================================== *)
(** * The room store and lazy expiry *)
(* ===================================================================== *)

Section Store.

Implicit Types (r : Room.t) (rooms : list Room.t) (w : World) (now : Z).

Lemma find_room_Some roomId rooms i r :
  find_room roomId rooms = Some (i, r) ->
  rooms !! i = Some r /\ Room.id r = roomId.
Proof.
  revert i. induction rooms as [|x rest IH]; intros i; simpl; [discriminate|].
  destruct (Z.eqb_spec (Room.id x) roomId) as [E|E].
  - intros [= <- <-]. auto.
  - destruct (find_room roomId rest) as [[j y]|]; simpl; [|discriminate].
    intros [= <- <-]. apply (IH j eq_refl).
Qed.

(** Changing the room found, but not its id, does not move it. *)
Lemma find_room_insert roomId rooms i r r' :
  find_room roomId rooms = Some (i, r) -> Room.id r' = roomId ->
  find_room roomId (<[i := r']> rooms) = Some (i, r').
Proof.
  revert i. induction rooms as [|x rest IH]; intros i; simpl; [discriminate|].
  destruct (Z.eqb_spec (Room.id x) roomId) as [E|E].
  - intros [= <- <-] Hid. simpl. now rewrite Hid, Z.eqb_refl.
  - destruct (find_room roomId rest) as [[j y]|] eqn:F; simpl; [|discriminate].
    intros [= <- <-] Hid. simpl.
    destruct (Z.eqb_spec (Room.id x) roomId); [contradiction|].
    now rewrite (IH j eq_refl Hid).
Qed.

Lemma expire_loop_fst now rooms :
  fst (expire_loop now rooms)
  = map (fun r => if due now r then make_available r else r) rooms.
Proof.
  induction rooms as [|r rest IH]; simpl; [reflexivity|].
  destruct (expire_loop now rest) as [rest' ch]; simpl in *.
  destruct (due now r); simpl; now rewrite IH.
Qed.

Lemma expire_loop_snd now rooms :
  snd (expire_loop now rooms) = existsb (due now) rooms.
Proof.
  induction rooms as [|r rest IH]; simpl; [reflexivity|].
  destruct (expire_loop now rest) as [rest' ch]; simpl in *.
  destruct (due now r); simpl; auto.
Qed.

Lemma expire_loop_unchanged now rooms :
  existsb (due now) rooms = false -> expire_loop now rooms = (rooms, false).
Proof.
  induction rooms as [|r rest IH]; simpl; [reflexivity|].
  intros H. apply orb_false_iff in H as [Hr Hrest].
  now rewrite (IH Hrest), Hr.
Qed.

Lemma expire_loop_settled now rooms :
  existsb (due now) (fst (expire_loop now rooms)) = false.
Proof.
  rewrite expire_loop_fst. induction rooms as [|r rest IH]; simpl; [reflexivity|].
  rewrite IH, orb_false_r. destruct (due now r) eqn:D; [reflexivity | exact D].
Qed.

Lemma find_room_expired now roomId rooms :
  find_room roomId (fst (expire_loop now rooms))
  = (fun ir => (fst ir, if due now (snd ir) then make_available (snd ir) else snd ir))
      <$> find_room roomId rooms.
Proof.
  rewrite expire_loop_fst.
  induction rooms as [|x rest IH]; simpl; [reflexivity|].
  assert (Hid : Room.id (if due now x then make_available x else x) = Room.id x)
    by (destruct (due now x); reflexivity).
  rewrite Hid. destruct (Room.id x =? roomId); [reflexivity|].
  rewrite IH. destruct (find_room roomId rest) as [[j y]|]; reflexivity.
Qed.

Lemma expireRoomsIfNeeded_rooms now rooms w :
  fst (expireRoomsIfNeeded now rooms w) = fst (expire_loop now rooms).
Proof. unfold expireRoomsIfNeeded. now destruct (expire_loop now rooms). Qed.

Lemma expireRoomsIfNeeded_timers now rooms w :
  let w' := snd (expireRoomsIfNeeded now rooms w) in
  autoReleaseTimers w' = autoReleaseTimers w /\ pending w' = pending w
  /\ nextHandle w' = nextHandle w.
Proof.
  unfold expireRoomsIfNeeded. destruct (expire_loop now rooms) as [rs [|]]; simpl; auto.
Qed.

(** After the lazy expiry of what was read from the file, the file holds the
    rooms the handler goes on with. *)
Lemma expireRoomsIfNeeded_file now w :
  readRooms (snd (expireRoomsIfNeeded now (readRooms w) w))
  = fst (expireRoomsIfNeeded now (readRooms w) w).
Proof.
  unfold expireRoomsIfNeeded.
  destruct (expire_loop now (readRooms w)) as [rs ch] eqn:E.
  destruct ch; simpl; [reflexivity|].
  pose proof (expire_loop_snd now (readRooms w)) as Hs. rewrite E in Hs. simpl in Hs.
  symmetry in Hs. apply expire_loop_unchanged in Hs. congruence.
Qed.

End Store.

(* ===================================================================== *)
(** * Co-presence of the booking properties *)
(* ===================================================================== *)

Section Copresence.

Implicit Types (r : Room.t) (rooms : list Room.t) (w : World).

Lemma occupied_status r : occupied r = true <-> Room.status r = "Occupied".
Proof. unfold occupied. apply String.eqb_eq. Qed.

Lemma copresent_make_available r : copresent (make_available r).
Proof.
  split; simpl; split; try discriminate; auto.
  intros (H & _). destruct H; discriminate.
Qed.

Lemma copresent_booked r who why e code :
  copresent (booked r who why (Some e) code).
Proof.
  split; simpl; split; try discriminate; eauto.
  intros (H & _); discriminate.
Qed.

Lemma copresent_extended r e :
  copresent r -> occupied r = true -> copresent (with_endTime (Some e) r).
Proof.
  intros [Ho Ha] Hocc%occupied_status. split; simpl.
  - split; [|intros _; assumption].
    intros _. destruct Ho as [Ho _]. destruct (Ho Hocc) as (? & ? & ? & ?). eauto.
  - rewrite Hocc. split; [discriminate|]. intros (_ & _ & ? & _); discriminate.
Qed.

Lemma copresent_expire_loop now rooms :
  Forall copresent rooms -> Forall copresent (fst (expire_loop now rooms)).
Proof.
  rewrite expire_loop_fst. intros H. apply Forall_map. simpl.
  eapply Forall_impl; [exact H|]. intros r Hr. simpl.
  destruct (due now r); auto using copresent_make_available.
Qed.

Lemma store_copresent_expire now w :
  store_copresent w ->
  Forall copresent (fst (expireRoomsIfNeeded now (readRooms w) w))
  /\ store_copresent (snd (expireRoomsIfNeeded now (readRooms w) w)).
Proof.
  intros H. unfold store_copresent. rewrite expireRoomsIfNeeded_file.
  rewrite expireRoomsIfNeeded_rooms. split; now apply copresent_expire_loop.
Qed.

Lemma store_copresent_cancel roomId w :
  store_copresent w -> store_copresent (cancel_timer roomId w).
Proof.
  unfold cancel_timer. destruct (autoReleaseTimers w !! roomId); auto.
Qed.

Lemma store_copresent_schedule now roomId w :
  store_copresent w -> store_copresent (scheduleAutoRelease now roomId w).
Proof.
  intros H%(store_copresent_cancel roomId). unfold scheduleAutoRelease.
  set (w1 := cancel_timer roomId w) in *.
  destruct (find_room roomId (readRooms w1)) as [[i r]|] eqn:F; [|exact H].
  destruct (negb (occupied r) || negb (has_endTime r)); [exact H|].
  destruct (_ <=? 0).
  - red. simpl. apply Forall_insert; [exact H|apply copresent_make_available].
  - exact H.
Qed.

Lemma store_copresent_callback now now' roomId w :
  store_copresent w -> store_copresent (timer_callback now now' roomId w).
Proof.
  intros H. unfold timer_callback.
  destruct (find_room roomId (readRooms w)) as [[i r]|]; [|exact H].
  destruct (occupied r && has_endTime r); [|exact H].
  destruct (_ <=? now).
  - red. simpl. apply Forall_insert; [exact H|apply copresent_make_available].
  - now apply (store_copresent_schedule now' roomId) in H.
Qed.

Lemma store_copresent_startup clock w :
  store_copresent w -> store_copresent (startup clock w).
Proof.
  unfold startup. generalize (readRooms w) as todo. generalize O as i.
  intros i todo. revert i w.
  induction todo as [|r rest IH]; intros i w H; simpl; [exact H|].
  destruct (occupied r && has_endTime r); apply IH; auto using store_copresent_schedule.
Qed.

End Copresence.

(* ===================================================================== *)
(** * What the handlers do to the store *)
(* ===================================================================== *)

Section Handlers.

Implicit Types (r : Room.t) (rooms : list Room.t) (w : World).

Lemma cancel_timer_store roomId w :
  file (cancel_timer roomId w) = file w /\ writes (cancel_timer roomId w) = writes w.
Proof. unfold cancel_timer. destruct (autoReleaseTimers w !! roomId); auto. Qed.

Lemma readRooms_cancel_timer roomId w :
  readRooms (cancel_timer roomId w) = readRooms w.
Proof. unfold readRooms. now rewrite (proj1 (cancel_timer_store roomId w)). Qed.


Lemma toString_hex_length buf :
  String.length (toString_hex buf) = (2 * length buf)%nat.
Proof. induction buf as [|b rest IH]; simpl; [reflexivity|]. rewrite IH. lia. Qed.

Lemma hex_digit_lower n : (n < 16)%N -> lower_hex (hex_digit n) = true.
Proof.
  intros H. unfold hex_digit.
  assert (Hc : In n (map N.of_nat (seq 0 16))).
  { replace n with (N.of_nat (N.to_nat n)) by lia. apply in_map, in_seq. lia. }
  simpl in Hc. intuition (subst; reflexivity).
Qed.

Lemma toString_hex_lower buf :
  forallb lower_hex (list_ascii_of_string (toString_hex buf)) = true.
Proof.
  induction buf as [|b rest IH]; simpl; [reflexivity|].
  rewrite IH, !hex_digit_lower; [reflexivity| |].
  - apply N.mod_lt. discriminate.
  - apply N.Div0.div_lt_upper_bound. pose proof (Byte.to_N_bounded b). lia.
Qed.


(** The accepting path of [POST /api/book], spelled out. *)
Lemma post_book_accept roomId studentName purpose duration random
    t_expire t_book t_timer w rid d who why i r :
  parseInt roomId = Finite rid -> parseInt duration = Finite d -> 0 < d ->
  nonblank studentName = Some who -> nonblank purpose = Some why ->
  find_room rid (fst (expire_loop t_expire (readRooms w))) = Some (i, r) ->
  occupied r = false ->
  let code := toString_hex (buffer_of random) in
  let endTime := js_add (Finite t_book) (milliseconds (Finite d)) in
  let r' := booked r who why (json_number endTime) code in
  let w1 := snd (expireRoomsIfNeeded t_expire (readRooms w) w) in
  post_book roomId studentName purpose duration random t_expire t_book t_timer w
  = (scheduleAutoRelease t_timer rid
       (writeRooms (<[i := r']> (fst (expire_loop t_expire (readRooms w)))) w1),
     ok (Booked "Room booked successfully! Save your booking code."
           (sanitizeRoom (Some r')) code)).
Proof.
  intros Hr Hd Hpos Hn Hp F Hocc. unfold post_book.
  rewrite Hr, Hd, Hn, Hp. destruct (Z.leb_spec d 0); [lia|].
  simpl. unfold expireRoomsIfNeeded.
  destruct (expire_loop t_expire (readRooms w)) as [rs ch]. simpl in *.
  now rewrite F, Hocc.
Qed.


(** A room that is not due is where it was after the lazy expiry. *)
Lemma find_room_not_due now roomId rooms i r :
  find_room roomId rooms = Some (i, r) -> due now r = false ->
  find_room roomId (fst (expire_loop now rooms)) = Some (i, r).
Proof. intros F D. rewrite find_room_expired, F. simpl. now rewrite D. Qed.

End Handlers.

Section Lifecycle.

Implicit Types (r : Room.t) (rooms : list Room.t) (w : World).




End Lifecycle.

Section Codes.

Lemma hex_digit_inj m n :
  (m < 16)%N -> (n < 16)%N -> hex_digit m = hex_digit n -> m = n.
Proof.
  intros Hm Hn H.
  assert (Hc : forall k, (k < 16)%N -> In k (map N.of_nat (seq 0 16))).
  { intros k Hk. replace k with (N.of_nat (N.to_nat k)) by lia.
    apply in_map, in_seq. lia. }
  pose proof (Hc m Hm) as Cm. pose proof (Hc n Hn) as Cn. simpl in Cm, Cn.
  assert (E : N_of_ascii (hex_digit m) = N_of_ascii (hex_digit n)) by now rewrite H.
  clear H Hc.
  repeat (destruct Cm as [<-|Cm]; [repeat (destruct Cn as [<-|Cn];
    [first [reflexivity | discriminate E]|]); destruct Cn|]); destruct Cm.
Qed.

Lemma byte_of_nibbles a b :
  (Byte.to_N a / 16 = Byte.to_N b / 16)%N ->
  (Byte.to_N a mod 16 = Byte.to_N b mod 16)%N -> a = b.
Proof.
  intros Hq Hr.
  assert (E : Byte.to_N a = Byte.to_N b).
  { rewrite (N.div_mod (Byte.to_N a) 16), (N.div_mod (Byte.to_N b) 16) by discriminate.
    now rewrite Hq, Hr. }
  pose proof (Byte.of_to_N a) as Ha. rewrite E, Byte.of_to_N in Ha. congruence.
Qed.

Lemma nibble_bounds b :
  (Byte.to_N b / 16 < 16)%N /\ (Byte.to_N b mod 16 < 16)%N.
Proof.
  split.
  - apply N.Div0.div_lt_upper_bound. pose proof (Byte.to_N_bounded b). lia.
  - apply N.mod_lt. discriminate.
Qed.

Lemma toString_hex_inj (b1 b2 : list byte) :
  length b1 = length b2 -> toString_hex b1 = toString_hex b2 -> b1 = b2.
Proof.
  revert b2. induction b1 as [|x xs IH]; intros [|y ys]; simpl; try discriminate.
  - reflexivity.
  - intros [= Hlen] [= Hq Hr Hrest].
    destruct (nibble_bounds x) as [Hx1 Hx2]. destruct (nibble_bounds y) as [Hy1 Hy2].
    apply hex_digit_inj in Hq; [|assumption..].
    apply hex_digit_inj in Hr; [|assumption..].
    f_equal; [now apply byte_of_nibbles | now apply IH].
Qed.

Lemma lower_hex_any_case c : lower_hex c = true -> hex_any_case c = true.
Proof.
  unfold lower_hex, hex_any_case. intros H.
  apply orb_true_iff in H as [H|H]; rewrite H; [reflexivity|].
  now rewrite orb_true_r.
Qed.


End Codes.


(* ===================================================================== *)
(** * The claims of the specification *)
(* ===================================================================== *)

#[global] Instance copresent_dec (r : Room.t) : Decision (copresent r).
Proof. unfold copresent. apply _. Defined.

#[global] Instance store_copresent_dec (w : World) : Decision (store_copresent w).
Proof. unfold store_copresent. apply _. Defined.

(** C1 (fails for release): room 2 of the sample server is Occupied in the
    file and its booking lapsed at 1000.  At time 2000, with the timer not yet
    fired, extend sees the expiry and answers that the room is not currently
    occupied, but release, whose read of the store is not followed by the
    lazy expiry, answers Forbidden to a wrong code and succeeds with the
    stale code. *)
Theorem C1_release_skips_lazy_expiry :
  due 2000 room_B = true
  /\ find_room 2 (readRooms sample_world) = Some (1%nat, room_B)
  /\ snd (post_extend "2" (JStr "0aff009c") (JNum 5) 2000 2000 sample_world)
     = error 400 "Room is not currently occupied"
  /\ snd (post_release "2" (JStr "ffffffff") sample_world)
     = error 403 "Invalid booking code"
  /\ statusCode (snd (post_release "2" (JStr "0aff009c") sample_world)) = 200%nat.
Proof. repeat split; vm_compute; reflexivity. Qed.

(** A run of events, step by step: the property of each event is left as a
    goal and the state after it is computed. *)
Ltac step_through env :=
  repeat match goal with
  | |- along _ _ _ [] => exact I
  | |- along ?P _ ?w (?e :: ?rest) =>
      let w1 := fresh "w" in
      let S := fresh "S" in
      change (P w e /\ match step env w e with
                       | Some w' => along P env w' rest
                       | None => True
                       end);
      split;
      [ | destruct (step env w e) as [w1|] eqn:S; [|exact I];
          vm_compute in S; injection S as <- ]
  end.

Section FiniteEnds.

Implicit Types (r : Room.t) (w : World).

Lemma find_param_Some id rooms i r :
  find_param id rooms = Some (i, r) ->
  exists roomId, id = Finite roomId /\ find_room roomId rooms = Some (i, r).
Proof. destruct id as [z| | |]; [eauto|discriminate..]. Qed.

(** The room an extend request goes on with, after the lazy expiry, is the
    room of the file. *)
Lemma live_room_found id now w i r :
  find_param id (fst (expire_loop now (readRooms w))) = Some (i, r) ->
  occupied r = true ->
  find_param id (readRooms w) = Some (i, r) /\ due now r = false.
Proof.
  intros F Hocc. apply find_param_Some in F as (rid & -> & F). simpl.
  rewrite find_room_expired in F.
  destruct (find_room rid (readRooms w)) as [[j r0]|]; [|discriminate F].
  simpl in F. injection F as <- <-.
  destruct (due now r0) eqn:D; [discriminate Hocc|]. auto.
Qed.

Lemma finite_json n : isFinite n = true -> exists e, json_number n = Some e.
Proof. destruct n; try discriminate. eauto. Qed.

Lemma step_copresent env w e w' :
  store_copresent w -> ends_finite w e -> step env w e = Some w' ->
  store_copresent w'.
Proof.
  intros H Hfin. unfold step. destruct e; simpl.
  - (* GET /api/rooms *)
    intros [= <-]. unfold get_rooms.
    pose proof (store_copresent_expire now w H) as [_ H1].
    destruct (expireRoomsIfNeeded now (readRooms w) w) as [rs w1].
    destruct (mapM _ rs); exact H1.
  - (* GET /api/room/:id *)
    intros [= <-]. unfold get_room.
    pose proof (store_copresent_expire now w H) as [_ H1].
    destruct (expireRoomsIfNeeded now (readRooms w) w) as [rs w1].
    destruct (find_param _ rs) as [[? ?]|]; exact H1.
  - (* POST /api/book *)
    intros [= <-]. unfold post_book.
    destruct (parseInt roomId) as [rid| | |]; try exact H.
    destruct (parseInt duration) as [d| | |] eqn:Hd; try exact H.
    destruct (d <=? 0); [exact H|].
    destruct (nonblank studentName) as [who|]; [|exact H].
    destruct (nonblank purpose) as [why|]; [|exact H].
    pose proof (store_copresent_expire t_expire w H) as [H0 H1].
    destruct (expireRoomsIfNeeded t_expire (readRooms w) w) as [rs w1].
    destruct (find_room rid rs) as [[i r]|]; [|exact H1].
    destruct (occupied r); [exact H1|]. simpl.
    apply store_copresent_schedule. red. simpl.
    apply Forall_insert; [exact H0|].
    destruct (finite_json _ (Hfin d Hd)) as [e ->].
    apply (copresent_booked r).
  - (* POST /api/room/:id/release *)
    intros [= <-]. unfold post_release.
    destruct (negb (truthy bookingCode)); [exact H|].
    destruct (find_param _ (readRooms w)) as [[i r]|]; [|exact H].
    destruct (negb (occupied r)); [exact H|].
    destruct (negb (same_code _ _)); [exact H|]. simpl.
    apply store_copresent_cancel. red. simpl.
    apply Forall_insert; [exact H|]. apply copresent_make_available.
  - (* POST /api/room/:id/extend *)
    intros [= <-]. unfold post_extend.
    destruct (negb (truthy bookingCode)); [exact H|].
    destruct (parseInt extraMinutes) as [k| | |] eqn:Hk; try exact H.
    destruct (k <=? 0); [exact H|].
    pose proof (store_copresent_expire t_expire w H) as [H0 H1].
    pose proof (expireRoomsIfNeeded_rooms t_expire (readRooms w) w) as Hrs.
    destruct (expireRoomsIfNeeded t_expire (readRooms w) w) as [rs w1].
    simpl in Hrs. subst rs.
    destruct (find_param _ _) as [[i r]|] eqn:F; [|exact H1].
    destruct (negb (occupied r) || negb (has_endTime r)) eqn:G; [exact H1|].
    destruct (negb (same_code _ _)); [exact H1|]. simpl.
    apply orb_false_iff in G as [G Ge]. apply negb_false_iff in G.
    apply negb_false_iff in Ge.
    destruct (live_room_found _ _ _ _ _ F G) as [F0 _].
    unfold has_endTime in Ge.
    destruct (Room.endTime r) as [e|] eqn:He; [|discriminate Ge].
    simpl in Hfin. destruct (finite_json _ (Hfin k i r e Hk F0 He)) as [e' He'].
    apply store_copresent_schedule. red. simpl. rewrite He'.
    apply Forall_insert; [exact H0|].
    apply (copresent_extended r); [|exact G].
    apply find_param_Some in F as (rid & _ & F).
    apply find_room_Some in F as [F _].
    exact (Forall_lookup_1 _ _ _ _ H0 F).
  - (* a timer fires *)
    unfold fire. destruct (find_timer h w) as [t|]; [|discriminate].
    intros [= <-]. now apply store_copresent_callback.
Qed.

End FiniteEnds.

(** C2 as stated fails: a booking whose end time is beyond the largest
    finite Number is accepted (its minutes, 10^304, are read as a finite
    positive integer, their milliseconds are [Infinity]), [JSON.stringify]
    writes the end time as [null], and the room is Occupied in [rooms.json]
    with the other three booking properties and no end time. *)
Lemma C2_counterexample :
  let out := post_book (JNum 1) (JStr "Ada") (JStr "Study") (JStr overlong_minutes)
               sample_random 600 600 600 sample_world in
  store_copresent sample_world
  /\ positive_integer (parseInt (JStr overlong_minutes)) = true
  /\ milliseconds (parseInt (JStr overlong_minutes)) = Infinity
  /\ statusCode (snd out) = 200%nat
  /\ find_room 1 (readRooms (fst out))
     = Some (0%nat, Room.mk 1 "Room A" "Occupied" (Some "Ada") (Some "Study") None
                      (Some "0aff009c"))
  /\ ~ store_copresent (fst out).
Proof.
  cbv zeta. split; [|split; [|split; [|split; [|split]]]].
  - apply (bool_decide_unpack _). vm_compute. exact I.
  - vm_compute. reflexivity.
  - vm_compute. reflexivity.
  - vm_compute. reflexivity.
  - vm_compute. reflexivity.
  - intros H. apply (bool_decide_pack _) in H. vm_compute in H. exact H.
Qed.

(** C2, amended: if every room of [rooms.json] satisfies strict co-presence
    (status Occupied iff bookedBy, purpose, endTime and bookingCode are all
    present, status Available iff none is), then so does every room after the
    start of the server and after any sequence of requests (list, read, book,
    extend, release, each with its lazy expiry) and timer firings in which
    every end time computed by a booking or an extension is a finite
    Number. *)
Theorem C2_copresence_invariant env clock w es w' :
  store_copresent w ->
  finite_run env (startup clock w) es ->
  run env (startup clock w) es = Some w' ->
  store_copresent (startup clock w) /\ store_copresent w'.
Proof.
  intros H%(store_copresent_startup clock) Hfin Hrun. split; [exact H|].
  revert H Hfin Hrun. generalize (startup clock w) as w0. revert w'.
  induction es as [|e rest IH]; intros w' w0 H0 Hfin Hrun; simpl in Hrun.
  - now injection Hrun as <-.
  - destruct Hfin as [He Hrest].
    destruct (step env w0 e) as [w1|] eqn:S; [|discriminate].
    eapply IH; [|exact Hrest|exact Hrun]. eapply step_copresent; eauto.
Qed.

Lemma sample_finite_run :
  finite_run sample_env (startup (fun _ => 500) (boot (Some [room_A; room_B])))
             sample_events.
Proof.
  unfold finite_run, sample_events. step_through sample_env.
  all: cbn [ends_finite]; try exact I.
  - intros d Hd. vm_compute in Hd. injection Hd as <-. reflexivity.
  - intros k i r e Hk F He. vm_compute in Hk, F. injection Hk as <-.
    injection F as <- <-. injection He as <-. reflexivity.
Qed.

Lemma C2_copresence_invariant_witness :
  store_copresent (boot (Some [room_A; room_B]))
  /\ exists w',
      run sample_env (startup (fun _ => 500) (boot (Some [room_A; room_B])))
          sample_events = Some w'
      /\ store_copresent (startup (fun _ => 500) (boot (Some [room_A; room_B])))
      /\ store_copresent w'.
Proof.
  assert (H : store_copresent (boot (Some [room_A; room_B])))
    by (apply (bool_decide_unpack _); vm_compute; exact I).
  split; [exact H|].
  destruct (run sample_env (startup (fun _ => 500) (boot (Some [room_A; room_B])))
              sample_events) as [w'|] eqn:R; [|vm_compute in R; discriminate R].
  exists w'. split; [reflexivity|].
  exact (C2_copresence_invariant sample_env (fun _ => 500)
           (boot (Some [room_A; room_B])) sample_events w' H sample_finite_run R).
Defined.






(** C5 as stated fails, twice.  An extend request that carries a (wrong)
    booking code for an Occupied room but whose [extraMinutes] is not a
    positive integer is answered 400 by the validation that precedes the
    lookup, not 403.  And an extend request that passes validation, with a
    wrong code, for a room that is Occupied without an end time is answered
    400 "Room is not currently occupied", not 403. *)
Lemma C5_counterexample :
  ~ (forall id bookingCode extraMinutes t_expire t_timer w i r,
       truthy bookingCode = true ->
       find_param (parseInt_string id) (readRooms w) = Some (i, r) ->
       Room.status r = "Occupied" ->
       same_code (Room.bookingCode r) bookingCode = false ->
       statusCode (snd (post_extend id bookingCode extraMinutes t_expire t_timer w))
       = 403%nat)
  /\ ~ (forall id bookingCode extraMinutes t_expire t_timer w i r,
          truthy bookingCode = true ->
          positive_integer (parseInt extraMinutes) = true ->
          find_param (parseInt_string id) (readRooms w) = Some (i, r) ->
          Room.status r = "Occupied" ->
          same_code (Room.bookingCode r) bookingCode = false ->
          statusCode (snd (post_extend id bookingCode extraMinutes t_expire t_timer w))
          = 403%nat).
Proof.
  split; intros H.
  - specialize (H "2" (JStr "ffffffff") (JNum 0) 600 600 sample_world 1%nat room_B
                  eq_refl eq_refl eq_refl eq_refl).
    vm_compute in H. discriminate H.
  - specialize (H "1" (JStr "ffffffff") (JNum 5) 700 700 endless_world 0%nat
                  (Room.mk 1 "Room A" "Occupied" (Some "Ada") (Some "Study") None
                     (Some "0aff009c"))
                  eq_refl eq_refl).
    assert (F : find_param (parseInt_string "1") (readRooms endless_world)
                = Some (0%nat, Room.mk 1 "Room A" "Occupied" (Some "Ada")
                                 (Some "Study") None (Some "0aff009c")))
      by (vm_compute; reflexivity).
    specialize (H F eq_refl eq_refl).
    vm_compute in H. discriminate H.
Qed.

(** C5, amended: for a release request that carries a booking code, and for
    an extend request that carries a booking code and a positive integer
    [extraMinutes], on a room that exists, handled at time [now]: if the room
    is Occupied, its booking has not lapsed at [now] (and, for extend, it has
    an end time) and the code differs from the stored one, the answer is 403
    "Invalid booking code", never 404; if the room is not Occupied the answer
    is the 400 "not occupied" conflict, whatever the code.  What release
    answers for a booking that has lapsed is not part of the statement. *)
Theorem C5_authorization_precedence id bookingCode now w i r :
  truthy bookingCode = true ->
  find_param (parseInt_string id) (readRooms w) = Some (i, r) ->
  (occupied r = true -> due now r = false ->
   same_code (Room.bookingCode r) bookingCode = false ->
   post_release id bookingCode w = (w, error 403 "Invalid booking code"))
  /\ (occupied r = false ->
      post_release id bookingCode w = (w, error 400 "Room is not occupied"))
  /\ (forall extraMinutes t_timer,
        positive_integer (parseInt extraMinutes) = true ->
        let answer := snd (post_extend id bookingCode extraMinutes now t_timer w) in
        (occupied r = true -> due now r = false -> has_endTime r = true ->
         same_code (Room.bookingCode r) bookingCode = false ->
         answer = error 403 "Invalid booking code")
        /\ (occupied r = false ->
            answer = error 400 "Room is not currently occupied")).
Proof.
  intros Hc F. split; [|split].
  - intros Hocc _ Hdiff. unfold post_release. now rewrite Hc, F, Hocc, Hdiff.
  - intros Hocc. unfold post_release. now rewrite Hc, F, Hocc.
  - intros m t2 Hm answer.
    assert (Hans : answer
              = let r1 := if due now r then make_available r else r in
                if negb (occupied r1) || negb (has_endTime r1)
                then error 400 "Room is not currently occupied"
                else if negb (same_code (Room.bookingCode r1) bookingCode)
                then error 403 "Invalid booking code"
                else snd (post_extend id bookingCode m now t2 w)).
    { unfold answer, post_extend. rewrite Hc. simpl negb. cbv iota.
      destruct (parseInt m) as [k| | |]; try discriminate Hm. simpl in Hm.
      destruct (Z.leb_spec k 0); [lia|].
      assert (F1 : find_param (parseInt_string id)
                     (fst (expireRoomsIfNeeded now (readRooms w) w))
                   = Some (i, if due now r then make_available r else r)).
      { rewrite expireRoomsIfNeeded_rooms.
        apply find_param_Some in F as (rid & -> & F). simpl.
        now rewrite find_room_expired, F. }
      destruct (expireRoomsIfNeeded now (readRooms w) w) as [rs w1]. simpl in F1.
      rewrite F1. cbv zeta.
      destruct (negb (occupied _) || negb (has_endTime _)); [reflexivity|].
      destruct (negb (same_code _ _)); reflexivity. }
    rewrite Hans. cbv zeta. split.
    + intros Hocc Hnd Hend Hdiff. now rewrite Hnd, Hocc, Hend, Hdiff.
    + intros Hocc. destruct (due now r); [reflexivity|]. now rewrite Hocc.
Qed.

Lemma C5_authorization_precedence_witness :
  post_release "2" (JStr "ffffffff") sample_world
  = (sample_world, error 403 "Invalid booking code")
  /\ snd (post_extend "2" (JStr "ffffffff") (JNum 5) 600 600 sample_world)
     = error 403 "Invalid booking code"
  /\ snd (post_extend "1" (JStr "ffffffff") (JNum 5) 600 600 sample_world)
     = error 400 "Room is not currently occupied".
Proof.
  destruct (C5_authorization_precedence "2" (JStr "ffffffff") 600 sample_world 1%nat
              room_B eq_refl eq_refl) as (Hrel & _ & Hext).
  destruct (C5_authorization_precedence "1" (JStr "ffffffff") 600 sample_world 0%nat
              room_A eq_refl eq_refl) as (_ & _ & Hext').
  split; [apply Hrel; reflexivity|].
  split.
  - apply (Hext (JNum 5) 600); reflexivity.
  - apply (Hext' (JNum 5) 600); reflexivity.
Defined.


Section Secrecy.

Lemma rest_without_keys k o : ~ In k (keys (rest_without k o)).
Proof.
  unfold keys, rest_without. rewrite in_map_iff. intros ([k' v] & Hk & Hin).
  apply filter_In in Hin as [_ Hne]. simpl in *. subst k'.
  now rewrite String.eqb_refl in Hne.
Qed.

Lemma sanitizeRoom_hides room : Forall hides_code (option_list (sanitizeRoom room)).
Proof.
  destruct room as [r|]; [|constructor].
  constructor; [|constructor]. exact (rest_without_keys _ (props r)).
Qed.

Lemma rest_without_app k (o1 o2 : Obj) :
  rest_without k (o1 ++ o2)%list = (rest_without k o1 ++ rest_without k o2)%list.
Proof. unfold rest_without. apply List.filter_app. Qed.

Lemma sanitizeRoom_with_code c r :
  sanitizeRoom (Some (with_code c r)) = sanitizeRoom (Some (with_code None r)).
Proof.
  unfold sanitizeRoom, props. f_equal. simpl Room.bookingCode.
  rewrite !app_assoc, !(rest_without_app _ _ (prop _ _ _)). f_equal.
  destruct c; reflexivity.
Qed.

Lemma hides_code_qr (o : Obj) v :
  hides_code o -> hides_code (o ++ [("qr", v)])%list.
Proof.
  unfold hides_code, keys. rewrite List.map_app, List.in_app_iff.
  intros H [H'|[H'|[]]]; [contradiction|discriminate H'].
Qed.

Lemma public_room_hides env base r o :
  public_room env base r = Some o -> hides_code o.
Proof.
  unfold public_room. destruct (toDataURL env _) as [qr|]; [|discriminate].
  intros H. injection H as <-.
  refine (hides_code_qr _ _ (rest_without_keys "bookingCode" (props r))).
Qed.

Lemma mapM_public_room_hides env base rooms out :
  mapM (public_room env base) rooms = Some out -> Forall hides_code out.
Proof.
  intros H. apply mapM_Some_1 in H.
  induction H as [|r o rs os Hr _ IH]; constructor; [|exact IH].
  eapply public_room_hides; eauto.
Qed.

End Secrecy.

(** C6: the object [sanitizeRoom] returns has no [bookingCode] property,
    whatever the room; two rooms that differ only in their booking code have
    the same projection; and no room object in the response to any request
    (list, read, book, extend, release) has a [bookingCode] property. *)
Theorem C6_code_secrecy :
  (forall room, Forall hides_code (option_list (sanitizeRoom room)))
  /\ (forall r c1 c2,
        sanitizeRoom (Some (with_code c1 r)) = sanitizeRoom (Some (with_code c2 r)))
  /\ (forall env w e,
        match serve env w e with
        | Some (_, Some resp) => Forall hides_code (shown_rooms (body resp))
        | _ => True
        end).
Proof.
  split; [exact sanitizeRoom_hides|]. split.
  { intros r c1 c2. now rewrite (sanitizeRoom_with_code c1), (sanitizeRoom_with_code c2). }
  intros env w e. destruct e; simpl.
  - unfold get_rooms. destruct (expireRoomsIfNeeded _ _ _) as [rs w1].
    destruct (mapM _ rs) as [out|] eqn:M; simpl; [|constructor].
    eapply mapM_public_room_hides; eauto.
  - unfold get_room. destruct (expireRoomsIfNeeded _ _ _) as [rs w1].
    destruct (find_param _ rs) as [[i r]|]; simpl; [|constructor].
    apply (sanitizeRoom_hides (Some r)).
  - unfold post_book.
    destruct (parseInt roomId) as [rid| | |]; try constructor.
    destruct (parseInt duration) as [d| | |]; try constructor.
    destruct (d <=? 0); [constructor|].
    destruct (nonblank studentName) as [who|]; [|constructor].
    destruct (nonblank purpose) as [why|]; [|constructor].
    destruct (expireRoomsIfNeeded _ _ _) as [rs w1].
    destruct (find_room rid rs) as [[i r]|]; [|constructor].
    destruct (occupied r); [constructor|].
    refine (sanitizeRoom_hides (Some _)).
  - unfold post_release.
    destruct (negb (truthy bookingCode)); [constructor|].
    destruct (find_param _ _) as [[i r]|]; [|constructor].
    destruct (negb (occupied r)); [constructor|].
    destruct (negb (same_code _ _)); [constructor|].
    refine (sanitizeRoom_hides (Some _)).
  - unfold post_extend.
    destruct (negb (truthy bookingCode)); [constructor|].
    destruct (parseInt extraMinutes) as [k| | |]; try constructor.
    destruct (k <=? 0); [constructor|].
    destruct (expireRoomsIfNeeded _ _ _) as [rs w1].
    destruct (find_param _ rs) as [[i r]|]; [|constructor].
    destruct (negb (occupied r) || negb (has_endTime r)); [constructor|].
    destruct (negb (same_code _ _)); [constructor|].
    refine (sanitizeRoom_hides (Some _)).
  - destruct (fire h now now' w); exact I.
Qed.

(** C7: for any rooms and any fixed [now], running the lazy expiry a second
    time on the result of the first changes no room, finds nothing changed
    and writes nothing: rooms and process state are those after the first
    run. *)
Theorem C7_lazy_expiry_idempotent now rooms w :
  let once := expireRoomsIfNeeded now rooms w in
  expireRoomsIfNeeded now (fst once) (snd once) = once
  /\ snd (expire_loop now (fst once)) = false
  /\ writes (snd (expireRoomsIfNeeded now (fst once) (snd once))) = writes (snd once).
Proof.
  intros once.
  assert (E : expire_loop now (fst once) = (fst once, false)).
  { apply expire_loop_unchanged. unfold once.
    rewrite expireRoomsIfNeeded_rooms. apply expire_loop_settled. }
  assert (H : expireRoomsIfNeeded now (fst once) (snd once) = once).
  { unfold expireRoomsIfNeeded at 1. rewrite E. now destruct once. }
  rewrite H, E. auto.
Qed.

(** C8 (fails): ["1.5"] and ["10abc"] are not integers, yet [parseInt]
    reads them as 1 and 10 before [Number.isInteger] is asked, so a book
    request with such a duration and an extend request with such an
    [extraMinutes] are accepted and [rooms.json] is written. *)
Theorem C8_fraction_is_accepted :
  is_integer (JStr "1.5") = false /\ is_integer (JStr "10abc") = false
  /\ (let out := post_book (JNum 1) (JStr "Ada") (JStr "Study") (JStr "1.5")
                   sample_random 600 600 600 sample_world in
      statusCode (snd out) = 200%nat
      /\ writes (fst out) = S (writes sample_world)
      /\ (Room.endTime ∘ snd <$> find_room 1 (readRooms (fst out)))
         = Some (Some (600 + 1 * 60000)))
  /\ (let out := post_extend "2" (JStr "0aff009c") (JStr "1.5") 600 600 sample_world in
      statusCode (snd out) = 200%nat
      /\ writes (fst out) = S (writes sample_world)
      /\ (Room.endTime ∘ snd <$> find_room 2 (readRooms (fst out)))
         = Some (Some (1000 + 1 * 60000)))
  /\ (let out := post_extend "2" (JStr "0aff009c") (JStr "10abc") 600 600 sample_world in
      snd out
      = ok (MessageRoom "Extended by 10 minutes"
              (Some [("id", JNum 2); ("name", JStr "Room B");
                     ("status", JStr "Occupied"); ("bookedBy", JStr "Ada");
                     ("purpose", JStr "Study"); ("endTime", JNum 601000)]))).
Proof. vm_compute. repeat split; reflexivity. Qed.

(** X24: a request that fails validation changes nothing.  A book request
    whose duration, and an extend request whose [extraMinutes], is read by
    [parseInt(., 10)] as [NaN], an infinity, zero or a negative number is
    answered 400 before anything is read or written: the process state, and
    with it [rooms.json], is what it was. *)
Theorem rejected_minutes_change_nothing v :
  positive_integer (parseInt v) = false ->
  (forall roomId studentName purpose random t_expire t_book t_timer w,
     post_book roomId studentName purpose v random t_expire t_book t_timer w
     = (w, error 400 "Invalid roomId or duration"))
  /\ (forall id bookingCode t_expire t_timer w,
        let out := post_extend id bookingCode v t_expire t_timer w in
        fst out = w /\ statusCode (snd out) = 400%nat).
Proof.
  intros Hv. split.
  - intros roomId studentName purpose random t1 t2 t3 w. unfold post_book.
    destruct (parseInt roomId) as [rid| | |]; try reflexivity;
      destruct (parseInt v) as [d| | |]; try reflexivity.
    simpl in Hv. apply Z.ltb_ge in Hv.
    destruct (Z.leb_spec d 0); [reflexivity|lia].
  - intros id code t1 t2 w. unfold post_extend.
    destruct (negb (truthy code)); [split; reflexivity|].
    destruct (parseInt v) as [k| | |]; try (split; reflexivity).
    simpl in Hv. apply Z.ltb_ge in Hv.
    destruct (Z.leb_spec k 0); [split; reflexivity|lia].
Qed.

Lemma rejected_minutes_change_nothing_witness :
  positive_integer (parseInt (JStr "-5")) = false
  /\ post_book (JNum 1) (JStr "Ada") (JStr "Study") (JStr "-5") sample_random
               600 600 600 sample_world
     = (sample_world, error 400 "Invalid roomId or duration")
  /\ fst (post_extend "2" (JStr "0aff009c") (JStr "-5") 600 600 sample_world)
     = sample_world.
Proof.
  split; [reflexivity|].
  destruct (rejected_minutes_change_nothing (JStr "-5") eq_refl) as [Hb He].
  split; [apply Hb | apply He].
Defined.

(** C9 (fails): room 1 is booked for 40000 minutes, a delay above Node's
    [TIMEOUT_MAX], so its timer is due after one millisecond.  When it fires
    the booking has not lapsed and the callback reschedules; the
    [autoReleaseTimers.delete(roomId)] that ends the callback then forgets
    the timer just installed.  The next extend finds nothing to cancel and
    installs a second timer: two timers are pending for room 1. *)
Theorem C9_two_timers_for_one_room :
  exists w',
    run sample_env (startup (fun _ => 0) (boot (Some [room_A])))
      [Book (JNum 1) (JStr "Ada") (JStr "Study") (JNum 40000) sample_random 0 0 0;
       Fire 0 1 1;
       Extend "1" (JStr "0aff009c") (JNum 10) 2 2] = Some w'
    /\ map handle (timers_of 1 w') = [1%nat; 2%nat]
    /\ autoReleaseTimers w' !! 1 = Some 2%nat.
Proof. eexists. vm_compute. repeat split; reflexivity. Qed.

(** C10: when [rooms.json] cannot be read or parsed, [readRooms] is the empty
    list and no handler fails: a valid book, extend or release and a read of
    any room are answered 404 "Room not found", the list is empty, and the
    process state is unchanged. *)
Theorem C10_fail_open_reads w :
  file w = None ->
  readRooms w = []
  /\ (forall roomId name why duration random t_expire t_book t_timer,
        isInteger (parseInt roomId) = true ->
        positive_integer (parseInt duration) = true ->
        trim name <> EmptyString -> trim why <> EmptyString ->
        post_book roomId (JStr name) (JStr why) duration random
                  t_expire t_book t_timer w
        = (w, error 404 "Room not found"))
  /\ (forall id bookingCode extraMinutes t_expire t_timer,
        truthy bookingCode = true ->
        positive_integer (parseInt extraMinutes) = true ->
        post_extend id bookingCode extraMinutes t_expire t_timer w
        = (w, error 404 "Room not found"))
  /\ (forall id bookingCode,
        truthy bookingCode = true ->
        post_release id bookingCode w = (w, error 404 "Room not found"))
  /\ (forall id now, get_room id now w = (w, error 404 "Room not found"))
  /\ (forall env req now, get_rooms env req now w = (w, ok (RoomList []))).
Proof.
  intros Hf.
  assert (Hr : readRooms w = []) by (unfold readRooms; now rewrite Hf).
  assert (Hp : forall id, find_param id [] = None) by (now intros [z| | |]).
  split; [exact Hr|]. repeat split.
  - intros roomId name why duration random t1 t2 t3 Hrid Hd Hn Hy.
    unfold post_book.
    destruct (parseInt roomId) as [rid| | |]; try discriminate Hrid.
    destruct (parseInt duration) as [d| | |]; try discriminate Hd.
    simpl in Hd. apply Z.ltb_lt in Hd. destruct (Z.leb_spec d 0); [lia|].
    simpl nonblank.
    destruct (String.eqb_spec (trim name) EmptyString); [contradiction|].
    destruct (String.eqb_spec (trim why) EmptyString); [contradiction|].
    now rewrite Hr.
  - intros id code m t1 t2 Hc Hm. unfold post_extend. rewrite Hc.
    destruct (parseInt m) as [k| | |]; try discriminate Hm.
    simpl in Hm. apply Z.ltb_lt in Hm. destruct (Z.leb_spec k 0); [lia|].
    rewrite Hr. simpl. now rewrite Hp.
  - intros id code Hc. unfold post_release. now rewrite Hc, Hr, Hp.
  - intros id now. unfold get_room. rewrite Hr. simpl. now rewrite Hp.
  - intros env req now. unfold get_rooms. now rewrite Hr.
Qed.

Lemma C10_fail_open_reads_witness :
  file (boot None) = None
  /\ readRooms (boot None) = []
  /\ post_book (JNum 7) (JStr "Ada") (JStr "Study") (JNum 30) sample_random
               600 600 600 (boot None)
     = (boot None, error 404 "Room not found")
  /\ post_extend "7" (JStr "0aff009c") (JNum 5) 600 600 (boot None)
     = (boot None, error 404 "Room not found").
Proof.
  split; [reflexivity|].
  destruct (C10_fail_open_reads (boot None) eq_refl) as (Hr & Hb & He & _).
  split; [exact Hr|]. split.
  - apply Hb; [reflexivity | reflexivity | discriminate | discriminate].
  - apply He; reflexivity.
Defined.

(* ===================================================================== *)
(** * Further properties of the server *)
(* ===================================================================== *)

Section MoreStore.

Implicit Types (r : Room.t) (rooms : list Room.t) (w : World).

Lemma find_room_existsb (p : Room.t -> bool) roomId rooms i r :
  find_room roomId rooms = Some (i, r) -> p r = true -> existsb p rooms = true.
Proof.
  intros F Hp. apply find_room_Some in F as [F _].
  apply existsb_exists. exists r. split; [|exact Hp].
  apply list_elem_of_In. eapply list_elem_of_lookup_2; eauto.
Qed.

Lemma expireRoomsIfNeeded_changed now rooms w :
  existsb (due now) rooms = true ->
  expireRoomsIfNeeded now rooms w
  = (fst (expire_loop now rooms), writeRooms (fst (expire_loop now rooms)) w).
Proof.
  intros H. unfold expireRoomsIfNeeded.
  pose proof (expire_loop_snd now rooms) as Hs. rewrite H in Hs.
  destruct (expire_loop now rooms) as [rs ch]. simpl in *. now subst ch.
Qed.

Lemma expireRoomsIfNeeded_unchanged now rooms w :
  existsb (due now) rooms = false -> expireRoomsIfNeeded now rooms w = (rooms, w).
Proof.
  intros H. unfold expireRoomsIfNeeded. now rewrite (expire_loop_unchanged _ _ H).
Qed.

Lemma expire_loop_lookup now rooms i :
  fst (expire_loop now rooms) !! i
  = (fun r => if due now r then make_available r else r) <$> rooms !! i.
Proof. rewrite expire_loop_fst. apply list_lookup_fmap. Qed.

End MoreStore.

(** X1: an extend request that passes validation, for a room whose end time
    has been reached when the handler runs its lazy expiry, is answered 400
    "Room is not currently occupied" whatever code it carries; the room is
    Available in [rooms.json] afterwards, the file has been written once and
    the timers are untouched. *)
Theorem extend_after_lapse id bookingCode extraMinutes t_expire t_timer w i r :
  truthy bookingCode = true ->
  positive_integer (parseInt extraMinutes) = true ->
  find_param (parseInt_string id) (readRooms w) = Some (i, r) ->
  due t_expire r = true ->
  exists w',
    post_extend id bookingCode extraMinutes t_expire t_timer w
    = (w', error 400 "Room is not currently occupied")
    /\ readRooms w' !! i = Some (make_available r)
    /\ writes w' = S (writes w)
    /\ pending w' = pending w /\ autoReleaseTimers w' = autoReleaseTimers w.
Proof.
  intros Hc Hm F D.
  destruct (parseInt_string id) as [rid| | |] eqn:Hid; try (discriminate F). simpl in F.
  pose proof (find_room_existsb (due t_expire) _ _ _ _ F D) as Hex.
  unfold post_extend. rewrite Hc, Hid.
  destruct (parseInt extraMinutes) as [k| | |]; try (discriminate Hm). simpl in Hm.
  apply Z.ltb_lt in Hm. destruct (Z.leb_spec k 0); [lia|].
  rewrite (expireRoomsIfNeeded_changed _ _ _ Hex).
  cbn [find_param]. rewrite find_room_expired, F. cbn [fmap option_fmap option_map fst snd].
  rewrite D. cbn [occupied make_available Room.status String.eqb Ascii.eqb Bool.eqb negb orb].
  exists (writeRooms (fst (expire_loop t_expire (readRooms w))) w).
  split; [reflexivity|].
  change (readRooms (writeRooms ?x _)) with x.
  rewrite expire_loop_lookup. apply find_room_Some in F as [-> _]. simpl.
  now rewrite D.
Qed.

Lemma extend_after_lapse_witness :
  due 2000 room_B = true
  /\ exists w',
       post_extend "2" (JStr "ffffffff") (JNum 5) 2000 2000 sample_world
       = (w', error 400 "Room is not currently occupied")
       /\ readRooms w' !! 1%nat = Some (make_available room_B)
       /\ writes w' = S (writes sample_world)
       /\ pending w' = pending sample_world
       /\ autoReleaseTimers w' = autoReleaseTimers sample_world.
Proof.
  split; [reflexivity|].
  exact (extend_after_lapse "2" (JStr "ffffffff") (JNum 5) 2000 2000 sample_world
           1%nat room_B eq_refl eq_refl eq_refl eq_refl).
Defined.

(** X2: a read of a room whose end time has been reached shows it Available,
    without its booking properties, though nobody released it and whether or
    not its timer has fired; the expiry is written to [rooms.json]. *)
Theorem read_after_lapse id now w i r :
  find_param (parseInt_string id) (readRooms w) = Some (i, r) ->
  due now r = true ->
  exists w',
    get_room id now w = (w', ok (OneRoom (sanitizeRoom (Some (make_available r)))))
    /\ readRooms w' !! i = Some (make_available r)
    /\ writes w' = S (writes w).
Proof.
  intros F D.
  destruct (parseInt_string id) as [rid| | |] eqn:Hid; try (discriminate F). simpl in F.
  pose proof (find_room_existsb (due now) _ _ _ _ F D) as Hex.
  unfold get_room. rewrite Hid, (expireRoomsIfNeeded_changed _ _ _ Hex).
  cbn [find_param]. rewrite find_room_expired, F. cbn [fmap option_fmap option_map fst snd].
  rewrite D.
  exists (writeRooms (fst (expire_loop now (readRooms w))) w).
  split; [reflexivity|].
  change (readRooms (writeRooms ?x _)) with x.
  rewrite expire_loop_lookup. apply find_room_Some in F as [-> _]. simpl.
  now rewrite D.
Qed.

Lemma read_after_lapse_witness :
  exists w',
    get_room "2" 1000 sample_world
    = (w', ok (OneRoom (Some [("id", JNum 2); ("name", JStr "Room B");
                              ("status", JStr "Available")])))
    /\ readRooms w' !! 1%nat = Some (make_available room_B)
    /\ writes w' = S (writes sample_world).
Proof.
  exact (read_after_lapse "2" 1000 sample_world 1%nat room_B eq_refl eq_refl).
Defined.

(** X3: the lazy expiry at [now] leaves no room past its end time, keeps the
    number of rooms, their ids and their names, does not touch a room that is
    not due, and writes [rooms.json] exactly when some room was due. *)
Theorem lazy_expiry_effect now rooms w :
  let rooms' := fst (expireRoomsIfNeeded now rooms w) in
  let w' := snd (expireRoomsIfNeeded now rooms w) in
  Forall (fun r => due now r = false) rooms'
  /\ map Room.id rooms' = map Room.id rooms
  /\ map Room.name rooms' = map Room.name rooms
  /\ (forall i r, rooms !! i = Some r ->
        rooms' !! i = Some (if due now r then make_available r else r))
  /\ (w' = if existsb (due now) rooms then writeRooms rooms' w else w).
Proof.
  cbv zeta. rewrite expireRoomsIfNeeded_rooms. repeat split.
  - pose proof (expire_loop_settled now rooms) as H.
    apply Forall_forall. intros r Hr.
    destruct (due now r) eqn:D; [|reflexivity].
    assert (H' : existsb (due now) (fst (expire_loop now rooms)) = true)
      by (apply existsb_exists; exists r; split; [now apply list_elem_of_In|exact D]).
    congruence.
  - rewrite expire_loop_fst, List.map_map. apply List.map_ext.
    intros r. now destruct (due now r).
  - rewrite expire_loop_fst, List.map_map. apply List.map_ext.
    intros r. now destruct (due now r).
  - intros i r Hi. now rewrite expire_loop_lookup, Hi.
  - destruct (existsb (due now) rooms) eqn:E.
    + now rewrite (expireRoomsIfNeeded_changed _ _ _ E).
    + rewrite (expireRoomsIfNeeded_unchanged _ _ _ E). simpl.
      reflexivity.
Qed.

(* ===================================================================== *)
(** * One timer per room *)
(* ===================================================================== *)

Section Timers.

Implicit Types (t : Timer) (w : World) (roomId : Z).

Lemma timers_of_In roomId w t :
  In t (timers_of roomId w) <-> In t (pending w) /\ roomOf t = roomId.
Proof. unfold timers_of. rewrite filter_In, Z.eqb_eq. reflexivity. Qed.

Lemma at_most_one (l : list Timer) (p : Timer -> bool) :
  NoDup (map handle l) ->
  (forall t t', In t l -> In t' l -> p t = true -> p t' = true -> handle t = handle t') ->
  (length (List.filter p l) <= 1)%nat.
Proof.
  induction l as [|x rest IH]; intros Hnd Hsame; simpl; [lia|].
  apply NoDup_cons in Hnd as [Hx Hnd].
  assert (IH' := IH Hnd ltac:(intros; apply Hsame; simpl; auto)).
  destruct (p x) eqn:Px; [|exact IH'].
  assert (E : List.filter p rest = []).
  { destruct (List.filter p rest) as [|y ys] eqn:Ey; [reflexivity|exfalso].
    assert (Hy : In y (List.filter p rest)) by (rewrite Ey; left; reflexivity).
    apply filter_In in Hy as [Hin Py]. apply Hx.
    rewrite (Hsame x y); simpl; auto.
    apply list_elem_of_In, in_map, Hin. }
  rewrite E. simpl. lia.
Qed.

(** When every pending timer is the recorded one, a room has at most one. *)
Lemma tracked_at_most_one w roomId :
  tracked w -> (length (timers_of roomId w) <= 1)%nat.
Proof.
  intros (Hrec & Hnd & _). apply at_most_one; [exact Hnd|].
  intros t t' Ht Ht' Hr%Z.eqb_eq Hr'%Z.eqb_eq.
  pose proof (Hrec t Ht) as H1. pose proof (Hrec t' Ht') as H2.
  rewrite Hr in H1. rewrite Hr' in H2. congruence.
Qed.

Lemma tracked_writeRooms rooms w : tracked w -> tracked (writeRooms rooms w).
Proof.
  intros H. exact H.
Qed.

Lemma tracked_expire now rooms w :
  tracked w -> tracked (snd (expireRoomsIfNeeded now rooms w)).
Proof.
  unfold expireRoomsIfNeeded. destruct (expire_loop now rooms) as [rs [|]]; auto.
Qed.

Lemma NoDup_map_filter {A B} (f : A -> B) (p : A -> bool) (l : list A) :
  NoDup (map f l) -> NoDup (map f (List.filter p l)).
Proof.
  induction l as [|x rest IH]; simpl; [auto|].
  intros [Hx Hnd]%NoDup_cons. destruct (p x); [|auto].
  simpl. apply NoDup_cons. split; [|auto].
  intros Hin. apply Hx. apply list_elem_of_In in Hin. apply list_elem_of_In.
  apply in_map_iff in Hin as (y & <- & Hy). apply filter_In in Hy as [Hy _].
  now apply in_map.
Qed.

(** Clearing a timer keeps the others recorded. *)
Lemma tracked_clearTimeout h w : tracked w -> tracked (clearTimeout h w).
Proof.
  intros (Hrec & Hnd & Hlt & Hmb & Hinj). unfold tracked, clearTimeout. simpl.
  split; [|split; [|split; [|split]]]; [| |  |exact Hmb|exact Hinj].
  - intros t [Ht _]%filter_In. auto.
  - now apply NoDup_map_filter.
  - intros t [Ht _]%filter_In. auto.
Qed.

(** Cancelling the timer of a room leaves it without a pending timer and
    without an entry in the map. *)
Lemma cancel_timer_spec roomId w :
  tracked w ->
  tracked (cancel_timer roomId w)
  /\ timers_of roomId (cancel_timer roomId w) = []
  /\ autoReleaseTimers (cancel_timer roomId w) !! roomId = None
  /\ nextHandle (cancel_timer roomId w) = nextHandle w.
Proof.
  intros (Hrec & Hnd & Hlt & Hmb & Hinj). unfold cancel_timer.
  destruct (autoReleaseTimers w !! roomId) as [h|] eqn:M.
  - assert (Hgone : forall t, In t (pending (clearTimeout h w)) -> roomOf t <> roomId).
    { intros t [Ht Hh]%filter_In E. apply negb_true_iff, Nat.eqb_neq in Hh.
      specialize (Hrec t Ht). rewrite E, M in Hrec. congruence. }
    split; [|split; [|split]].
    + unfold tracked. simpl. split; [|split; [|split; [|split]]].
      * intros t Ht. rewrite lookup_delete_ne by (symmetry; now apply Hgone).
        apply filter_In in Ht as [Ht _]. auto.
      * now apply NoDup_map_filter.
      * intros t [Ht _]%filter_In. auto.
      * intros k h' [_ Hk]%lookup_delete_Some. eauto.
      * intros k k' h' [_ Hk]%lookup_delete_Some [_ Hk']%lookup_delete_Some. eauto.
    + unfold timers_of. simpl.
      destruct (List.filter _ (List.filter _ (pending w))) as [|y ys] eqn:E; [reflexivity|].
      assert (Hy : In y (y :: ys)) by (left; reflexivity).
      rewrite <- E in Hy. apply filter_In in Hy as [Hy Hr%Z.eqb_eq].
      exfalso. exact (Hgone y Hy Hr).
    + simpl. apply lookup_delete_eq.
    + reflexivity.
  - split; [exact (conj Hrec (conj Hnd (conj Hlt (conj Hmb Hinj))))|]. split; [|auto].
    unfold timers_of.
    destruct (List.filter _ (pending w)) as [|y ys] eqn:E; [reflexivity|].
    assert (Hy : In y (y :: ys)) by (left; reflexivity).
    rewrite <- E in Hy. apply filter_In in Hy as [Hy Hr%Z.eqb_eq].
    specialize (Hrec y Hy). rewrite Hr, M in Hrec. discriminate.
Qed.

(** Installing a timer for a room that has none, and recording it. *)
Lemma tracked_install roomId delay now w :
  tracked w -> timers_of roomId w = [] ->
  let w2 := snd (setTimeout roomId delay now w) in
  tracked (with_timers (<[roomId := fst (setTimeout roomId delay now w)]>
                          (autoReleaseTimers w2)) w2).
Proof.
  intros (Hrec & Hnd & Hlt & Hmb & Hinj) Hnone. unfold tracked, setTimeout. simpl.
  split; [|split; [|split; [|split]]].
  - intros t [Ht|[<-|[]]]%in_app_iff.
    + rewrite lookup_insert_ne; [auto|].
      intros E. assert (Hin : In t (timers_of roomId w))
        by (apply timers_of_In; auto).
      rewrite Hnone in Hin. exact Hin.
    + simpl. apply lookup_insert_eq.
  - rewrite List.map_app. simpl. apply NoDup_app. split; [exact Hnd|]. split.
    + intros x Hx [<-|[]]%list_elem_of_In. apply list_elem_of_In in Hx.
      apply in_map_iff in Hx as (t & Hh & Ht). specialize (Hlt t Ht). lia.
    + apply NoDup_singleton.
  - intros t [Ht|[<-|[]]]%in_app_iff; [specialize (Hlt t Ht); lia|simpl; lia].
  - intros k h [[_ <-]|[_ Hk]]%lookup_insert_Some; [lia|].
    specialize (Hmb k h Hk). lia.
  - intros k k' h [[<- <-]|[Hne Hk]]%lookup_insert_Some
                  [[<- Hh]|[Hne' Hk']]%lookup_insert_Some; try reflexivity.
    + specialize (Hmb k' _ Hk'). lia.
    + specialize (Hmb k _ Hk). lia.
    + eauto.
Qed.

Lemma tracked_schedule now roomId w :
  tracked w -> tracked (scheduleAutoRelease now roomId w).
Proof.
  intros H. destruct (cancel_timer_spec roomId w H) as (H1 & Hnone & _).
  unfold scheduleAutoRelease. set (w1 := cancel_timer roomId w) in *.
  destruct (find_room roomId (readRooms w1)) as [[i r]|]; [|exact H1].
  destruct (negb (occupied r) || negb (has_endTime r)); [exact H1|].
  destruct (_ <=? 0); [exact H1|].
  apply (tracked_install roomId _ now w1 H1 Hnone).
Qed.

End Timers.

Section Synced.

Implicit Types (t : Timer) (r : Room.t) (rooms : list Room.t) (w : World).

(** Changing the first room of some id does not change which room another
    id finds. *)
Lemma find_room_insert_ne roomId rid rooms i r0 r' :
  find_room roomId rooms = Some (i, r0) -> Room.id r' = roomId -> rid <> roomId ->
  find_room rid (<[i := r']> rooms) = find_room rid rooms.
Proof.
  revert i. induction rooms as [|x rest IH]; intros i; simpl; [discriminate|].
  destruct (Z.eqb_spec (Room.id x) roomId) as [E|E].
  - intros [= <- <-] Hid Hne. simpl.
    destruct (Z.eqb_spec (Room.id r') rid); [congruence|].
    destruct (Z.eqb_spec (Room.id x) rid); [congruence|reflexivity].
  - destruct (find_room roomId rest) as [[j y]|] eqn:F; simpl; [|discriminate].
    intros [= <- <-] Hid Hne. simpl. now rewrite (IH j eq_refl Hid Hne).
Qed.

Lemma readRooms_writeRooms rooms w : readRooms (writeRooms rooms w) = rooms.
Proof. reflexivity. Qed.

Lemma synced_weaken roomId w : synced w -> synced_but roomId w.
Proof. intros H t i r e Ht _. now apply H. Qed.

Lemma synced_expire now w :
  synced w -> synced (snd (expireRoomsIfNeeded now (readRooms w) w)).
Proof.
  intros H t i r e Ht F Hocc Hend He.
  destruct (expireRoomsIfNeeded_timers now (readRooms w) w) as (_ & Hp & _).
  rewrite Hp in Ht.
  rewrite expireRoomsIfNeeded_file, expireRoomsIfNeeded_rooms, find_room_expired in F.
  destruct (find_room (roomOf t) (readRooms w)) as [[j r0]|] eqn:F0; [|discriminate].
  simpl in F. injection F as <- <-.
  destruct (due now r0); [discriminate Hocc|]. eapply H; eauto.
Qed.

(** After the handler has rewritten the room of [roomId], the timers of the
    other rooms are still in step with the file. *)
Lemma synced_but_write roomId rooms i r0 r' w :
  readRooms w = rooms -> synced w ->
  find_room roomId rooms = Some (i, r0) -> Room.id r' = roomId ->
  synced_but roomId (writeRooms (<[i := r']> rooms) w).
Proof.
  intros <- H F Hid t j r e Ht Hne F' Hocc Hend He.
  rewrite readRooms_writeRooms in F'. simpl in Ht.
  rewrite (find_room_insert_ne _ _ _ _ _ _ F Hid Hne) in F'. eapply H; eauto.
Qed.

Lemma synced_but_cancel roomId w :
  tracked w -> synced_but roomId w -> synced (cancel_timer roomId w).
Proof.
  intros Ht H. destruct (cancel_timer_spec roomId w Ht) as (_ & Hnone & _).
  intros t i r e Hin F Hocc Hend He.
  assert (Hne : roomOf t <> roomId).
  { intros E. assert (Hin' : In t (timers_of roomId (cancel_timer roomId w)))
      by (apply timers_of_In; auto).
    rewrite Hnone in Hin'. exact Hin'. }
  rewrite readRooms_cancel_timer in F.
  assert (Hold : In t (pending w)).
  { unfold cancel_timer in Hin. destruct (autoReleaseTimers w !! roomId); [|exact Hin].
    simpl in Hin. now apply filter_In in Hin. }
  eapply H; eauto.
Qed.

(** [scheduleAutoRelease] brings the timer of its room in step with the
    file, if the end of the booking is not further ahead than
    [TIMEOUT_MAX]. *)
Lemma synced_schedule now roomId w :
  tracked w -> synced_but roomId w ->
  (forall i r e, find_room roomId (readRooms w) = Some (i, r) ->
                 Room.endTime r = Some e -> e - now <= TIMEOUT_MAX) ->
  synced (scheduleAutoRelease now roomId w).
Proof.
  intros Ht Hb Hmax.
  pose proof (synced_but_cancel roomId w Ht Hb) as H1.
  destruct (cancel_timer_spec roomId w Ht) as (Ht1 & Hnone & _).
  unfold scheduleAutoRelease. rewrite readRooms_cancel_timer.
  set (w1 := cancel_timer roomId w) in *.
  destruct (find_room roomId (readRooms w)) as [[i r]|] eqn:F; [|exact H1].
  destruct (negb (occupied r) || negb (has_endTime r)) eqn:G; [exact H1|].
  apply orb_false_iff in G as [Hocc Hend].
  apply negb_false_iff in Hocc. apply negb_false_iff in Hend.
  assert (Hw1 : readRooms w1 = readRooms w) by apply readRooms_cancel_timer.
  destruct (Z.leb_spec (default 0 (Room.endTime r) - now) 0) as [Hle|Hgt].
  - (* the booking has lapsed: the room is freed at once *)
    intros t j r' e Hin F' Hocc' Hend' He'. simpl in Hin.
    rewrite readRooms_writeRooms in F'.
    destruct (Z.eq_dec (roomOf t) roomId) as [E|E].
    + rewrite E in F'. rewrite (find_room_insert _ _ _ r) in F'; auto.
      * injection F' as <- <-. discriminate Hocc'.
      * now apply find_room_Some in F.
    + rewrite (find_room_insert_ne roomId _ _ i r) in F'; auto.
      * rewrite <- Hw1 in F'. eapply H1; eauto.
      * now apply find_room_Some in F.
  - (* a timer is installed *)
    intros t j r' e Hin F' Hocc' Hend' He'. simpl in Hin.
    change (find_room (roomOf t) (readRooms w1) = Some (j, r')) in F'.
    rewrite Hw1 in F'.
    apply in_app_iff in Hin as [Hin|[<-|[]]].
    + rewrite <- Hw1 in F'. eapply H1; eauto.
    + simpl in *. rewrite F in F'. injection F' as <- <-.
      specialize (Hmax i r e eq_refl He').
      rewrite He' in Hgt |- *. simpl default in *.
      destruct (Z.leb_spec 1 (e - now)); [|lia].
      destruct (Z.leb_spec (e - now) TIMEOUT_MAX); [|lia]. simpl. lia.
Qed.

End Synced.

Section TimerInvariant.

Implicit Types (t : Timer) (r : Room.t) (rooms : list Room.t) (w : World).

Lemma synced_but_none roomId w :
  synced_but roomId w -> timers_of roomId w = [] -> synced w.
Proof.
  intros H Hnone t i r e Hin. apply H; [exact Hin|].
  intros E. assert (Hin' : In t (timers_of roomId w)) by (apply timers_of_In; auto).
  rewrite Hnone in Hin'. exact Hin'.
Qed.

Lemma tracked_forget roomId w :
  tracked w -> timers_of roomId w = [] ->
  tracked (with_timers (delete roomId (autoReleaseTimers w)) w).
Proof.
  intros (Hrec & Hnd & Hlt & Hmb & Hinj) Hnone. unfold tracked. simpl.
  split; [|split; [exact Hnd|split; [exact Hlt|split]]].
  - intros t Ht. rewrite lookup_delete_ne; [auto|].
    intros E. assert (Hin : In t (timers_of roomId w)) by (apply timers_of_In; auto).
    rewrite Hnone in Hin. exact Hin.
  - intros k h [_ Hk]%lookup_delete_Some. eauto.
  - intros k k' h [_ Hk]%lookup_delete_Some [_ Hk']%lookup_delete_Some. eauto.
Qed.

Lemma find_timer_Some h w t :
  find_timer h w = Some t -> In t (pending w) /\ handle t = h.
Proof.
  unfold find_timer. intros H. apply find_some in H as [Hin Hh].
  split; [exact Hin|]. now apply Nat.eqb_eq.
Qed.

(** Once a recorded timer has left the pending list, its room has none. *)
Lemma fired_room_has_no_timer h w t :
  tracked w -> find_timer h w = Some t ->
  timers_of (roomOf t) (clearTimeout h w) = [].
Proof.
  intros (Hrec & _) [Hin Hh]%find_timer_Some. unfold timers_of, clearTimeout. simpl.
  destruct (List.filter _ (List.filter _ (pending w))) as [|y ys] eqn:E; [reflexivity|].
  assert (Hy : In y (y :: ys)) by (left; reflexivity).
  rewrite <- E in Hy. apply filter_In in Hy as [Hy Hr%Z.eqb_eq].
  apply filter_In in Hy as [Hy Hne]. apply negb_true_iff, Nat.eqb_neq in Hne.
  pose proof (Hrec y Hy) as H1. pose proof (Hrec t Hin) as H2.
  rewrite Hr in H1. congruence.
Qed.

Lemma synced_clearTimeout h w : synced w -> synced (clearTimeout h w).
Proof.
  intros H t i r e Hin. simpl in Hin. apply filter_In in Hin as [Hin _].
  now apply H.
Qed.

Lemma synced_with_timers m w : synced w -> synced (with_timers m w).
Proof. intros H. exact H. Qed.

(** The callback of a timer whose room has no other pending timer, when it
    does not reschedule. *)
Lemma callback_keeps_tracked now now' roomId w :
  tracked w -> timers_of roomId w = [] -> reschedules now roomId w = false ->
  tracked (timer_callback now now' roomId w).
Proof.
  intros Ht Hnone Hre. unfold timer_callback. unfold reschedules in Hre.
  destruct (find_room roomId (readRooms w)) as [[i r]|];
    [|now apply tracked_forget].
  destruct (occupied r && has_endTime r); [|now apply tracked_forget].
  simpl in Hre. apply negb_false_iff in Hre. rewrite Hre.
  now apply (tracked_forget roomId (writeRooms _ w)).
Qed.

Lemma callback_keeps_synced now now' roomId w :
  synced w -> timers_of roomId w = [] -> reschedules now roomId w = false ->
  synced (timer_callback now now' roomId w).
Proof.
  intros Hs Hnone Hre. unfold timer_callback. unfold reschedules in Hre.
  destruct (find_room roomId (readRooms w)) as [[i r]|] eqn:F;
    [|now apply synced_with_timers].
  destruct (occupied r && has_endTime r); [|now apply synced_with_timers].
  simpl in Hre. apply negb_false_iff in Hre. rewrite Hre.
  apply synced_with_timers, (synced_but_none roomId); [|exact Hnone].
  apply (synced_but_write roomId (readRooms w) i r); auto.
  now apply find_room_Some in F.
Qed.

(** A timer in step with the file that fires when it is due finds the
    booking lapsed: its callback does not reschedule. *)
Lemma synced_no_reschedule h now w t :
  synced w -> find_timer h w = Some t -> fireAt t <= now ->
  reschedules now (roomOf t) (clearTimeout h w) = false.
Proof.
  intros Hs [Hin _]%find_timer_Some Hdue. unfold reschedules.
  change (readRooms (clearTimeout h w)) with (readRooms w).
  destruct (find_room (roomOf t) (readRooms w)) as [[i r]|] eqn:F; [|reflexivity].
  destruct (occupied r) eqn:Hocc; [|reflexivity].
  destruct (has_endTime r) eqn:Hend; [|reflexivity]. simpl.
  pose proof Hend as Hend'. unfold has_endTime in Hend'.
  destruct (Room.endTime r) as [e|] eqn:He; [|discriminate Hend']. simpl.
  specialize (Hs t i r e Hin F Hocc Hend He).
  apply negb_false_iff. apply Z.leb_le. lia.
Qed.

(** The timers after a request that went through the lazy expiry, rewrote
    the room found and rescheduled its timer. *)
Lemma rewrite_and_schedule now t_timer roomId w i r r' :
  tracked w -> synced w ->
  find_room roomId (fst (expire_loop now (readRooms w))) = Some (i, r) ->
  Room.id r' = roomId ->
  (forall e, Room.endTime r' = Some e -> e - t_timer <= TIMEOUT_MAX) ->
  let w2 := writeRooms (<[i := r']> (fst (expire_loop now (readRooms w))))
              (snd (expireRoomsIfNeeded now (readRooms w) w)) in
  tracked (scheduleAutoRelease t_timer roomId w2)
  /\ synced (scheduleAutoRelease t_timer roomId w2).
Proof.
  intros Ht Hs F Hid Hmax w2.
  pose proof (tracked_expire now (readRooms w) w Ht) as Ht1.
  pose proof (synced_expire now w Hs) as Hs1.
  assert (Ht2 : tracked w2) by exact Ht1.
  split; [now apply tracked_schedule|].
  apply synced_schedule; [exact Ht2| |].
  - apply (synced_but_write roomId _ i r); auto.
    now rewrite expireRoomsIfNeeded_file, expireRoomsIfNeeded_rooms.
  - intros j x e Fx Hx. unfold w2 in Fx. rewrite readRooms_writeRooms in Fx.
    rewrite (find_room_insert _ _ _ r) in Fx by auto.
    injection Fx as <- <-. auto.
Qed.

End TimerInvariant.

Section TimerSteps.

Implicit Types (t : Timer) (r : Room.t) (rooms : list Room.t) (w : World).

Lemma tracked_release roomId rooms w :
  tracked w -> tracked (cancel_timer roomId (writeRooms rooms w)).
Proof. intros H. now apply cancel_timer_spec, tracked_writeRooms. Qed.

(** Every step keeps the timers recorded, unless it is the firing of a timer
    whose callback reschedules. *)
Lemma step_keeps_tracked env w e w' :
  tracked w -> step env w e = Some w' ->
  match e with
  | Fire h now _ =>
      forall t, find_timer h w = Some t -> reschedules now (roomOf t) w = false
  | _ => True
  end ->
  tracked w'.
Proof.
  intros Ht. unfold step. destruct e; simpl.
  - intros [= <-] _. unfold get_rooms.
    pose proof (tracked_expire now (readRooms w) w Ht) as H1.
    destruct (expireRoomsIfNeeded now (readRooms w) w) as [rs w1].
    destruct (mapM _ rs); exact H1.
  - intros [= <-] _. unfold get_room.
    pose proof (tracked_expire now (readRooms w) w Ht) as H1.
    destruct (expireRoomsIfNeeded now (readRooms w) w) as [rs w1].
    destruct (find_param _ rs) as [[? ?]|]; exact H1.
  - intros [= <-] _. unfold post_book.
    destruct (parseInt roomId) as [rid| | |]; try (exact Ht).
    destruct (parseInt duration) as [d| | |]; try (exact Ht).
    destruct (d <=? 0); [exact Ht|].
    destruct (nonblank studentName) as [who|]; [|exact Ht].
    destruct (nonblank purpose) as [why|]; [|exact Ht].
    pose proof (tracked_expire t_expire (readRooms w) w Ht) as H1.
    destruct (expireRoomsIfNeeded t_expire (readRooms w) w) as [rs w1].
    destruct (find_room rid rs) as [[i r]|]; [|exact H1].
    destruct (occupied r); [exact H1|].
    apply tracked_schedule. exact H1.
  - intros [= <-] _. unfold post_release.
    destruct (negb (truthy bookingCode)); [exact Ht|].
    destruct (find_param _ (readRooms w)) as [[i r]|]; [|exact Ht].
    destruct (negb (occupied r)); [exact Ht|].
    destruct (negb (same_code _ _)); [exact Ht|].
    now apply tracked_release.
  - intros [= <-] _. unfold post_extend.
    destruct (negb (truthy bookingCode)); [exact Ht|].
    destruct (parseInt extraMinutes) as [k| | |]; try (exact Ht).
    destruct (k <=? 0); [exact Ht|].
    pose proof (tracked_expire t_expire (readRooms w) w Ht) as H1.
    destruct (expireRoomsIfNeeded t_expire (readRooms w) w) as [rs w1].
    destruct (find_param _ rs) as [[i r]|]; [|exact H1].
    destruct (negb (occupied r) || negb (has_endTime r)); [exact H1|].
    destruct (negb (same_code _ _)); [exact H1|].
    apply tracked_schedule. exact H1.
  - unfold fire. destruct (find_timer h w) as [t|] eqn:Ft; [|discriminate].
    intros [= <-] Hre.
    apply callback_keeps_tracked.
    + now apply tracked_clearTimeout.
    + now apply fired_room_has_no_timer.
    + exact (Hre t eq_refl).
Qed.

Lemma json_number_Some n e : json_number n = Some e -> n = Finite e.
Proof. destruct n; simpl; congruence. Qed.

(** Every step that sets no timer further ahead than [TIMEOUT_MAX], and fires
    none before its time, keeps the timers recorded and in step with the
    file. *)
Lemma step_keeps_timers env w e w' :
  tracked w -> synced w -> timely w e -> punctual w e ->
  step env w e = Some w' ->
  tracked w' /\ synced w'.
Proof.
  intros Ht Hs Hty Hpu Hstep.
  assert (Hexp : forall now,
            tracked (snd (expireRoomsIfNeeded now (readRooms w) w))
            /\ synced (snd (expireRoomsIfNeeded now (readRooms w) w)))
    by (intros now; split; [now apply tracked_expire | now apply synced_expire]).
  revert Hstep. unfold step. destruct e; simpl.
  - intros [= <-]. unfold get_rooms. specialize (Hexp now).
    destruct (expireRoomsIfNeeded now (readRooms w) w) as [rs w1].
    destruct (mapM _ rs); exact Hexp.
  - intros [= <-]. unfold get_room. specialize (Hexp now).
    destruct (expireRoomsIfNeeded now (readRooms w) w) as [rs w1].
    destruct (find_param _ rs) as [[? ?]|]; exact Hexp.
  - intros [= <-]. unfold post_book.
    destruct (parseInt roomId) as [rid| | |]; try (auto).
    destruct (parseInt duration) as [d| | |] eqn:Hd; try (auto).
    destruct (d <=? 0); [auto|].
    destruct (nonblank studentName) as [who|]; [|auto].
    destruct (nonblank purpose) as [why|]; [|auto].
    specialize (Hexp t_expire).
    pose proof (expireRoomsIfNeeded_rooms t_expire (readRooms w) w) as Hrs.
    pose proof (rewrite_and_schedule t_expire t_timer rid w) as Hgo.
    destruct (expireRoomsIfNeeded t_expire (readRooms w) w) as [rs w1].
    simpl in Hrs, Hexp, Hgo. subst rs.
    destruct (find_room rid _) as [[i r]|] eqn:F; [|exact Hexp].
    destruct (occupied r); [exact Hexp|].
    apply (Hgo i r); auto.
    + now apply find_room_Some in F.
    + simpl. intros e He%json_number_Some. simpl in Hty. now apply (Hty d).
  - intros [= <-]. unfold post_release.
    destruct (negb (truthy bookingCode)); [auto|].
    destruct (find_param _ (readRooms w)) as [[i r]|] eqn:F; [|auto].
    destruct (negb (occupied r)); [auto|].
    destruct (negb (same_code _ _)); [auto|].
    apply find_param_Some in F as (rid & _ & F).
    pose proof (find_room_Some _ _ _ _ F) as [_ Hrid].
    split; [now apply tracked_release|].
    apply synced_but_cancel; [exact Ht|].
    apply (synced_but_write (Room.id r) (readRooms w) i r); auto.
    now rewrite Hrid.
  - intros [= <-]. unfold post_extend.
    destruct (negb (truthy bookingCode)); [auto|].
    destruct (parseInt extraMinutes) as [k| | |] eqn:Hk; try (auto).
    destruct (k <=? 0); [auto|].
    specialize (Hexp t_expire).
    pose proof (expireRoomsIfNeeded_rooms t_expire (readRooms w) w) as Hrs.
    destruct (parseInt_string id) as [rid| | |] eqn:Hid;
      try (destruct (expireRoomsIfNeeded t_expire (readRooms w) w) as [rs w1];
           exact Hexp).
    pose proof (rewrite_and_schedule t_expire t_timer rid w) as Hgo.
    destruct (expireRoomsIfNeeded t_expire (readRooms w) w) as [rs w1].
    simpl in Hrs, Hexp, Hgo |- *. subst rs.
    destruct (find_room rid _) as [[i r]|] eqn:F; [|exact Hexp].
    destruct (negb (occupied r) || negb (has_endTime r)) eqn:G; [exact Hexp|].
    destruct (negb (same_code _ _)); [exact Hexp|].
    apply orb_false_iff in G as [Hocc Hend].
    apply negb_false_iff in Hocc. apply negb_false_iff in Hend.
    assert (Hrid : Room.id r = rid) by now apply find_room_Some in F.
    rewrite Hrid. apply (Hgo i r); auto.
    simpl. intros e He%json_number_Some.
    rewrite find_room_expired in F.
    destruct (find_room rid (readRooms w)) as [[j r0]|] eqn:F0; [|discriminate F].
    simpl in F. injection F as <- <-.
    destruct (due t_expire r0); [discriminate Hocc|].
    unfold has_endTime in Hend.
    destruct (Room.endTime r0) as [e0|] eqn:He0; [|discriminate Hend].
    simpl in He. simpl in Hty. apply (Hty k j r0 e0); auto.
    rewrite Hid. exact F0.
  - unfold fire. destruct (find_timer h w) as [t|] eqn:Ft; [|discriminate].
    intros [= <-]. assert (Hdue : fireAt t <= now) by (apply Hpu; exact Ft).
    pose proof (synced_no_reschedule h now w t Hs Ft Hdue) as Hre.
    pose proof (fired_room_has_no_timer h w t Ht Ft) as Hnone.
    split.
    + apply callback_keeps_tracked; auto. now apply tracked_clearTimeout.
    + apply callback_keeps_synced; auto. now apply synced_clearTimeout.
Qed.

End TimerSteps.

Section TimerRuns.

Implicit Types (t : Timer) (r : Room.t) (rooms : list Room.t) (w : World).

Lemma In_insert {A} (l : list A) i x y :
  In y (<[i := x]> l) -> y = x \/ In y l.
Proof.
  revert i. induction l as [|a l IH]; intros [|i]; simpl; auto.
  - intros [<-|H]; auto.
  - intros [<-|H]; auto. destruct (IH i H); auto.
Qed.

(** Scheduling adds no end time to the file. *)
Lemma schedule_endTimes now roomId w r e :
  In r (readRooms (scheduleAutoRelease now roomId w)) -> Room.endTime r = Some e ->
  In r (readRooms w).
Proof.
  unfold scheduleAutoRelease. rewrite readRooms_cancel_timer.
  destruct (find_room roomId (readRooms w)) as [[i x]|];
    [|now rewrite readRooms_cancel_timer].
  destruct (negb (occupied x) || negb (has_endTime x));
    [now rewrite readRooms_cancel_timer|].
  destruct (_ <=? 0).
  - rewrite readRooms_writeRooms. intros [->|H]%In_insert He; [discriminate He|exact H].
  - intros H _. change (In r (readRooms (cancel_timer roomId w))) in H.
    now rewrite readRooms_cancel_timer in H.
Qed.

Lemma startup_loop_keeps_timers clock todo :
  forall n w,
    tracked w -> synced w -> timely_startup clock w ->
    tracked (startup_loop clock n todo w) /\ synced (startup_loop clock n todo w).
Proof.
  induction todo as [|r rest IH]; intros n w Ht Hs Hty; simpl; [auto|].
  destruct (occupied r && has_endTime r); [|now apply IH].
  apply IH.
  - now apply tracked_schedule.
  - apply synced_schedule; [exact Ht|now apply synced_weaken|].
    intros i x e F He. apply (Hty x e n); [|exact He].
    apply find_room_Some in F as [F _].
    apply list_elem_of_In. eapply list_elem_of_lookup_2; eauto.
  - intros x e m Hin He. apply (Hty x e m); [|exact He].
    eapply schedule_endTimes; eauto.
Qed.

Lemma boot_timers f : tracked (boot f) /\ synced (boot f).
Proof.
  split.
  - split; [intros t []|]. split; [constructor|]. split; [intros t []|].
    split; [intros k h Hk|intros k k' h Hk]; simpl in Hk;
      rewrite lookup_empty in Hk; discriminate.
  - intros t i r e [].
Qed.

Lemma run_keeps_timers env es :
  forall w w',
    tracked w -> synced w -> timely_run env w es -> punctual_run env w es ->
    run env w es = Some w' ->
    tracked w' /\ synced w'.
Proof.
  induction es as [|e rest IH]; intros w w' Ht Hs Hty Hpu Hrun; simpl in *.
  - injection Hrun as <-. auto.
  - destruct Hty as [Hte Hrest]. destruct Hpu as [Hpe Hprest].
    destruct (step env w e) as [w1|] eqn:S; [|discriminate].
    destruct (step_keeps_timers env w e w1 Ht Hs Hte Hpe S) as [Ht1 Hs1].
    eapply IH; eauto.
Qed.

End TimerRuns.

(** X4: in every state the server reaches from its start on any file, by any
    sequence of requests and timer firings, each room has at most one
    pending timer, and it is the one [autoReleaseTimers] records, as long as
    no timer is set further ahead than Node's [TIMEOUT_MAX] and no callback
    runs before [Date.now()] has reached the time its timer was set for. *)
Theorem one_timer_per_room env clock f es w' :
  timely_startup clock (boot f) ->
  timely_run env (startup clock (boot f)) es ->
  punctual_run env (startup clock (boot f)) es ->
  run env (startup clock (boot f)) es = Some w' ->
  forall roomId,
    (length (timers_of roomId w') <= 1)%nat
    /\ (forall t, In t (timers_of roomId w') ->
          autoReleaseTimers w' !! roomId = Some (handle t)).
Proof.
  intros Hst Hty Hpu Hrun roomId.
  destruct (boot_timers f) as [Ht0 Hs0].
  destruct (startup_loop_keeps_timers clock (readRooms (boot f)) O (boot f)
              Ht0 Hs0 Hst) as [Ht1 Hs1].
  destruct (run_keeps_timers env es _ w' Ht1 Hs1 Hty Hpu Hrun) as [Ht _].
  split; [now apply tracked_at_most_one|].
  intros t [Hin <-]%timers_of_In. now apply Ht.
Qed.

Lemma sample_timely_startup :
  timely_startup (fun _ => 500) (boot (Some [room_A; room_B])).
Proof. intros r e n [<-|[<-|[]]] [= <-]. vm_compute. discriminate. Qed.

Lemma sample_timely_run :
  timely_run sample_env (startup (fun _ => 500) (boot (Some [room_A; room_B])))
             sample_events.
Proof.
  unfold timely_run, sample_events. step_through sample_env.
  all: cbn [timely]; try exact I.
  - intros d e Hd He. vm_compute in Hd. injection Hd as <-.
    vm_compute in He. injection He as <-. vm_compute. discriminate.
  - intros k i r e e' Hk F He He'. vm_compute in Hk, F. injection Hk as <-.
    injection F as <- <-. injection He as <-.
    vm_compute in He'. injection He' as <-. vm_compute. discriminate.
Qed.

Lemma sample_punctual_run :
  punctual_run sample_env (startup (fun _ => 500) (boot (Some [room_A; room_B])))
               sample_events.
Proof.
  unfold punctual_run, sample_events. step_through sample_env.
  all: cbn [punctual]; try exact I.
  intros t Ft. vm_compute in Ft. injection Ft as <-. vm_compute. discriminate.
Qed.

Lemma one_timer_per_room_witness :
  timely_startup (fun _ => 500) (boot (Some [room_A; room_B]))
  /\ timely_run sample_env (startup (fun _ => 500) (boot (Some [room_A; room_B])))
       sample_events
  /\ punctual_run sample_env (startup (fun _ => 500) (boot (Some [room_A; room_B])))
       sample_events
  /\ exists w',
       run sample_env (startup (fun _ => 500) (boot (Some [room_A; room_B])))
           sample_events = Some w'
       /\ (length (timers_of 1 w') <= 1)%nat.
Proof.
  split; [exact sample_timely_startup|]. split; [exact sample_timely_run|].
  split; [exact sample_punctual_run|].
  destruct (run sample_env (startup (fun _ => 500) (boot (Some [room_A; room_B])))
              sample_events) as [w'|] eqn:R; [|vm_compute in R; discriminate R].
  exists w'. split; [reflexivity|].
  exact (proj1 (one_timer_per_room sample_env (fun _ => 500) (Some [room_A; room_B])
                  sample_events w' sample_timely_startup sample_timely_run
                  sample_punctual_run R 1)).
Defined.

Section Scheduling.

Implicit Types (t : Timer) (r : Room.t) (w : World).

(** Cancelling the timer of a room does not touch the timers of the other
    rooms. *)
Lemma timers_of_cancel_other roomId rid w :
  tracked w -> rid <> roomId ->
  timers_of rid (cancel_timer roomId w) = timers_of rid w.
Proof.
  intros (Hrec & _ & _ & _ & Hinj) Hne. unfold cancel_timer.
  destruct (autoReleaseTimers w !! roomId) as [h|] eqn:M; [|reflexivity].
  unfold timers_of, clearTimeout. simpl.
  induction (pending w) as [|x rest IH]; simpl; [reflexivity|].
  assert (IH' := IH ltac:(intros; apply Hrec; simpl; auto)).
  destruct (Nat.eqb_spec (handle x) h) as [E|E]; simpl; [|now rewrite IH'].
  rewrite IH'. destruct (Z.eqb_spec (roomOf x) rid) as [E'|]; [|reflexivity].
  exfalso. specialize (Hrec x ltac:(simpl; auto)). rewrite E in Hrec.
  apply Hne. rewrite <- E'. exact (Hinj _ _ _ Hrec M).
Qed.

Lemma timers_of_setTimeout roomId rid delay now w :
  timers_of rid (snd (setTimeout roomId delay now w))
  = (timers_of rid w
     ++ if roomId =? rid
        then [mkTimer (nextHandle w) roomId
                (now + if (1 <=? delay) && (delay <=? TIMEOUT_MAX) then delay else 1)]
        else [])%list.
Proof. unfold timers_of, setTimeout. simpl. now rewrite List.filter_app. Qed.

(** What [scheduleAutoRelease] does to the timers of its room: whatever
    timer was pending is gone, and a timer is pending afterwards exactly when
    the room is occupied with its end still ahead. *)
Lemma schedule_timers now roomId w :
  tracked w ->
  timers_of roomId (scheduleAutoRelease now roomId w)
  = match find_room roomId (readRooms w) with
    | Some (_, r) =>
        if occupied r && has_endTime r && (now <? default 0 (Room.endTime r))
        then
          let delay := default 0 (Room.endTime r) - now in
          [mkTimer (nextHandle w) roomId
             (now + if delay <=? TIMEOUT_MAX then delay else 1)]
        else []
    | None => []
    end.
Proof.
  intros Ht. destruct (cancel_timer_spec roomId w Ht) as (_ & Hnone & _ & Hnext).
  unfold scheduleAutoRelease. rewrite readRooms_cancel_timer.
  destruct (find_room roomId (readRooms w)) as [[i r]|]; [|exact Hnone].
  destruct (occupied r); simpl; [|exact Hnone].
  destruct (has_endTime r); simpl; [|exact Hnone].
  destruct (Z.leb_spec (default 0 (Room.endTime r) - now) 0) as [Hle|Hgt];
    destruct (Z.ltb_spec now (default 0 (Room.endTime r))) as [Hlt|Hge]; try lia.
  - exact Hnone.
  - change (timers_of roomId (snd (setTimeout roomId
              (default 0 (Room.endTime r) - now) now (cancel_timer roomId w)))
            = [mkTimer (nextHandle w) roomId
                 (now + if default 0 (Room.endTime r) - now <=? TIMEOUT_MAX
                        then default 0 (Room.endTime r) - now else 1)]).
    rewrite timers_of_setTimeout, Hnone, Z.eqb_refl, Hnext.
    destruct (Z.leb_spec 1 (default 0 (Room.endTime r) - now)); [reflexivity|lia].
Qed.

Lemma schedule_other_timers now roomId rid w :
  tracked w -> rid <> roomId ->
  timers_of rid (scheduleAutoRelease now roomId w) = timers_of rid w.
Proof.
  intros Ht Hne. pose proof (timers_of_cancel_other roomId rid w Ht Hne) as Hc.
  unfold scheduleAutoRelease.
  destruct (find_room roomId (readRooms (cancel_timer roomId w))) as [[i r]|];
    [|exact Hc].
  destruct (negb (occupied r) || negb (has_endTime r)); [exact Hc|].
  destruct (_ <=? 0); [exact Hc|].
  change (timers_of rid (snd (setTimeout roomId (default 0 (Room.endTime r) - now)
                                now (cancel_timer roomId w))) = timers_of rid w).
  rewrite timers_of_setTimeout, Hc.
  destruct (Z.eqb_spec roomId rid); [congruence|apply app_nil_r].
Qed.

End Scheduling.

(** X5: [scheduleAutoRelease] replaces the timer of its room and no other.
    With the timers recorded as [autoReleaseTimers] has them, afterwards the
    room has no timer unless it is occupied with its end time ahead, and then
    exactly one, with a fresh handle, due at the end time (or after one
    millisecond when the delay exceeds [TIMEOUT_MAX]); the timers of the
    other rooms are the same; and the timers are still recorded. *)
Theorem schedule_replaces_timer now roomId w :
  tracked w ->
  let w' := scheduleAutoRelease now roomId w in
  tracked w'
  /\ timers_of roomId w'
     = match find_room roomId (readRooms w) with
       | Some (_, r) =>
           if occupied r && has_endTime r && (now <? default 0 (Room.endTime r))
           then
             let delay := default 0 (Room.endTime r) - now in
             [mkTimer (nextHandle w) roomId
                (now + if delay <=? TIMEOUT_MAX then delay else 1)]
           else []
       | None => []
       end
  /\ (forall rid, rid <> roomId -> timers_of rid w' = timers_of rid w).
Proof.
  intros Ht w'. split; [now apply tracked_schedule|]. split.
  - now apply schedule_timers.
  - intros rid Hne. now apply schedule_other_timers.
Qed.

Lemma tracked_sample_world : tracked sample_world.
Proof.
  destruct (boot_timers (Some [room_A; room_B])) as [Ht Hs].
  exact (proj1 (startup_loop_keeps_timers (fun _ => 500) _ O _ Ht Hs
                  sample_timely_startup)).
Qed.

Lemma schedule_replaces_timer_witness :
  tracked sample_world
  /\ timers_of 2 (scheduleAutoRelease 600 2 sample_world) = [mkTimer 1 2 1000]
  /\ timers_of 1 (scheduleAutoRelease 600 2 sample_world) = timers_of 1 sample_world.
Proof.
  split; [exact tracked_sample_world|].
  destruct (schedule_replaces_timer 600 2 sample_world tracked_sample_world)
    as (_ & H2 & H3).
  split; [exact H2|]. apply H3. discriminate.
Defined.

Section Untracked.

Implicit Types (t : Timer) (r : Room.t) (w : World).

(** What cancelling the timer of a room does in any state: the timer the map
    records for the room leaves the pending list, the others stay, and the
    record is deleted. *)
Lemma cancel_timer_pending roomId w t :
  In t (pending (cancel_timer roomId w))
  <-> In t (pending w) /\ autoReleaseTimers w !! roomId <> Some (handle t).
Proof.
  unfold cancel_timer. destruct (autoReleaseTimers w !! roomId) as [h|]; simpl.
  - rewrite filter_In, negb_true_iff, Nat.eqb_neq. split.
    + intros [Hin Hne]. split; [exact Hin|]. congruence.
    + intros [Hin Hne]. split; [exact Hin|]. congruence.
  - split; [intros Hin; split; [exact Hin|discriminate] | tauto].
Qed.

Lemma cancel_timer_map roomId w :
  autoReleaseTimers (cancel_timer roomId w) = delete roomId (autoReleaseTimers w).
Proof.
  unfold cancel_timer. destruct (autoReleaseTimers w !! roomId) as [h|] eqn:M.
  - reflexivity.
  - symmetry. now apply delete_id.
Qed.

Lemma cancel_timer_next roomId w :
  nextHandle (cancel_timer roomId w) = nextHandle w.
Proof. unfold cancel_timer. now destruct (autoReleaseTimers w !! roomId). Qed.

(** [scheduleAutoRelease] for a booking that is running and ends within
    [TIMEOUT_MAX], in any state: the recorded timer of the room is replaced
    by a fresh one set for the end time, and the file is left alone. *)
Lemma schedule_running now roomId w i r e :
  find_room roomId (readRooms w) = Some (i, r) ->
  occupied r = true -> Room.endTime r = Some e -> e <> 0 ->
  0 < e - now <= TIMEOUT_MAX ->
  let w' := scheduleAutoRelease now roomId w in
  file w' = file w /\ writes w' = writes w
  /\ pending w'
     = (pending (cancel_timer roomId w) ++ [mkTimer (nextHandle w) roomId e])%list
  /\ autoReleaseTimers w' = <[roomId := nextHandle w]> (autoReleaseTimers w).
Proof.
  intros F Hocc He Hnz Hdelay. unfold scheduleAutoRelease.
  rewrite readRooms_cancel_timer, F, Hocc. unfold has_endTime. rewrite He.
  destruct (Z.eqb_spec e 0); [contradiction|]. simpl.
  destruct (Z.leb_spec (e - now) 0); [lia|].
  destruct (cancel_timer_store roomId w) as [Hf Hw].
  unfold setTimeout. cbn [with_timers file writes pending autoReleaseTimers nextHandle].
  destruct (Z.leb_spec 1 (e - now)); [|lia].
  destruct (Z.leb_spec (e - now) TIMEOUT_MAX); [|lia]. simpl.
  rewrite cancel_timer_next, cancel_timer_map, insert_delete_eq.
  repeat split; auto. do 3 f_equal. lia.
Qed.

End Untracked.

(** X6: a release by the owner frees the room: with the stored code supplied
    for an Occupied room, the answer is 200 with the public view of the freed
    room, [rooms.json] is written with the room Available and its four
    booking properties deleted, the timer that [autoReleaseTimers] records
    for the room is cleared and the record deleted, and every other pending
    timer stays pending.  When every pending timer is the recorded one, the
    room is left with no pending timer and the timers of the other rooms are
    untouched. *)
Theorem release_frees_room id code w i r :
  find_param (parseInt_string id) (readRooms w) = Some (i, r) ->
  occupied r = true -> Room.bookingCode r = Some code -> code <> EmptyString ->
  exists w',
    post_release id (JStr code) w
    = (w', ok (MessageRoom "Room released successfully"
                 (sanitizeRoom (Some (make_available r)))))
    /\ find_room (Room.id r) (readRooms w') = Some (i, make_available r)
    /\ writes w' = S (writes w)
    /\ autoReleaseTimers w' = delete (Room.id r) (autoReleaseTimers w)
    /\ (forall t, In t (pending w')
                  <-> In t (pending w)
                      /\ autoReleaseTimers w !! Room.id r <> Some (handle t))
    /\ (tracked w ->
        timers_of (Room.id r) w' = []
        /\ forall rid, rid <> Room.id r -> timers_of rid w' = timers_of rid w).
Proof.
  intros F Hocc Hcode Hne.
  assert (Htruthy : truthy (JStr code) = true).
  { simpl. destruct (String.eqb_spec code EmptyString); [contradiction|reflexivity]. }
  unfold post_release. rewrite Htruthy, F, Hocc, Hcode. simpl same_code.
  rewrite String.eqb_refl. cbn [negb].
  apply find_param_Some in F as (rid & _ & F).
  pose proof (find_room_Some _ _ _ _ F) as [_ Hrid].
  set (w1 := writeRooms (<[i := make_available r]> (readRooms w)) w).
  exists (cancel_timer (Room.id r) w1). split; [reflexivity|].
  rewrite readRooms_cancel_timer. split.
  { unfold w1. rewrite readRooms_writeRooms, Hrid.
    now apply (find_room_insert _ _ _ r). }
  split; [now rewrite (proj2 (cancel_timer_store _ _))|].
  split; [exact (cancel_timer_map (Room.id r) w1)|].
  split; [intros t; exact (cancel_timer_pending (Room.id r) w1 t)|].
  intros Ht. assert (Ht1 : tracked w1) by exact Ht.
  destruct (cancel_timer_spec (Room.id r) w1 Ht1) as (_ & Hnone & _).
  split; [exact Hnone|].
  intros k Hk. now rewrite (timers_of_cancel_other _ _ _ Ht1 Hk).
Qed.

Lemma release_frees_room_witness :
  timers_of 2 sample_world = [mkTimer 0 2 1000]
  /\ exists w',
       post_release "2" (JStr "0aff009c") sample_world
       = (w', ok (MessageRoom "Room released successfully"
                    (Some [("id", JNum 2); ("name", JStr "Room B");
                           ("status", JStr "Available")])))
       /\ find_room 2 (readRooms w') = Some (1%nat, make_available room_B)
       /\ writes w' = S (writes sample_world)
       /\ autoReleaseTimers w' = delete 2 (autoReleaseTimers sample_world)
       /\ timers_of 2 w' = [].
Proof.
  split; [reflexivity|].
  destruct (release_frees_room "2" "0aff009c" sample_world 1%nat room_B
              eq_refl eq_refl eq_refl ltac:(discriminate))
    as (w' & H1 & H2 & H3 & H4 & _ & H6).
  exists w'. repeat split; try assumption.
  exact (proj1 (H6 tracked_sample_world)).
Defined.

(** X7: only the stored code opens a booking.  If release or extend answers
    200, the room of the request exists and is Occupied in [rooms.json], and
    the code supplied is a string equal to the stored booking code. *)
Theorem success_needs_the_code id bookingCode w w' resp :
  post_release id bookingCode w = (w', resp)
  \/ (exists extraMinutes t_expire t_timer,
        post_extend id bookingCode extraMinutes t_expire t_timer w = (w', resp)) ->
  statusCode resp = 200%nat ->
  exists i r code,
    find_param (parseInt_string id) (readRooms w) = Some (i, r)
    /\ occupied r = true
    /\ Room.bookingCode r = Some code /\ bookingCode = JStr code.
Proof.
  assert (Hsame : forall stored v, same_code stored v = true -> truthy v = true ->
                  exists code, stored = Some code /\ v = JStr code).
  { intros [a|] [| |b|n|s] H Ht; try discriminate.
    apply String.eqb_eq in H. subst. eauto. }
  intros [Hrel|(m & t1 & t2 & Hext)].
  - revert Hrel. unfold post_release.
    destruct (truthy bookingCode) eqn:Hc; [|intros [= _ <-]; discriminate].
    cbn [negb].
    destruct (find_param _ (readRooms w)) as [[i r]|] eqn:F;
      [|intros [= _ <-]; discriminate].
    destruct (occupied r) eqn:Hocc; [|intros [= _ <-]; discriminate]. cbn [negb].
    destruct (same_code _ _) eqn:Hs; [|intros [= _ <-]; discriminate].
    intros _ _. destruct (Hsame _ _ Hs Hc) as (code & H1 & H2).
    exists i, r, code. auto.
  - revert Hext. unfold post_extend.
    destruct (truthy bookingCode) eqn:Hc; [|intros [= _ <-]; discriminate].
    cbn [negb].
    destruct (parseInt m) as [k| | |]; try (intros [= _ <-]; discriminate).
    destruct (k <=? 0); [intros [= _ <-]; discriminate|].
    pose proof (expireRoomsIfNeeded_rooms t1 (readRooms w) w) as Hrs.
    destruct (expireRoomsIfNeeded t1 (readRooms w) w) as [rs w1]. simpl in Hrs.
    subst rs.
    destruct (find_param _ _) as [[i r]|] eqn:F; [|intros [= _ <-]; discriminate].
    destruct (occupied r) eqn:Hocc; [|intros [= _ <-]; discriminate]. cbn [negb orb].
    destruct (has_endTime r) eqn:Hend; [|intros [= _ <-]; discriminate]. cbn [negb].
    destruct (same_code _ _) eqn:Hs; [|intros [= _ <-]; discriminate].
    intros _ _. destruct (Hsame _ _ Hs Hc) as (code & H1 & H2).
    apply find_param_Some in F as (rid & Hid & F). rewrite Hid. simpl.
    rewrite find_room_expired in F.
    destruct (find_room rid (readRooms w)) as [[j r0]|]; [|discriminate F].
    simpl in F. injection F as <- <-.
    destruct (due t1 r0) eqn:D; [discriminate Hocc|].
    exists j, r0, code. auto.
Qed.

Lemma success_needs_the_code_witness :
  exists i r code,
    find_param (parseInt_string "2") (readRooms sample_world) = Some (i, r)
    /\ occupied r = true
    /\ Room.bookingCode r = Some code /\ JStr "0aff009c" = JStr code.
Proof.
  apply (success_needs_the_code "2" (JStr "0aff009c") sample_world
           (fst (post_release "2" (JStr "0aff009c") sample_world))
           (snd (post_release "2" (JStr "0aff009c") sample_world))).
  - left. now destruct (post_release "2" (JStr "0aff009c") sample_world).
  - vm_compute. reflexivity.
Defined.

(** X8: no double booking.  A valid book request for a room that is Occupied
    and not yet due is answered 400 "Room already booked"; the room keeps its
    booking and its code, and the timers are untouched. *)
Theorem no_double_booking roomId name why duration random t_expire t_book t_timer
    w rid i r :
  parseInt roomId = Finite rid ->
  positive_integer (parseInt duration) = true ->
  trim name <> EmptyString -> trim why <> EmptyString ->
  find_room rid (readRooms w) = Some (i, r) ->
  occupied r = true -> due t_expire r = false ->
  exists w',
    post_book roomId (JStr name) (JStr why) duration random t_expire t_book t_timer w
    = (w', error 400 "Room already booked")
    /\ find_room rid (readRooms w') = Some (i, r)
    /\ pending w' = pending w /\ autoReleaseTimers w' = autoReleaseTimers w.
Proof.
  intros Hr Hd Hn Hy F Hocc D. unfold post_book. rewrite Hr.
  destruct (parseInt duration) as [d| | |]; try (discriminate Hd). simpl in Hd.
  apply Z.ltb_lt in Hd. destruct (Z.leb_spec d 0); [lia|].
  simpl nonblank.
  destruct (String.eqb_spec (trim name) EmptyString); [contradiction|].
  destruct (String.eqb_spec (trim why) EmptyString); [contradiction|].
  pose proof (expireRoomsIfNeeded_rooms t_expire (readRooms w) w) as Hrs.
  pose proof (expireRoomsIfNeeded_file t_expire w) as Hfile.
  destruct (expireRoomsIfNeeded_timers t_expire (readRooms w) w) as (Hm & Hp & _).
  destruct (expireRoomsIfNeeded t_expire (readRooms w) w) as [rs w1].
  simpl in Hrs, Hfile, Hm, Hp. subst rs.
  rewrite (find_room_not_due _ _ _ _ _ F D), Hocc.
  exists w1. split; [reflexivity|]. rewrite Hfile.
  split; [now apply find_room_not_due|]. auto.
Qed.

Lemma no_double_booking_witness :
  exists w',
    post_book (JNum 2) (JStr "Bob") (JStr "Chess") (JNum 15) sample_random
              600 600 600 sample_world
    = (w', error 400 "Room already booked")
    /\ find_room 2 (readRooms w') = Some (1%nat, room_B)
    /\ pending w' = pending sample_world
    /\ autoReleaseTimers w' = autoReleaseTimers sample_world.
Proof.
  apply (no_double_booking (JNum 2) "Bob" "Chess" (JNum 15) sample_random
           600 600 600 sample_world 2 1%nat room_B);
    first [reflexivity | discriminate].
Defined.

Section Provisioning.

Implicit Types (r : Room.t) (rooms : list Room.t) (w : World).

(** The rooms a process state shows to whoever reads the file: their ids and
    names, in order. *)
Lemma ids_insert rooms i r r' :
  rooms !! i = Some r -> Room.id r' = Room.id r -> Room.name r' = Room.name r ->
  map (fun x => (Room.id x, Room.name x)) (<[i := r']> rooms)
  = map (fun x => (Room.id x, Room.name x)) rooms.
Proof.
  revert i. induction rooms as [|x rest IH]; intros [|i]; simpl; try discriminate.
  - intros [= ->] -> ->. reflexivity.
  - intros H Hi Hn. now rewrite (IH i H Hi Hn).
Qed.

Lemma ids_expire now rooms :
  map (fun x => (Room.id x, Room.name x)) (fst (expire_loop now rooms))
  = map (fun x => (Room.id x, Room.name x)) rooms.
Proof.
  rewrite expire_loop_fst, List.map_map. apply List.map_ext.
  intros r. now destruct (due now r).
Qed.

Lemma ids_expireRoomsIfNeeded now w :
  map (fun x => (Room.id x, Room.name x))
      (readRooms (snd (expireRoomsIfNeeded now (readRooms w) w)))
  = map (fun x => (Room.id x, Room.name x)) (readRooms w).
Proof.
  rewrite expireRoomsIfNeeded_file, expireRoomsIfNeeded_rooms. apply ids_expire.
Qed.

Lemma ids_schedule now roomId w :
  map (fun x => (Room.id x, Room.name x)) (readRooms (scheduleAutoRelease now roomId w))
  = map (fun x => (Room.id x, Room.name x)) (readRooms w).
Proof.
  unfold scheduleAutoRelease. rewrite readRooms_cancel_timer.
  destruct (find_room roomId (readRooms w)) as [[i r]|] eqn:F;
    [|now rewrite readRooms_cancel_timer].
  destruct (negb (occupied r) || negb (has_endTime r));
    [now rewrite readRooms_cancel_timer|].
  destruct (_ <=? 0).
  - rewrite readRooms_writeRooms. apply find_room_Some in F as [F _].
    now apply (ids_insert _ _ r).
  - change (readRooms (let '(h, w2) := setTimeout _ _ _ _ in _))
      with (readRooms (cancel_timer roomId w)).
    now rewrite readRooms_cancel_timer.
Qed.

Lemma ids_callback now now' roomId w :
  map (fun x => (Room.id x, Room.name x)) (readRooms (timer_callback now now' roomId w))
  = map (fun x => (Room.id x, Room.name x)) (readRooms w).
Proof.
  unfold timer_callback.
  destruct (find_room roomId (readRooms w)) as [[i r]|] eqn:F; [|reflexivity].
  destruct (occupied r && has_endTime r); [|reflexivity].
  destruct (_ <=? now).
  - change (readRooms (with_timers _ (writeRooms ?x _))) with x.
    apply find_room_Some in F as [F _]. now apply (ids_insert _ _ r).
  - change (readRooms (with_timers _ ?x)) with (readRooms x). apply ids_schedule.
Qed.

Lemma ids_step env w e w' :
  step env w e = Some w' ->
  map (fun x => (Room.id x, Room.name x)) (readRooms w')
  = map (fun x => (Room.id x, Room.name x)) (readRooms w).
Proof.
  unfold step. destruct e; simpl.
  - intros [= <-]. unfold get_rooms.
    pose proof (ids_expireRoomsIfNeeded now w) as H.
    destruct (expireRoomsIfNeeded now (readRooms w) w) as [rs w1].
    destruct (mapM _ rs); exact H.
  - intros [= <-]. unfold get_room.
    pose proof (ids_expireRoomsIfNeeded now w) as H.
    destruct (expireRoomsIfNeeded now (readRooms w) w) as [rs w1].
    destruct (find_param _ rs) as [[? ?]|]; exact H.
  - intros [= <-]. unfold post_book.
    destruct (parseInt roomId) as [rid| | |]; try (reflexivity).
    destruct (parseInt duration) as [d| | |]; try (reflexivity).
    destruct (d <=? 0); [reflexivity|].
    destruct (nonblank studentName) as [who|]; [|reflexivity].
    destruct (nonblank purpose) as [why|]; [|reflexivity].
    pose proof (ids_expireRoomsIfNeeded t_expire w) as H.
    pose proof (expireRoomsIfNeeded_file t_expire w) as Hf.
    destruct (expireRoomsIfNeeded t_expire (readRooms w) w) as [rs w1].
    simpl in H, Hf.
    destruct (find_room rid rs) as [[i r]|] eqn:F; [|exact H].
    destruct (occupied r); [exact H|]. simpl.
    rewrite ids_schedule, readRooms_writeRooms, <- H, Hf.
    apply find_room_Some in F as [F _]. now apply (ids_insert _ _ r).
  - intros [= <-]. unfold post_release.
    destruct (negb (truthy bookingCode)); [reflexivity|].
    destruct (find_param _ (readRooms w)) as [[i r]|] eqn:F; [|reflexivity].
    destruct (negb (occupied r)); [reflexivity|].
    destruct (negb (same_code _ _)); [reflexivity|]. simpl.
    rewrite readRooms_cancel_timer, readRooms_writeRooms.
    apply find_param_Some in F as (rid & _ & F).
    apply find_room_Some in F as [F _]. now apply (ids_insert _ _ r).
  - intros [= <-]. unfold post_extend.
    destruct (negb (truthy bookingCode)); [reflexivity|].
    destruct (parseInt extraMinutes) as [k| | |]; try (reflexivity).
    destruct (k <=? 0); [reflexivity|].
    pose proof (ids_expireRoomsIfNeeded t_expire w) as H.
    pose proof (expireRoomsIfNeeded_file t_expire w) as Hf.
    destruct (expireRoomsIfNeeded t_expire (readRooms w) w) as [rs w1].
    simpl in H, Hf.
    destruct (find_param _ rs) as [[i r]|] eqn:F; [|exact H].
    destruct (negb (occupied r) || negb (has_endTime r)); [exact H|].
    destruct (negb (same_code _ _)); [exact H|]. simpl.
    rewrite ids_schedule, readRooms_writeRooms, <- H, Hf.
    apply find_param_Some in F as (rid & _ & F).
    apply find_room_Some in F as [F _]. now apply (ids_insert _ _ r).
  - unfold fire. destruct (find_timer h w) as [t|]; [|discriminate].
    intros [= <-].
    apply (ids_callback now now' (roomOf t) (clearTimeout h w)).
Qed.

Lemma ids_startup_loop clock todo :
  forall n w,
    map (fun x => (Room.id x, Room.name x)) (readRooms (startup_loop clock n todo w))
    = map (fun x => (Room.id x, Room.name x)) (readRooms w).
Proof.
  induction todo as [|r rest IH]; intros n w; simpl; [reflexivity|].
  destruct (occupied r && has_endTime r); [|apply IH].
  rewrite IH. apply ids_schedule.
Qed.

End Provisioning.

(** X9: the server never creates, deletes, renumbers or renames a room.
    After its start and any sequence of requests and timer firings, the file
    holds the same rooms, by id and name and in the same order, as the file
    the server was started on. *)
Theorem rooms_are_never_created_or_deleted env clock f es w' :
  run env (startup clock (boot f)) es = Some w' ->
  map (fun r => (Room.id r, Room.name r)) (readRooms w')
  = map (fun r => (Room.id r, Room.name r)) (default [] f).
Proof.
  intros Hrun.
  transitivity (map (fun r => (Room.id r, Room.name r))
                    (readRooms (startup clock (boot f)))).
  - revert Hrun. generalize (startup clock (boot f)) as w. revert w'.
    induction es as [|e rest IH]; intros w' w Hrun; simpl in Hrun.
    + now injection Hrun as <-.
    + destruct (step env w e) as [w1|] eqn:S; [|discriminate].
      rewrite (IH _ _ Hrun). now apply (ids_step env w e).
  - apply ids_startup_loop.
Qed.

Lemma rooms_are_never_created_or_deleted_witness :
  exists w',
    run sample_env (startup (fun _ => 500) (boot (Some [room_A; room_B])))
        sample_events = Some w'
    /\ map (fun r => (Room.id r, Room.name r)) (readRooms w')
       = [(1, "Room A"); (2, "Room B")].
Proof.
  destruct (run sample_env (startup (fun _ => 500) (boot (Some [room_A; room_B])))
              sample_events) as [w'|] eqn:R; [|vm_compute in R; discriminate R].
  exists w'. split; [reflexivity|].
  exact (rooms_are_never_created_or_deleted sample_env (fun _ => 500)
           (Some [room_A; room_B]) sample_events w' R).
Defined.

(** X10: a booking sets the proactive timer.  After a valid booking of an
    Available room, handled before the booked time is over and ending within
    the safe integers and no further ahead than [TIMEOUT_MAX], a fresh timer
    set for the new [endTime] is pending and is the one recorded in
    [autoReleaseTimers] for the room; the timer recorded for the room before
    is cleared and every other pending timer stays.  When every pending timer
    is the recorded one, the new timer is the only one pending for the
    room. *)
Theorem booking_sets_timer roomId name why duration random t_expire t_book t_timer
    w rid d i r :
  parseInt roomId = Finite rid ->
  find_room rid (readRooms w) = Some (i, r) ->
  Room.status r = "Available" ->
  trim name <> EmptyString -> trim why <> EmptyString ->
  parseInt duration = Finite d -> 0 < d ->
  0 <= t_book -> t_book + d * 60000 <= MAX_SAFE_INTEGER ->
  0 < t_book + d * 60000 - t_timer <= TIMEOUT_MAX ->
  let w' := fst (post_book roomId (JStr name) (JStr why) duration random
                   t_expire t_book t_timer w) in
  let timer := mkTimer (nextHandle w) rid (t_book + d * 60000) in
  autoReleaseTimers w' !! rid = Some (nextHandle w)
  /\ (forall t, In t (pending w')
                <-> (In t (pending w) /\ autoReleaseTimers w !! rid <> Some (handle t))
                    \/ t = timer)
  /\ (tracked w -> timers_of rid w' = [timer]).
Proof.
  intros Hr F Hst Hn Hy Hd Hpos Hnow Hsafe Hdelay w' timer.
  set (r1 := if due t_expire r then make_available r else r).
  assert (F1 : find_room rid (fst (expire_loop t_expire (readRooms w))) = Some (i, r1))
    by (rewrite find_room_expired, F; reflexivity).
  assert (Hocc : occupied r1 = false).
  { unfold r1, occupied. destruct (due t_expire r); simpl; [reflexivity|].
    now rewrite Hst. }
  assert (Hnb : forall s, trim s <> EmptyString -> nonblank (JStr s) = Some (trim s)).
  { intros s Hs. simpl. destruct (String.eqb_spec (trim s) EmptyString); congruence. }
  unfold w'. erewrite post_book_accept by eauto. cbv zeta. cbn [fst].
  rewrite milliseconds_exact, js_add_exact by lia. cbn [json_number].
  set (code := toString_hex (buffer_of random)).
  set (r' := booked r1 (trim name) (trim why) (Some (t_book + d * 60000)) code).
  set (w2 := writeRooms _ _).
  destruct (expireRoomsIfNeeded_timers t_expire (readRooms w) w) as (Hmap & Hpend & Hnext).
  assert (Hmap2 : autoReleaseTimers w2 = autoReleaseTimers w) by exact Hmap.
  assert (Hpend2 : pending w2 = pending w) by exact Hpend.
  assert (Hnext2 : nextHandle w2 = nextHandle w) by exact Hnext.
  assert (F2 : find_room rid (readRooms w2) = Some (i, r')).
  { unfold w2. rewrite readRooms_writeRooms. apply (find_room_insert _ _ _ r1); [exact F1|].
    unfold r', r1. apply find_room_Some in F as [_ <-].
    now destruct (due t_expire r). }
  destruct (schedule_running t_timer rid w2 i r' (t_book + d * 60000) F2)
    as (_ & _ & Hp & Hm); [reflexivity|reflexivity|lia|lia|].
  rewrite Hnext2 in Hp, Hm. fold timer in Hp.
  split; [rewrite Hm; apply lookup_insert_eq|]. split.
  - intros t. rewrite Hp, in_app_iff, cancel_timer_pending, Hmap2, Hpend2.
    simpl. intuition congruence.
  - intros Ht.
    assert (Ht2 : tracked w2) by (apply (tracked_expire t_expire (readRooms w) w Ht)).
    pose proof (schedule_timers t_timer rid w2 Ht2) as Hs.
    rewrite F2, Hnext2 in Hs. unfold r', has_endTime in Hs.
    cbn [booked Room.endTime Room.status occupied default] in Hs.
    unfold id in Hs.
    change (String.eqb "Occupied" "Occupied") with true in Hs.
    destruct (Z.eqb_spec (t_book + d * 60000) 0); [lia|].
    destruct (Z.ltb_spec t_timer (t_book + d * 60000)); [|lia].
    cbn [negb andb] in Hs. cbv zeta in Hs.
    destruct (Z.leb_spec (t_book + d * 60000 - t_timer) TIMEOUT_MAX); [|lia].
    rewrite Hs. unfold timer. do 2 f_equal. lia.
Qed.

Lemma booking_sets_timer_witness :
  let w' := fst (post_book (JNum 1) (JStr "Ada") (JStr "Study") (JNum 30)
                   sample_random 600 600 600 sample_world) in
  autoReleaseTimers w' !! 1 = Some 1%nat
  /\ timers_of 1 w' = [mkTimer 1 1 1800600].
Proof.
  destruct (booking_sets_timer (JNum 1) "Ada" "Study" (JNum 30) sample_random
              600 600 600 sample_world 1 30 0%nat room_A eq_refl eq_refl eq_refl
              ltac:(discriminate) ltac:(discriminate) eq_refl
              ltac:(lia) ltac:(lia) ltac:(unfold MAX_SAFE_INTEGER; lia)
              ltac:(unfold TIMEOUT_MAX; lia))
    as (H1 & _ & H3).
  split; [exact H1|]. exact (H3 tracked_sample_world).
Defined.

(** X11: proactive expiry.  When the callback of a timer runs at or after the
    end of the booking of its room, the room is written to [rooms.json] as
    Available with its booking properties deleted, the file is written once,
    the timer has left the pending list while every other pending timer
    stays, and the room has no recorded timer.  When every pending timer is
    the recorded one, the room is left with no pending timer. *)
Theorem timer_frees_lapsed_room h now now' w t i r e :
  find_timer h w = Some t ->
  find_room (roomOf t) (readRooms w) = Some (i, r) ->
  occupied r = true -> Room.endTime r = Some e -> e <> 0 -> e <= now ->
  exists w',
    fire h now now' w = Some w'
    /\ find_room (roomOf t) (readRooms w') = Some (i, make_available r)
    /\ writes w' = S (writes w)
    /\ autoReleaseTimers w' !! roomOf t = None
    /\ (forall t', In t' (pending w') <-> In t' (pending w) /\ handle t' <> h)
    /\ (tracked w -> timers_of (roomOf t) w' = []).
Proof.
  intros Ft F Hocc He Hnz Hlapsed.
  unfold fire. rewrite Ft.
  eexists. split; [reflexivity|].
  unfold timer_callback.
  change (readRooms (clearTimeout h w)) with (readRooms w). rewrite F, Hocc.
  unfold has_endTime. rewrite He. simpl default.
  destruct (Z.eqb_spec e 0); [contradiction|]. simpl.
  destruct (Z.leb_spec e now); [|lia].
  split; [|split; [reflexivity|split; [|split]]].
  - change (readRooms (with_timers _ (writeRooms ?x _))) with x.
    apply (find_room_insert _ _ _ r); [exact F|].
    now apply find_room_Some in F.
  - simpl. apply lookup_delete_eq.
  - intros t'. simpl. rewrite filter_In, negb_true_iff, Nat.eqb_neq. reflexivity.
  - intros Ht. exact (fired_room_has_no_timer h w t Ht Ft).
Qed.

Lemma timer_frees_lapsed_room_witness :
  exists w',
    fire 0 1000 1000 sample_world = Some w'
    /\ find_room 2 (readRooms w') = Some (1%nat, make_available room_B)
    /\ writes w' = S (writes sample_world)
    /\ autoReleaseTimers w' !! 2 = None
    /\ timers_of 2 w' = [].
Proof.
  destruct (timer_frees_lapsed_room 0 1000 1000 sample_world (mkTimer 0 2 1000)
              1%nat room_B 1000 eq_refl eq_refl eq_refl eq_refl
              ltac:(discriminate) ltac:(lia))
    as (w' & H1 & H2 & H3 & H4 & _ & H6).
  exists w'. repeat split; try assumption. exact (H6 tracked_sample_world).
Defined.

(** X12: a timer that fires for a room that is no longer occupied (released,
    expired by a read, or gone from the file) changes nothing in
    [rooms.json] and writes nothing; it only leaves the pending list and the
    map. *)
Theorem timer_for_free_room_is_noop h now now' w t :
  find_timer h w = Some t ->
  match find_room (roomOf t) (readRooms w) with
  | Some (_, r) => occupied r && has_endTime r = false
  | None => True
  end ->
  exists w',
    fire h now now' w = Some w'
    /\ file w' = file w /\ writes w' = writes w
    /\ ~ In t (pending w')
    /\ autoReleaseTimers w' = delete (roomOf t) (autoReleaseTimers w).
Proof.
  intros Ft Hfree. unfold fire. rewrite Ft.
  eexists. split; [reflexivity|]. unfold timer_callback.
  change (readRooms (clearTimeout h w)) with (readRooms w).
  assert (Hgone : ~ In t (pending (clearTimeout h w))).
  { intros [_ Hh]%filter_In. apply find_timer_Some in Ft as [_ E].
    rewrite E, Nat.eqb_refl in Hh. discriminate. }
  destruct (find_room (roomOf t) (readRooms w)) as [[i r]|].
  - rewrite Hfree. simpl. auto.
  - simpl. auto.
Qed.

Lemma timer_for_free_room_is_noop_witness :
  let w := fst (get_room "2" 1000 sample_world) in
  find_timer 0 w = Some (mkTimer 0 2 1000)
  /\ exists w',
       fire 0 1000 1000 w = Some w'
       /\ file w' = file w /\ writes w' = writes w
       /\ ~ In (mkTimer 0 2 1000) (pending w')
       /\ autoReleaseTimers w' = delete 2 (autoReleaseTimers w).
Proof.
  split; [reflexivity|].
  apply (timer_for_free_room_is_noop 0 1000 1000
           (fst (get_room "2" 1000 sample_world)) (mkTimer 0 2 1000));
    reflexivity.
Defined.

(* ===================================================================== *)
(** * Booking codes, numbers and the manage page *)
(* ===================================================================== *)


(** X13: the booking code is a faithful print of the random bytes.  Two
    bookings have the same code only if [crypto.randomBytes] returned the
    same four bytes; every code is eight characters long and passes
    [isValidCode], the check the manage page makes before it sends a code. *)
Theorem booking_codes (r1 r2 : Bytes4) :
  (toString_hex (buffer_of r1) = toString_hex (buffer_of r2) -> r1 = r2)
  /\ String.length (toString_hex (buffer_of r1)) = 8%nat
  /\ isValidCode (toString_hex (buffer_of r1)) = true.
Proof.
  split; [|split].
  - intros H. apply toString_hex_inj in H.
    + destruct r1 as [[[a b] c] d], r2 as [[[a' b'] c'] d']. simpl in H. congruence.
    + now destruct r1 as [[[a b] c] d], r2 as [[[a' b'] c'] d'].
  - rewrite toString_hex_length. now destruct r1 as [[[a b] c] d].
  - unfold isValidCode. rewrite toString_hex_length.
    replace (Nat.eqb (2 * length (buffer_of r1)) 8) with true
      by now destruct r1 as [[[a b] c] d].
    simpl. apply forallb_forall. intros c Hc. apply lower_hex_any_case.
    pose proof (toString_hex_lower (buffer_of r1)) as H.
    rewrite forallb_forall in H. now apply H.
Qed.

Lemma booking_codes_witness :
  toString_hex (buffer_of sample_random) = "0aff009c"
  /\ (toString_hex (buffer_of sample_random)
      = toString_hex (buffer_of (x0a, xff, x00, x9c)) ->
      sample_random = (x0a, xff, x00, x9c)).
Proof.
  split; [reflexivity|].
  exact (proj1 (booking_codes sample_random (x0a, xff, x00, x9c))).
Defined.

(** X14: [parseInt] of a number.  [parseInt(String(n), 10)] is [n] for every
    safe integer [n], so a room id, a duration or a number of minutes sent
    in a JSON body or printed into a URL is read back as it was.  It is not
    so for every integer: the text of [2^53 + 1] is that of [2^53], and from
    [1e21] on the text is in exponent form, of which [parseInt] reads the
    digits before the point or the exponent. *)
Theorem parseInt_of_a_number n :
  Z.abs n <= MAX_SAFE_INTEGER ->
  parseInt (JNum n) = Finite n /\ parseInt (JStr (number_toString n)) = Finite n
  /\ int (number_toString n) = Finite n
  /\ parseInt (JNum (2 ^ 53 + 1)) = Finite (2 ^ 53)
  /\ toString (JNum (10 ^ 21)) = "1e+21" /\ parseInt (JNum (10 ^ 21)) = Finite 1
  /\ toString (JNum (2 ^ 70)) = "1.1805916207174113e+21"
  /\ parseInt (JNum (2 ^ 70)) = Finite 1.
Proof.
  intros Hn. split; [now apply parseInt_JNum|].
  split; [now apply parseInt_number_toString|]. split.
  - unfold int. now rewrite parseInt_number_toString.
  - vm_compute. repeat split; reflexivity.
Qed.

Lemma parseInt_of_a_number_witness :
  parseInt (JNum 1800600) = Finite 1800600
  /\ number_toString (-42) = "-42" /\ int "-42" = Finite (-42).
Proof.
  destruct (parseInt_of_a_number 1800600 ltac:(unfold MAX_SAFE_INTEGER; lia))
    as (H1 & _).
  split; [exact H1|]. split; reflexivity.
Defined.


Section Routes.

Lemma digit_char_no_slash d : 0 <= d < 10 -> Ascii.eqb (digit_char d) "/" = false.
Proof.
  intros H. destruct (digit_cases d H) as [E|[E|[E|[E|[E|[E|[E|[E|[E|E]]]]]]]]];
    subst d; reflexivity.
Qed.

Lemma digits_of_no_slash fuel :
  forall n acc, no_slash acc = true -> no_slash (digits_of fuel n acc) = true.
Proof.
  induction fuel as [|f IH]; intros n acc Hacc; [exact Hacc|].
  cbn [digits_of].
  assert (Hd : no_slash (String (digit_char (n mod 10)) acc) = true).
  { unfold no_slash. simpl. rewrite digit_char_no_slash; [exact Hacc|].
    apply Z.mod_pos_bound. lia. }
  destruct (n / 10 =? 0); [exact Hd|]. now apply IH.
Qed.

Lemma number_toString_no_slash n :
  Z.abs n <= MAX_SAFE_INTEGER -> no_slash (number_toString n) = true.
Proof.
  unfold MAX_SAFE_INTEGER. intros Hn. unfold number_toString, decimal.
  destruct (Z.ltb_spec (Z.abs n) (2 ^ 53)) as [_|]; [|lia].
  assert (H := digits_of_no_slash (S (Z.to_nat (Z.log2 (Z.abs n)))) (Z.abs n)
                 EmptyString eq_refl).
  destruct (n <? 0); [|exact H]. unfold no_slash in *. simpl. exact H.
Qed.

Lemma until_slash_app s rest :
  no_slash s = true -> until_slash (s ++ String "/" rest) = s.
Proof.
  unfold no_slash. induction s as [|c s IH]; simpl; [reflexivity|].
  intros [Hc Hs]%andb_true_iff. apply negb_true_iff in Hc. rewrite Hc.
  now rewrite IH.
Qed.

Lemma substring_all s : String.substring 0 (String.length s) s = s.
Proof. induction s as [|c s IH]; simpl; [reflexivity|now rewrite IH]. Qed.

(** The [:id] that express hands to the handler is the number the page
    printed into the path. *)
Lemma route_id_room n rest :
  Z.abs n <= MAX_SAFE_INTEGER ->
  route_id ("/room/" ++ number_toString n ++ String "/" rest) = number_toString n.
Proof.
  intros Hn. unfold route_id.
  change (String.length ("/room/" ++ ?x)) with (6 + String.length x)%nat.
  replace (6 + String.length (number_toString n ++ String "/" rest) - 6)%nat
    with (String.length (number_toString n ++ String "/" rest)) by lia.
  change (String.substring 6 ?m ("/room/" ++ ?x)) with (String.substring 0 m x).
  rewrite substring_all. now apply until_slash_app, number_toString_no_slash.
Qed.

End Routes.

Section Forms.

Lemma int_finite val : int val = NaN \/ exists n, int val = Finite n.
Proof. unfold int. destruct (parseInt_string val); simpl; eauto. Qed.

(** A request with a code that is not empty is not answered "bookingCode
    required". *)
Lemma extend_has_code id code extraMinutes t_expire t_timer w :
  code <> EmptyString ->
  snd (post_extend id (JStr code) extraMinutes t_expire t_timer w)
  <> error 400 "bookingCode required".
Proof.
  intros Hne. unfold post_extend. simpl truthy.
  destruct (String.eqb_spec code EmptyString); [contradiction|]. simpl negb. cbv iota.
  destruct (parseInt extraMinutes) as [k| | |]; try discriminate.
  destruct (k <=? 0); [discriminate|].
  destruct (expireRoomsIfNeeded _ _ _) as [rs w1].
  destruct (find_param _ rs) as [[i r]|]; [|discriminate].
  destruct (negb (occupied r) || negb (has_endTime r)); [discriminate|].
  destruct (negb (same_code _ _)); discriminate.
Qed.

(** Nor, when the minutes are read as a positive integer, "extraMinutes must
    be a positive integer". *)
Lemma extend_has_minutes id code extraMinutes t_expire t_timer w :
  positive_integer (parseInt extraMinutes) = true ->
  snd (post_extend id code extraMinutes t_expire t_timer w)
  <> error 400 "extraMinutes must be a positive integer".
Proof.
  intros Hm. unfold post_extend.
  destruct (negb (truthy code)); [discriminate|].
  destruct (parseInt extraMinutes) as [k| | |]; try discriminate Hm.
  simpl in Hm. apply Z.ltb_lt in Hm. destruct (Z.leb_spec k 0); [lia|].
  destruct (expireRoomsIfNeeded _ _ _) as [rs w1].
  destruct (find_param _ rs) as [[i r]|]; [|discriminate].
  destruct (negb (occupied r) || negb (has_endTime r)); [discriminate|].
  destruct (negb (same_code _ _)); discriminate.
Qed.

End Forms.

(** X15: what the manage page sends passes the server's validation.  When
    [extendBooking] posts, the path is [/room/<id>/extend] for the room id
    typed (a finite Number, not zero), the code is an eight-character
    hexadecimal string and the minutes are a positive number; the server
    never answers "bookingCode required".  When the id and the minutes are
    safe integers the server reads the same id and the same minutes back and
    never answers "extraMinutes must be a positive integer".  It is not so
    for every id: for the id 1000000000000000000000 the page posts to
    [/room/1e+21/extend], and the server reads the id 1. *)
Theorem extend_form_passes_validation roomIdInput codeInput minutesInput
    path code minutes :
  extendBooking roomIdInput codeInput minutesInput = Post path code minutes ->
  (exists rid k,
     int roomIdInput = Finite rid /\ rid <> 0
     /\ path = ("/room/" ++ number_toString rid ++ "/extend")%string
     /\ code = JStr (trim codeInput) /\ isValidCode (trim codeInput) = true
     /\ int minutesInput = Finite k /\ 0 < k /\ minutes = JNum k
     /\ (forall t_expire t_timer w,
           snd (post_extend (route_id path) code minutes t_expire t_timer w)
           <> error 400 "bookingCode required")
     /\ (Z.abs rid <= MAX_SAFE_INTEGER ->
         parseInt_string (route_id path) = Finite rid)
     /\ (k <= MAX_SAFE_INTEGER ->
         parseInt minutes = Finite k
         /\ forall t_expire t_timer w,
              snd (post_extend (route_id path) code minutes t_expire t_timer w)
              <> error 400 "extraMinutes must be a positive integer"))
  /\ extendBooking "1000000000000000000000" "0aff009c" "5"
     = Post "/room/1e+21/extend" (JStr "0aff009c") (JNum 5)
  /\ parseInt_string (route_id "/room/1e+21/extend") = Finite 1.
Proof.
  intros H. split; [|split; vm_compute; reflexivity].
  revert H. unfold extendBooking.
  destruct (int_finite roomIdInput) as [->|[rid Hrid]]; [discriminate|].
  rewrite Hrid. simpl falsy_number.
  destruct (Z.eqb_spec rid 0) as [|Hnz]; [discriminate|].
  destruct (String.eqb_spec (trim codeInput) EmptyString) as [|Hne]; [discriminate|].
  destruct (isValidCode (trim codeInput)) eqn:Hv; [|discriminate]. simpl orb.
  destruct (int_finite minutesInput) as [->|[k Hk]]; [discriminate|].
  rewrite Hk. simpl falsy_number. simpl le_zero.
  destruct (Z.eqb_spec k 0) as [|Hkz]; [discriminate|].
  destruct (Z.leb_spec k 0) as [|Hpos]; [discriminate|].
  cbn [orb Number_toString json_of json_number].
  intros [= <- <- <-]. exists rid, k.
  repeat (split; [solve [auto]|]).
  split; [intros; now apply extend_has_code|]. split.
  - intros Hsafe. rewrite route_id_room by exact Hsafe.
    now apply parseInt_number_toString.
  - intros Hsafe.
    assert (Hread : parseInt (JNum k) = Finite k) by (apply parseInt_JNum; lia).
    split; [exact Hread|]. intros. apply extend_has_minutes.
    rewrite Hread. simpl. now apply Z.ltb_lt.
Qed.

Lemma extend_form_passes_validation_witness :
  extendBooking " 2" " 0AFF009c " "15"
  = Post "/room/2/extend" (JStr "0AFF009c") (JNum 15)
  /\ exists rid k,
       int " 2" = Finite rid /\ rid <> 0
       /\ "/room/2/extend" = ("/room/" ++ number_toString rid ++ "/extend")%string
       /\ JStr "0AFF009c" = JStr (trim " 0AFF009c ")
       /\ isValidCode (trim " 0AFF009c ") = true
       /\ int "15" = Finite k /\ 0 < k /\ JNum 15 = JNum k.
Proof.
  split; [reflexivity|].
  destruct (extend_form_passes_validation " 2" " 0AFF009c " "15" "/room/2/extend"
              (JStr "0AFF009c") (JNum 15) eq_refl)
    as [(rid & k & H1 & H2 & H3 & H4 & H5 & H6 & H7 & H8 & _) _].
  exists rid, k. repeat split; assumption.
Defined.

(** X16: the same for [releaseBooking]: when it posts, after the user has
    confirmed, the path is [/room/<id>/release] for the room id typed, the
    code is a valid one and the server never answers "bookingCode required";
    when the id is a safe integer the server reads the same id back. *)
Theorem release_form_passes_validation roomIdInput codeInput confirmed path code x :
  releaseBooking roomIdInput codeInput confirmed = Some (Post path code x) ->
  confirmed = true
  /\ exists rid,
       int roomIdInput = Finite rid /\ rid <> 0
       /\ path = ("/room/" ++ number_toString rid ++ "/release")%string
       /\ code = JStr (trim codeInput) /\ isValidCode (trim codeInput) = true
       /\ (forall w, snd (post_release (route_id path) code w)
                     <> error 400 "bookingCode required")
       /\ (Z.abs rid <= MAX_SAFE_INTEGER ->
           parseInt_string (route_id path) = Finite rid).
Proof.
  unfold releaseBooking.
  destruct (int_finite roomIdInput) as [->|[rid Hrid]]; [discriminate|].
  rewrite Hrid. simpl falsy_number.
  destruct (Z.eqb_spec rid 0) as [|Hnz]; [discriminate|].
  destruct (String.eqb_spec (trim codeInput) EmptyString) as [|Hne]; [discriminate|].
  destruct (isValidCode (trim codeInput)) eqn:Hv; [|discriminate]. simpl orb.
  destruct confirmed; [|discriminate]. cbn [negb Number_toString].
  intros [= <- <- <-]. split; [reflexivity|]. exists rid.
  repeat (split; [solve [auto]|]). split.
  - intros w H. revert H. unfold post_release. simpl truthy.
    destruct (String.eqb_spec (trim codeInput) EmptyString); [contradiction|].
    simpl negb. cbv iota.
    destruct (find_param _ _) as [[i r]|]; [|discriminate].
    destruct (negb (occupied r)); [discriminate|].
    destruct (negb (same_code _ _)); discriminate.
  - intros Hsafe. rewrite route_id_room by exact Hsafe.
    now apply parseInt_number_toString.
Qed.

Lemma release_form_passes_validation_witness :
  releaseBooking "2" "0aff009c" true
  = Some (Post "/room/2/release" (JStr "0aff009c") JUndefined)
  /\ parseInt_string (route_id "/room/2/release") = Finite 2.
Proof.
  split; [reflexivity|].
  destruct (release_form_passes_validation "2" "0aff009c" true "/room/2/release"
              (JStr "0aff009c") JUndefined eq_refl)
    as (_ & rid & H1 & _ & _ & _ & _ & _ & H7).
  vm_compute in H1. injection H1 as <-. apply H7. unfold MAX_SAFE_INTEGER. lia.
Defined.

(* ===================================================================== *)
(** * Text: escaping, trimming and the countdown *)
(* ===================================================================== *)

Section Escaping.

#[local] Arguments String.append !s1 s2 : simpl nomatch.

Lemma string_app_assoc (a b c : string) :
  (a ++ (b ++ c))%string = ((a ++ b) ++ c)%string.
Proof. induction a as [|x a IH]; simpl; [reflexivity|now rewrite IH]. Qed.

Lemma replace_all_app c by_ a b :
  replace_all c by_ (a ++ b) = (replace_all c by_ a ++ replace_all c by_ b)%string.
Proof.
  induction a as [|x a IH]; simpl; [reflexivity|].
  destruct (Ascii.eqb x c); simpl; rewrite IH; [|reflexivity].
  apply string_app_assoc.
Qed.

(** The five passes of [escapeHTML], on a string. *)
Lemma five_passes_app a b :
  replace_all "'" "&#39;" (replace_all double_quote "&quot;" (replace_all ">" "&gt;"
    (replace_all "<" "&lt;" (replace_all "&" "&amp;" (a ++ b)))))
  = (replace_all "'" "&#39;" (replace_all double_quote "&quot;" (replace_all ">" "&gt;"
       (replace_all "<" "&lt;" (replace_all "&" "&amp;" a))))
     ++ replace_all "'" "&#39;" (replace_all double_quote "&quot;" (replace_all ">" "&gt;"
          (replace_all "<" "&lt;" (replace_all "&" "&amp;" b)))))%string.
Proof. now rewrite !replace_all_app. Qed.

Lemma five_passes_char c :
  replace_all "'" "&#39;" (replace_all double_quote "&quot;" (replace_all ">" "&gt;"
    (replace_all "<" "&lt;" (replace_all "&" "&amp;" (String c EmptyString)))))
  = escape_char c.
Proof. destruct c as [[] [] [] [] [] [] [] []]; reflexivity. Qed.

Lemma five_passes s :
  replace_all "'" "&#39;" (replace_all double_quote "&quot;" (replace_all ">" "&gt;"
    (replace_all "<" "&lt;" (replace_all "&" "&amp;" s))))
  = escape_each s.
Proof.
  induction s as [|c s IH]; [reflexivity|].
  change (String c s) with (String c EmptyString ++ s)%string.
  rewrite five_passes_app, five_passes_char, IH. reflexivity.
Qed.

Lemma list_ascii_app a b :
  list_ascii_of_string (a ++ b) = (list_ascii_of_string a ++ list_ascii_of_string b)%list.
Proof. induction a as [|x a IH]; simpl; [reflexivity|now rewrite IH]. Qed.

Lemma escape_char_clean c :
  forallb (fun x => negb (markup_char x)) (list_ascii_of_string (escape_char c)) = true.
Proof. destruct c as [[] [] [] [] [] [] [] []]; reflexivity. Qed.

Lemma escape_each_clean s :
  forallb (fun x => negb (markup_char x)) (list_ascii_of_string (escape_each s)) = true.
Proof.
  induction s as [|c s IH]; [reflexivity|]. simpl.
  now rewrite list_ascii_app, forallb_app, escape_char_clean, IH.
Qed.

End Escaping.

(** X17: the five successive replacements of [escapeHTML] amount to replacing
    each character once by its entity (the order [&] first makes the later
    entities safe from being escaped again), and the result never contains
    [<], [>], a double quote or a single quote. *)
Theorem escapeHTML_is_safe v :
  let text := match v with JUndefined => EmptyString | _ => toString v end in
  escapeHTML v = escape_each text
  /\ forallb (fun c => negb (markup_char c)) (list_ascii_of_string (escapeHTML v)) = true.
Proof.
  intros text.
  assert (H : escapeHTML v = escape_each text) by (unfold escapeHTML; apply five_passes).
  split; [exact H|]. rewrite H. apply escape_each_clean.
Qed.

Section Trimming.

Lemma trimEnd_idem s : trimEnd (trimEnd s) = trimEnd s.
Proof.
  induction s as [|c s IH]; [reflexivity|]. simpl.
  destruct (trimEnd s) as [|d r] eqn:E.
  - destruct (is_space c) eqn:Hc; [reflexivity|]. simpl. now rewrite Hc.
  - change (trimEnd (String c (String d r))) with
      (match trimEnd (String d r) with
       | EmptyString => if is_space c then EmptyString else String c EmptyString
       | rest' => String c rest'
       end).
    now rewrite IH.
Qed.

Lemma trimStart_head s :
  match trimStart s with
  | EmptyString => True
  | String c _ => is_space c = false
  end.
Proof.
  induction s as [|c s IH]; simpl; [exact I|].
  destruct (is_space c) eqn:Hc; [exact IH|exact Hc].
Qed.

Lemma trimStart_trimEnd x :
  match x with EmptyString => True | String c _ => is_space c = false end ->
  trimStart (trimEnd x) = trimEnd x.
Proof.
  destruct x as [|c rest]; [reflexivity|]. intros Hc. simpl.
  destruct (trimEnd rest); [rewrite Hc|]; simpl; now rewrite Hc.
Qed.

End Trimming.

(** X18: [trim] leaves nothing to trim: the result has no white space at
    either end and trimming it again changes nothing.  So the name and the
    purpose a booking stores (the trimmed texts [nonblank] yields) are never
    empty and never padded. *)
Theorem trim_is_idempotent s :
  trimStart (trim s) = trim s /\ trimEnd (trim s) = trim s /\ trim (trim s) = trim s
  /\ forall v stored, nonblank v = Some stored ->
       stored <> EmptyString /\ trim stored = stored.
Proof.
  assert (H1 : forall x, trimStart (trim x) = trim x)
    by (intros x; apply trimStart_trimEnd, trimStart_head).
  assert (H2 : forall x, trimEnd (trim x) = trim x) by (intros x; apply trimEnd_idem).
  assert (H3 : forall x, trim (trim x) = trim x).
  { intros x. unfold trim at 1. now rewrite H1, H2. }
  repeat split; auto.
  - destruct v as [| |b|n|x]; try discriminate. simpl in H.
    destruct (String.eqb_spec (trim x) EmptyString); [discriminate|].
    injection H as <-. assumption.
  - destruct v as [| |b|n|x]; try discriminate. simpl in H.
    destruct (String.eqb (trim x) EmptyString); [discriminate|].
    injection H as <-. apply H3.
Qed.

Lemma trim_is_idempotent_witness :
  nonblank (JStr "  Ada Lovelace ") = Some "Ada Lovelace"
  /\ "Ada Lovelace" <> EmptyString /\ trim "Ada Lovelace" = "Ada Lovelace".
Proof.
  split; [reflexivity|].
  exact (proj2 (proj2 (proj2 (trim_is_idempotent EmptyString)))
           (JStr "  Ada Lovelace ") "Ada Lovelace" eq_refl).
Defined.

Section Countdown.

Lemma two_digits n :
  0 <= n < 60 -> String.length (padStart 2 "0" (number_toString n)) = 2%nat.
Proof.
  intros H. assert (Hk : exists k, n = Z.of_nat k /\ (k < 60)%nat)
    by (exists (Z.to_nat n); lia).
  destruct Hk as (k & -> & Hk).
  do 60 (destruct k as [|k]; [reflexivity|]). lia.
Qed.

Lemma number_toString_head n :
  0 <= n <= MAX_SAFE_INTEGER ->
  exists d rest, 0 <= d < 10 /\ number_toString n = String (digit_char d) rest.
Proof.
  unfold MAX_SAFE_INTEGER. intros Hn. unfold number_toString, decimal.
  destruct (Z.ltb_spec (Z.abs n) (2 ^ 53)) as [_|]; [|lia].
  destruct (Z.ltb_spec n 0); [lia|].
  destruct (digits_of_head (Z.to_nat (Z.log2 (Z.abs n))) (Z.abs n) EmptyString
              (Z.abs_nonneg n)) as (d & rest & Hd & E).
  eauto.
Qed.

Lemma digit_char_not_A d : 0 <= d < 10 -> digit_char d <> "A"%char.
Proof.
  intros H. destruct (digit_cases d H) as [E|[E|[E|[E|[E|[E|[E|[E|[E|E]]]]]]]]];
    subst d; discriminate.
Qed.

End Countdown.

(** X19: the countdown text.  When no time is left, also at the very end of
    the booking (a difference of zero), it says "Available".  While time is
    left (a difference within the safe integers) it never does: it shows
    hours, minutes and seconds that add up to the whole seconds left, with
    minutes and seconds below 60 and always two digits wide after the first
    field; the hours are shown only when there are any. *)
Theorem countdown_text_shape diff :
  (diff <= 0 -> countdown_text diff = "Available")
  /\ (0 < diff <= MAX_SAFE_INTEGER ->
      countdown_text diff <> "Available"
      /\ exists h m s,
           0 <= h /\ 0 <= m < 60 /\ 0 <= s < 60
           /\ h * 3600 + m * 60 + s = diff / 1000
           /\ String.length (padStart 2 "0" (number_toString m)) = 2%nat
           /\ String.length (padStart 2 "0" (number_toString s)) = 2%nat
           /\ countdown_text diff
              = (if (0 <? h)%Z
                 then number_toString h ++ "h " ++ padStart 2 "0" (number_toString m)
                      ++ "m " ++ padStart 2 "0" (number_toString s) ++ "s"
                 else number_toString m ++ "m " ++ padStart 2 "0" (number_toString s)
                      ++ "s")%string).
Proof.
  split.
  { intros Hle. unfold countdown_text. destruct (Z.leb_spec diff 0); [reflexivity|lia]. }
  intros [Hpos Hsafe].
  set (total := diff / 1000).
  assert (Ht : 0 <= total) by (apply Z.div_pos; lia).
  assert (Htd : total <= diff) by (apply Z.div_le_upper_bound; lia).
  assert (Hm : 0 <= total mod 3600 < 3600) by (apply Z.mod_pos_bound; lia).
  assert (Hs : 0 <= total mod 60 < 60) by (apply Z.mod_pos_bound; lia).
  assert (Hmm : 0 <= total mod 3600 / 60 < 60).
  { split; [apply Z.div_pos; lia|apply Z.div_lt_upper_bound; lia]. }
  assert (Hh : 0 <= total / 3600 <= MAX_SAFE_INTEGER).
  { split; [apply Z.div_pos; lia|].
    transitivity total; [apply Z.div_le_upper_bound; lia|lia]. }
  assert (Htext : countdown_text diff
            = (if (0 <? total / 3600)%Z
               then number_toString (total / 3600) ++ "h "
                    ++ padStart 2 "0" (number_toString (total mod 3600 / 60))
                    ++ "m " ++ padStart 2 "0" (number_toString (total mod 60)) ++ "s"
               else number_toString (total mod 3600 / 60) ++ "m "
                    ++ padStart 2 "0" (number_toString (total mod 60)) ++ "s")%string).
  { unfold countdown_text. destruct (Z.leb_spec diff 0); [lia|]. reflexivity. }
  split.
  { rewrite Htext.
    assert (Hsafe60 : 60 <= MAX_SAFE_INTEGER) by (unfold MAX_SAFE_INTEGER; lia).
    destruct (number_toString_head (total / 3600) Hh) as (d1 & r1 & Hd1 & E1).
    destruct (number_toString_head (total mod 3600 / 60) ltac:(lia))
      as (d2 & r2 & Hd2 & E2).
    destruct (0 <? total / 3600); [rewrite E1|rewrite E2]; simpl; intros [= E _].
    - exact (digit_char_not_A d1 Hd1 E).
    - exact (digit_char_not_A d2 Hd2 E). }
  exists (total / 3600), ((total mod 3600) / 60), (total mod 60).
  split; [lia|]. split; [exact Hmm|]. split; [exact Hs|].
  split.
  { pose proof (Z.div_mod total 3600 ltac:(lia)) as E1.
    pose proof (Z.div_mod (total mod 3600) 60 ltac:(lia)) as E2.
    pose proof (Z.div_mod total 60 ltac:(lia)) as E3.
    pose proof (Z.mod_pos_bound (total mod 3600) 60 ltac:(lia)) as B.
    lia. }
  split; [now apply two_digits|]. split; [now apply two_digits|].
  exact Htext.
Qed.

Lemma countdown_text_shape_witness :
  countdown_text 3725000 = "1h 02m 05s" /\ countdown_text 59999 = "0m 59s"
  /\ countdown_text 0 = "Available"
  /\ exists h m s,
       0 <= h /\ 0 <= m < 60 /\ 0 <= s < 60 /\ h * 3600 + m * 60 + s = 3725000 / 1000.
Proof.
  split; [reflexivity|]. split; [reflexivity|].
  destruct (countdown_text_shape 3725000) as [_ H].
  destruct (countdown_text_shape 0) as [H0 _].
  split; [apply H0; lia|].
  destruct (H ltac:(unfold MAX_SAFE_INTEGER; lia))
    as (_ & h & m & s & H1 & H2 & H3 & H4 & _).
  exists h, m, s. auto.
Defined.


(* ===================================================================== *)
(** * Reconciliation at server start *)
(* ===================================================================== *)

Section Startup.

Implicit Types (t : Timer) (r : Room.t) (rooms : list Room.t) (w : World).

Lemma find_room_NoDup rooms r :
  NoDup (map Room.id rooms) -> In r rooms ->
  exists i, find_room (Room.id r) rooms = Some (i, r).
Proof.
  induction rooms as [|x rest IH]; simpl; [intros _ []|].
  intros [Hx Hnd]%NoDup_cons [->|Hin].
  - rewrite Z.eqb_refl. eauto.
  - destruct (Z.eqb_spec (Room.id x) (Room.id r)) as [E|E].
    + exfalso. apply Hx. rewrite E. apply list_elem_of_In. now apply in_map.
    + destruct (IH Hnd Hin) as [i ->]. simpl. eauto.
Qed.

Lemma find_room_schedule_other now roomId rid w :
  rid <> roomId ->
  find_room rid (readRooms (scheduleAutoRelease now roomId w))
  = find_room rid (readRooms w).
Proof.
  intros Hne. unfold scheduleAutoRelease. rewrite readRooms_cancel_timer.
  destruct (find_room roomId (readRooms w)) as [[i r]|] eqn:F;
    [|now rewrite readRooms_cancel_timer].
  destruct (negb (occupied r) || negb (has_endTime r));
    [now rewrite readRooms_cancel_timer|].
  destruct (_ <=? 0).
  - rewrite readRooms_writeRooms. apply (find_room_insert_ne roomId _ _ i r); auto.
    now apply find_room_Some in F.
  - change (readRooms (let '(h, w2) := setTimeout _ _ _ _ in _))
      with (readRooms (cancel_timer roomId w)).
    now rewrite readRooms_cancel_timer.
Qed.

Lemma schedule_frees_lapsed now roomId w i r e :
  find_room roomId (readRooms w) = Some (i, r) ->
  occupied r = true -> has_endTime r = true -> Room.endTime r = Some e -> e <= now ->
  find_room roomId (readRooms (scheduleAutoRelease now roomId w))
  = Some (i, make_available r).
Proof.
  intros F Hocc Hend He Hle. unfold scheduleAutoRelease.
  rewrite readRooms_cancel_timer, F, Hocc, Hend, He. simpl.
  destruct (Z.leb_spec (e - now) 0); [|lia].
  rewrite readRooms_writeRooms. apply (find_room_insert _ _ _ r); [exact F|].
  now apply find_room_Some in F.
Qed.

(** The loop of the start-up block, for rooms with distinct ids that are in
    the file as the loop sees them. *)
Lemma startup_loop_spec clock todo :
  forall n w,
    tracked w -> NoDup (map Room.id todo) ->
    (forall r, In r todo -> exists i, find_room (Room.id r) (readRooms w) = Some (i, r)) ->
    let w' := startup_loop clock n todo w in
    tracked w'
    /\ (forall rid, ~ In rid (map Room.id todo) ->
          timers_of rid w' = timers_of rid w
          /\ find_room rid (readRooms w') = find_room rid (readRooms w))
    /\ (forall r e, In r todo -> occupied r = true -> has_endTime r = true ->
          Room.endTime r = Some e ->
          ((forall m, clock m < e /\ e - clock m <= TIMEOUT_MAX) ->
           exists h, timers_of (Room.id r) w' = [mkTimer h (Room.id r) e])
          /\ ((forall m, e <= clock m) ->
              exists i, find_room (Room.id r) (readRooms w') = Some (i, make_available r))).
Proof.
  induction todo as [|x rest IH]; intros n w Ht Hnd Hfile; cbn [startup_loop].
  - split; [exact Ht|]. split; [auto|]. intros r e [].
  - apply NoDup_cons in Hnd as [Hx Hnd]. simpl in Hnd.
    assert (Hx' : ~ In (Room.id x) (map Room.id rest))
      by (intros H; apply Hx; now apply list_elem_of_In).
    destruct (Hfile x (or_introl eq_refl)) as [ix Fx].
    destruct (occupied x && has_endTime x) eqn:Hlive.
    + (* a timer is scheduled for [x] *)
      set (w1 := scheduleAutoRelease (clock n) (Room.id x) w).
      assert (Ht1 : tracked w1) by now apply tracked_schedule.
      assert (Hfile1 : forall r, In r rest ->
                exists i, find_room (Room.id r) (readRooms w1) = Some (i, r)).
      { intros r Hr. destruct (Hfile r (or_intror Hr)) as [i Fr].
        exists i. unfold w1. rewrite find_room_schedule_other; [exact Fr|].
        intros E. apply Hx'. rewrite <- E. now apply in_map. }
      destruct (IH (S n) w1 Ht1 Hnd Hfile1) as (Ht' & Hkeep & Hrest).
      split; [exact Ht'|]. split.
      * intros rid Hrid. simpl in Hrid.
        destruct (Hkeep rid ltac:(tauto)) as [K1 K2]. rewrite K1, K2.
        assert (Hne : rid <> Room.id x) by (intros ->; tauto).
        unfold w1. split; [now apply schedule_other_timers|].
        now apply find_room_schedule_other.
      * intros r e [<-|Hr] Hocc Hend He; [|now apply Hrest].
        destruct (Hkeep (Room.id x) Hx') as [K1 K2]. rewrite K1, K2. split.
        -- intros Hclock. destruct (Hclock n) as [Hlt Hmax].
           unfold w1. rewrite (schedule_timers _ _ _ Ht), Fx, Hocc, Hend, He.
           simpl default. destruct (Z.ltb_spec (clock n) e); [|lia]. simpl.
           destruct (Z.leb_spec (e - clock n) TIMEOUT_MAX); [|lia].
           exists (nextHandle w). do 2 f_equal. lia.
        -- intros Hclock. exists ix. unfold w1.
           now apply (schedule_frees_lapsed _ _ _ _ _ e).
    + (* nothing to do for [x] *)
      assert (Hfile1 : forall r, In r rest ->
                exists i, find_room (Room.id r) (readRooms w) = Some (i, r))
        by (intros r Hr; apply Hfile; now right).
      destruct (IH n w Ht Hnd Hfile1) as (Ht' & Hkeep & Hrest).
      split; [exact Ht'|]. split.
      * intros rid Hrid. apply Hkeep. simpl in Hrid. tauto.
      * intros r e [<-|Hr] Hocc Hend He; [|now apply Hrest].
        rewrite Hocc, Hend in Hlive. discriminate.
Qed.

End Startup.

(** X20: reconciliation at start.  On a file whose rooms have distinct ids,
    the start-up block leaves every occupied room whose booking is still
    running (and ends no further ahead than [TIMEOUT_MAX]) with exactly one
    pending timer, due at its [endTime]; and every occupied room whose
    booking has already lapsed is written to [rooms.json] as Available. *)
Theorem startup_reconciles clock f r e :
  NoDup (map Room.id (default [] f)) ->
  In r (default [] f) ->
  occupied r = true -> has_endTime r = true -> Room.endTime r = Some e ->
  ((forall n, clock n < e /\ e - clock n <= TIMEOUT_MAX) ->
   exists h, timers_of (Room.id r) (startup clock (boot f)) = [mkTimer h (Room.id r) e])
  /\ ((forall n, e <= clock n) ->
      exists i, find_room (Room.id r) (readRooms (startup clock (boot f)))
                = Some (i, make_available r)).
Proof.
  intros Hnd Hin Hocc Hend He.
  destruct (boot_timers f) as [Ht _].
  destruct (startup_loop_spec clock (readRooms (boot f)) O (boot f) Ht Hnd)
    as (_ & _ & H).
  - intros x Hx. now apply find_room_NoDup.
  - now apply (H r e).
Qed.

Lemma startup_reconciles_witness :
  (exists h, timers_of 2 (startup (fun _ => 500) (boot (Some [room_A; room_B])))
             = [mkTimer h 2 1000])
  /\ (exists i, find_room 2 (readRooms (startup (fun _ => 2000)
                                          (boot (Some [room_A; room_B]))))
                = Some (i, make_available room_B)).
Proof.
  assert (Hnd : NoDup (map Room.id (default [] (Some [room_A; room_B])))).
  { simpl. repeat constructor; rewrite ?list_elem_of_In; simpl; intuition discriminate. }
  split.
  - apply (proj1 (startup_reconciles (fun _ => 500) (Some [room_A; room_B]) room_B 1000
                    Hnd ltac:(simpl; auto) eq_refl eq_refl eq_refl)).
    intros n. unfold TIMEOUT_MAX. lia.
  - apply (proj2 (startup_reconciles (fun _ => 2000) (Some [room_A; room_B]) room_B 1000
                    Hnd ltac:(simpl; auto) eq_refl eq_refl eq_refl)).
    intros n. lia.
Defined.

(* ===================================================================== *)
(** * The end time of a booking never goes back *)
(* ===================================================================== *)

Section EndTimes.

Implicit Types (r : Room.t) (rooms : list Room.t) (w : World).

Lemma only_freed_refl rooms : only_freed rooms rooms.
Proof. intros i. now left. Qed.

Lemma only_freed_insert rooms i r :
  rooms !! i = Some r -> only_freed rooms (<[i := make_available r]> rooms).
Proof.
  intros Hi j. destruct (Nat.eq_dec i j) as [<-|Hne].
  - right. exists r. split; [exact Hi|].
    apply list_lookup_insert_eq. eapply lookup_lt_Some; eauto.
  - left. now apply list_lookup_insert_ne.
Qed.

Lemma only_freed_expire now rooms : only_freed rooms (fst (expire_loop now rooms)).
Proof.
  intros i. rewrite expire_loop_lookup. destruct (rooms !! i) as [r|]; [|now left].
  simpl. destruct (due now r); [right; eauto|now left].
Qed.

Lemma only_freed_expireRoomsIfNeeded now w :
  only_freed (readRooms w) (readRooms (snd (expireRoomsIfNeeded now (readRooms w) w))).
Proof.
  rewrite expireRoomsIfNeeded_file, expireRoomsIfNeeded_rooms. apply only_freed_expire.
Qed.

Lemma only_freed_schedule now roomId w :
  only_freed (readRooms w) (readRooms (scheduleAutoRelease now roomId w)).
Proof.
  unfold scheduleAutoRelease. rewrite readRooms_cancel_timer.
  destruct (find_room roomId (readRooms w)) as [[i r]|] eqn:F;
    [|rewrite readRooms_cancel_timer; apply only_freed_refl].
  destruct (negb (occupied r) || negb (has_endTime r));
    [rewrite readRooms_cancel_timer; apply only_freed_refl|].
  destruct (_ <=? 0).
  - rewrite readRooms_writeRooms. apply only_freed_insert.
    now apply find_room_Some in F.
  - change (readRooms (let '(h, w2) := setTimeout _ _ _ _ in _))
      with (readRooms (cancel_timer roomId w)).
    rewrite readRooms_cancel_timer. apply only_freed_refl.
Qed.

Lemma only_freed_callback now now' roomId w :
  only_freed (readRooms w) (readRooms (timer_callback now now' roomId w)).
Proof.
  unfold timer_callback.
  destruct (find_room roomId (readRooms w)) as [[i r]|] eqn:F; [|apply only_freed_refl].
  destruct (occupied r && has_endTime r); [|apply only_freed_refl].
  destruct (_ <=? now).
  - change (readRooms (with_timers _ (writeRooms ?x _))) with x.
    apply only_freed_insert. now apply find_room_Some in F.
  - change (readRooms (with_timers _ ?x)) with (readRooms x). apply only_freed_schedule.
Qed.

(** Freeing rooms sets no end time. *)
Lemma only_freed_later rooms rooms' i r r' a b :
  only_freed rooms rooms' ->
  rooms !! i = Some r -> rooms' !! i = Some r' ->
  Room.endTime r = Some a -> Room.endTime r' = Some b -> a <= b.
Proof.
  intros H Hi Hi' Ha Hb. destruct (H i) as [E|(r0 & E1 & E2)].
  - rewrite E, Hi in Hi'. injection Hi' as <-. rewrite Ha in Hb.
    injection Hb as <-. lia.
  - rewrite E2 in Hi'. injection Hi' as <-. discriminate Hb.
Qed.

(** A room rewritten with a later end time, possibly freed afterwards. *)
Lemma rewritten_later rooms0 rooms1 rooms' j r1 rnew i r r' a b :
  only_freed rooms0 rooms1 -> rooms1 !! j = Some r1 ->
  only_freed (<[j := rnew]> rooms1) rooms' ->
  (forall r0 a0 b0, rooms0 !! j = Some r0 -> Room.endTime r0 = Some a0 ->
                    Room.endTime rnew = Some b0 -> a0 <= b0) ->
  rooms0 !! i = Some r -> rooms' !! i = Some r' ->
  Room.endTime r = Some a -> Room.endTime r' = Some b -> a <= b.
Proof.
  intros H01 Hj H1' Hnew Hi Hi' Ha Hb.
  destruct (Nat.eq_dec j i) as [->|Hne].
  - assert (Hins : <[i := rnew]> rooms1 !! i = Some rnew)
      by (apply list_lookup_insert_eq; eapply lookup_lt_Some; eauto).
    destruct (H1' i) as [E|(x & E1 & E2)].
    + rewrite E, Hins in Hi'. injection Hi' as <-. eapply Hnew; eauto.
    + rewrite E2 in Hi'. injection Hi' as <-. discriminate Hb.
  - assert (Hins : <[j := rnew]> rooms1 !! i = rooms1 !! i)
      by now apply list_lookup_insert_ne.
    destruct (H1' i) as [E|(x & E1 & E2)].
    + rewrite E, Hins in Hi'.
      destruct (H01 i) as [E'|(x0 & E1' & E2')].
      * rewrite E', Hi in Hi'. injection Hi' as <-. rewrite Ha in Hb.
        injection Hb as <-. lia.
      * rewrite E2' in Hi'. injection Hi' as <-. discriminate Hb.
    + rewrite E2 in Hi'. injection Hi' as <-. discriminate Hb.
Qed.

(** An end time computed from a time not before a Number [a], by adding a
    positive number of minutes, is not before [a]. *)
Lemma later_end a t k b :
  double_of a = Finite a -> a <= t -> 0 < k ->
  json_number (js_add (Finite t) (milliseconds (Finite k))) = Some b -> a <= b.
Proof.
  intros Ha Hat Hk Hb.
  destruct (milliseconds (Finite k)) as [x| | |] eqn:Hx; try discriminate Hb.
  pose proof (milliseconds_positive k x Hk Hx) as Hpos.
  unfold js_add in Hb.
  destruct (double_of (t + x)) as [v| | |] eqn:Hv; try discriminate Hb.
  injection Hb as <-. apply (double_of_lower_bound a (t + x) v); [lia|exact Ha|exact Hv].
Qed.

End EndTimes.
(** X21: the end time of a booking never goes back.  When only occupied
    rooms have an end time, the end times of the file are Numbers (as every
    number that [JSON.parse] returns is) and the clock does not go back
    inside a request, no step of the server (a read, a booking, an
    extension, a release, a timer firing) replaces the [endTime] of a room by
    an earlier one: it keeps it, moves it forward, or deletes it.  The
    rounding of the sum to a Number does not take it back either. *)
Theorem endTime_never_goes_back env w e w' i r r' a b :
  ends_only_if_occupied w -> stores_numbers w -> clock_forward e ->
  step env w e = Some w' ->
  readRooms w !! i = Some r -> readRooms w' !! i = Some r' ->
  Room.endTime r = Some a -> Room.endTime r' = Some b ->
  a <= b.
Proof.
  intros Hocc Hnum Hclock Hstep Hi Hi' Ha Hb.
  assert (Hfreed : only_freed (readRooms w) (readRooms w') -> a <= b)
    by (intros H; eapply only_freed_later; eauto).
  revert Hstep. unfold step. destruct e; simpl.
  - intros [= E]. apply Hfreed. rewrite <- E. unfold get_rooms.
    pose proof (only_freed_expireRoomsIfNeeded now w) as H.
    destruct (expireRoomsIfNeeded now (readRooms w) w) as [rs w1].
    destruct (mapM _ rs); exact H.
  - intros [= E]. apply Hfreed. rewrite <- E. unfold get_room.
    pose proof (only_freed_expireRoomsIfNeeded now w) as H.
    destruct (expireRoomsIfNeeded now (readRooms w) w) as [rs w1].
    destruct (find_param _ rs) as [[? ?]|]; exact H.
  - unfold post_book.
    destruct (parseInt roomId) as [rid| | |];
      try (intros [= <-]; apply Hfreed, only_freed_refl).
    destruct (parseInt duration) as [d| | |];
      try (intros [= <-]; apply Hfreed, only_freed_refl).
    destruct (Z.leb_spec d 0) as [|Hd]; [intros [= <-]; apply Hfreed, only_freed_refl|].
    destruct (nonblank studentName) as [who|];
      [|intros [= <-]; apply Hfreed, only_freed_refl].
    destruct (nonblank purpose) as [why|];
      [|intros [= <-]; apply Hfreed, only_freed_refl].
    pose proof (only_freed_expireRoomsIfNeeded t_expire w) as H.
    pose proof (expireRoomsIfNeeded_file t_expire w) as Hf.
    pose proof (expireRoomsIfNeeded_rooms t_expire (readRooms w) w) as Hrs.
    destruct (expireRoomsIfNeeded t_expire (readRooms w) w) as [rs w1].
    simpl in H, Hf, Hrs.
    destruct (find_room rid rs) as [[j r1]|] eqn:F;
      [|intros [= <-]; apply Hfreed, H].
    destruct (occupied r1) eqn:Ho1; [intros [= <-]; apply Hfreed, H|].
    simpl. intros [= E]. rewrite <- E in Hi'.
    apply find_room_Some in F as [Fj _].
    rewrite Hf in H.
    eapply (rewritten_later (readRooms w) rs _ j r1); eauto.
    + apply (only_freed_schedule t_timer rid (writeRooms _ w1)).
    + simpl. intros r0 a0 b0 H0 Ha0 Hb0.
      rewrite Hrs, expire_loop_lookup, H0 in Fj. simpl in Fj. injection Fj as Er1.
      assert (In0 : In r0 (readRooms w))
        by (apply list_elem_of_In; eapply list_elem_of_lookup_2; eauto).
      assert (Ho0 : occupied r0 = true) by (apply Hocc; [|rewrite Ha0]; eauto).
      destruct (due t_expire r0) eqn:D; [|congruence].
      unfold due in D. rewrite Ha0 in D.
      apply andb_true_iff in D as [_ D%Z.leb_le]. simpl in Hclock.
      apply (later_end a0 t_book d b0); eauto; lia.
  - intros [= E]. apply Hfreed. rewrite <- E. unfold post_release.
    destruct (negb (truthy bookingCode)); [apply only_freed_refl|].
    destruct (find_param _ (readRooms w)) as [[j x]|] eqn:F; [|apply only_freed_refl].
    destruct (negb (occupied x)); [apply only_freed_refl|].
    destruct (negb (same_code _ _)); [apply only_freed_refl|]. simpl.
    rewrite readRooms_cancel_timer, readRooms_writeRooms.
    apply find_param_Some in F as (rid & _ & F).
    apply only_freed_insert. now apply find_room_Some in F.
  - unfold post_extend.
    destruct (negb (truthy bookingCode));
      [intros [= <-]; apply Hfreed, only_freed_refl|].
    destruct (parseInt extraMinutes) as [k| | |];
      try (intros [= <-]; apply Hfreed, only_freed_refl).
    destruct (Z.leb_spec k 0) as [|Hk]; [intros [= <-]; apply Hfreed, only_freed_refl|].
    pose proof (only_freed_expireRoomsIfNeeded t_expire w) as H.
    pose proof (expireRoomsIfNeeded_file t_expire w) as Hf.
    pose proof (expireRoomsIfNeeded_rooms t_expire (readRooms w) w) as Hrs.
    destruct (expireRoomsIfNeeded t_expire (readRooms w) w) as [rs w1].
    simpl in H, Hf, Hrs.
    destruct (find_param _ rs) as [[j r1]|] eqn:F;
      [|intros [= <-]; apply Hfreed, H].
    destruct (negb (occupied r1) || negb (has_endTime r1)) eqn:G;
      [intros [= <-]; apply Hfreed, H|].
    destruct (negb (same_code _ _)); [intros [= <-]; apply Hfreed, H|].
    simpl. intros [= E]. rewrite <- E in Hi'.
    apply find_param_Some in F as (rid & _ & F).
    apply find_room_Some in F as [Fj _].
    apply orb_false_iff in G as [Ho1 _]. apply negb_false_iff in Ho1.
    rewrite Hf in H.
    eapply (rewritten_later (readRooms w) rs _ j r1); eauto.
    + apply (only_freed_schedule t_timer (Room.id r1) (writeRooms _ w1)).
    + simpl. intros r0 a0 b0 H0 Ha0 Hb0.
      rewrite Hrs, expire_loop_lookup, H0 in Fj. simpl in Fj. injection Fj as Er1.
      assert (In0 : In r0 (readRooms w))
        by (apply list_elem_of_In; eapply list_elem_of_lookup_2; eauto).
      destruct (due t_expire r0); [subst r1; discriminate Ho1|].
      subst r1. rewrite Ha0 in Hb0. simpl in Hb0.
      apply (later_end a0 a0 k b0); eauto; lia.
  - unfold fire. destruct (find_timer h w) as [t|]; [|discriminate].
    intros [= E].
    apply Hfreed. rewrite <- E.
    apply (only_freed_callback now now' (roomOf t) (clearTimeout h w)).
Qed.

Lemma endTime_never_goes_back_witness :
  exists w' r',
    step sample_env sample_world (Extend "2" (JStr "0aff009c") (JNum 5) 600 600) = Some w'
    /\ readRooms w' !! 1%nat = Some r'
    /\ Room.endTime r' = Some 301000 /\ 1000 <= 301000.
Proof.
  assert (Hocc : ends_only_if_occupied sample_world).
  { intros r [<-|[<-|[]]] [x Hx]; [discriminate Hx|reflexivity]. }
  assert (Hnum : stores_numbers sample_world).
  { intros r e [<-|[<-|[]]] [= <-]. reflexivity. }
  destruct (step sample_env sample_world (Extend "2" (JStr "0aff009c") (JNum 5) 600 600))
    as [w'|] eqn:S; [|vm_compute in S; discriminate S].
  destruct (readRooms w' !! 1%nat) as [r'|] eqn:R.
  2:{ vm_compute in S. injection S as <-. vm_compute in R. discriminate R. }
  assert (Hb : Room.endTime r' = Some 301000).
  { vm_compute in S. injection S as <-. vm_compute in R. injection R as <-. reflexivity. }
  exists w', r'. repeat split; auto.
  exact (endTime_never_goes_back sample_env sample_world
           (Extend "2" (JStr "0aff009c") (JNum 5) 600 600) w' 1%nat room_B r'
           1000 301000 Hocc Hnum I S eq_refl R eq_refl Hb).
Defined.

(* ===================================================================== *)
(** * The public list *)
(* ===================================================================== *)

Section Listing.

Lemma get_rest_without (k k' : string) (o : Obj) :
  k <> k' -> get k (rest_without k' o) = get k o.
Proof.
  intros Hne. induction o as [|[x v] o IH]; simpl; [reflexivity|].
  destruct (String.eqb_spec x k') as [->|Hx]; simpl.
  - destruct (String.eqb_spec k k'); [contradiction|exact IH].
  - destruct (String.eqb k x); [reflexivity|exact IH].
Qed.

Lemma get_app_miss (k : string) (o1 o2 : Obj) :
  ~ In k (keys o1) -> get k (o1 ++ o2)%list = get k o2.
Proof.
  induction o1 as [|[x v] o1 IH]; simpl; [reflexivity|].
  intros H. destruct (String.eqb_spec k x) as [->|Hx]; [tauto|].
  apply IH. tauto.
Qed.

Lemma get_app_hit (k : string) (o1 o2 : Obj) :
  In k (keys o1) -> get k (o1 ++ o2)%list = get k o1.
Proof.
  induction o1 as [|[x v] o1 IH]; simpl; [intros []|].
  intros [->|H]; [now rewrite String.eqb_refl|].
  destruct (String.eqb k x); [reflexivity|now apply IH].
Qed.

End Listing.

(** X22: the public list.  When the QR code of every room can be drawn,
    GET /api/rooms answers 200 with one object per room of [rooms.json], in
    the order of the file; the object of a room carries its id, its status
    after the lazy expiry (Available if its end time has been reached), the
    QR code of [<base>/room/<id>], and no booking code. *)
Theorem listing_shows_every_room env req now w :
  (forall url, is_Some (toDataURL env url)) ->
  exists w' objs,
    get_rooms env req now w = (w', ok (RoomList objs))
    /\ length objs = length (readRooms w)
    /\ forall i r, readRooms w !! i = Some r ->
         exists o,
           objs !! i = Some o
           /\ get "id" o = JNum (Room.id r)
           /\ get "status" o
              = JStr (if due now r then "Available" else Room.status r)
           /\ Some (get "qr" o)
              = JStr <$> toDataURL env (getBaseUrl env req ++ "/room/"
                                        ++ number_toString (Room.id r))%string
           /\ get "bookingCode" o = JUndefined.
Proof.
  intros Hqr. unfold get_rooms.
  pose proof (expireRoomsIfNeeded_rooms now (readRooms w) w) as Hrs.
  destruct (expireRoomsIfNeeded now (readRooms w) w) as [rs w1]. simpl in Hrs.
  set (base := getBaseUrl env req).
  destruct (mapM (public_room env base) rs) as [objs|] eqn:M.
  2:{ exfalso. assert (H : is_Some (mapM (public_room env base) rs)).
      { apply mapM_is_Some. apply Forall_forall. intros r _.
        cbv [compose public_room].
        destruct (Hqr (base ++ "/room/" ++ number_toString (Room.id r))%string)
          as [qr ->]. eauto. }
      rewrite M in H. destruct H as [x Hx]. discriminate Hx. }
  exists w1, objs. split; [reflexivity|].
  apply mapM_Some in M.
  split.
  { rewrite <- (Forall2_length _ _ _ M), Hrs, expire_loop_fst. apply length_map. }
  intros i r Hi.
  assert (Hi1 : rs !! i = Some (if due now r then make_available r else r))
    by (rewrite Hrs, expire_loop_lookup, Hi; reflexivity).
  destruct (Forall2_lookup_l _ _ _ _ _ M Hi1) as (o & Ho & Hpub).
  exists o. split; [exact Ho|].
  unfold public_room in Hpub.
  set (r1 := if due now r then make_available r else r) in *.
  assert (Hid : Room.id r1 = Room.id r) by (unfold r1; now destruct (due now r)).
  rewrite Hid in Hpub.
  destruct (toDataURL env _) as [qr|] eqn:Q; [|discriminate Hpub].
  assert (Eo : o = (rest_without "bookingCode" (props r1) ++ [("qr", JStr qr)])%list)
    by (injection Hpub as <-; reflexivity).
  clear Hpub. rewrite Eo.
  assert (Hhide : ~ In "bookingCode" (keys (rest_without "bookingCode" (props r1))))
    by apply rest_without_keys.
  repeat split.
  - rewrite get_app_hit by (simpl; auto). rewrite get_rest_without by discriminate.
    simpl. now rewrite Hid.
  - rewrite get_app_hit by (simpl; auto). rewrite get_rest_without by discriminate.
    simpl. unfold r1. now destruct (due now r).
  - rewrite get_app_miss; [reflexivity|].
    unfold keys, rest_without, props. rewrite in_map_iff.
    intros ([k v] & Hk & Hin). simpl in Hk. subst k.
    apply filter_In in Hin as [Hin _].
    repeat (destruct Hin as [Hin|Hin]; [discriminate Hin|]).
    unfold prop in Hin. 
    destruct (Room.bookedBy r1), (Room.purpose r1), (Room.endTime r1),
      (Room.bookingCode r1); simpl in Hin;
      repeat (destruct Hin as [Hin|Hin]; [discriminate Hin|]); exact Hin.
  - rewrite get_app_miss by exact Hhide. reflexivity.
Qed.

Lemma listing_shows_every_room_witness :
  exists w' objs,
    get_rooms sample_env sample_request 1000 sample_world = (w', ok (RoomList objs))
    /\ length objs = 2%nat.
Proof.
  destruct (listing_shows_every_room sample_env sample_request 1000 sample_world)
    as (w' & objs & H1 & H2 & _).
  - intros url. simpl. eauto.
  - exists w', objs. split; [exact H1|exact H2].
Defined.

(** X23: the one step that can lose track of a timer.  Every step keeps the
    pending timers recorded in [autoReleaseTimers] (and so at most one per
    room), whatever the delays, except the firing of a timer whose callback
    finds the booking still running and reschedules. *)
Theorem only_rescheduling_loses_track env w e w' :
  tracked w -> step env w e = Some w' ->
  match e with
  | Fire h now _ =>
      forall t, find_timer h w = Some t -> reschedules now (roomOf t) w = false
  | _ => True
  end ->
  tracked w' /\ forall roomId, (length (timers_of roomId w') <= 1)%nat.
Proof.
  intros Ht Hstep He.
  assert (Ht' : tracked w') by (eapply step_keeps_tracked; eauto).
  split; [exact Ht'|]. intros roomId. now apply tracked_at_most_one.
Qed.

Lemma only_rescheduling_loses_track_witness :
  exists w',
    step sample_env sample_world (Fire 0 1000 1000) = Some w'
    /\ tracked w' /\ (length (timers_of 2 w') <= 1)%nat.
Proof.
  destruct (step sample_env sample_world (Fire 0 1000 1000)) as [w'|] eqn:S;
    [|vm_compute in S; discriminate S].
  exists w'. split; [reflexivity|].
  destruct (only_rescheduling_loses_track sample_env sample_world (Fire 0 1000 1000) w'
              tracked_sample_world S) as [H1 H2].
  - intros t Ft. vm_compute in Ft. injection Ft as <-. reflexivity.
  - split; [exact H1|apply H2].
Defined.
